(** * Ecore to Protocol Buffers converter: a shallow embedding

    The development follows [ecore_to_proto.py]: the Python string
    operations the converter relies on, the data model, the XMI parser
    ([EcoreParser]), the cross-reference resolver ([ReferenceResolver]),
    the annotation collector ([AnnotationCollector]), the generator
    ([ProtoGenerator]) and [convert] with the file system it writes to.

    Conventions.  Python [str] is [string] and is read as ASCII text;
    [int] is [Z]; [Optional[str]] is [option string]; a [dict] whose
    iteration order is observed (annotation details, the option registry)
    is an association list in insertion order, the resolver's indices are
    [gmap]s; a Python exception is the [Raise] case of [result]. *)

From Stdlib Require Import String Ascii ZArith List Bool Lia DecimalString.
From stdpp Require Import base option list strings gmap.

Set Warnings "-register-all".
Local Open Scope string_scope.
Local Open Scope list_scope.

(* ================================================================== *)
(** * Python string operations *)
(* ================================================================== *)

Module Py.

Definition code (c : ascii) : nat := nat_of_ascii c.

Definition between (lo hi : nat) (c : ascii) : bool :=
  (lo <=? code c)%nat && (code c <=? hi)%nat.

(** [str.isspace], which [split] and [strip] use: TAB..CR, FS..US and the
    blank and, above the ASCII characters, NEL (U+0085) and the no-break
    space (U+00A0). *)
Definition is_space (c : ascii) : bool :=
  between 9 13 c || between 28 32 c || between 133 133 c || between 160 160 c.
Definition is_upper (c : ascii) : bool := between 65 90 c.
Definition is_lower (c : ascii) : bool := between 97 122 c.
Definition is_digit (c : ascii) : bool := between 48 57 c.

Definition to_lower (c : ascii) : ascii :=
  if is_upper c then ascii_of_nat (code c + 32) else c.
Definition to_upper (c : ascii) : ascii :=
  if is_lower c then ascii_of_nat (code c - 32) else c.

Fixpoint smap (f : ascii -> ascii) (s : string) : string :=
  match s with
  | EmptyString => EmptyString
  | String c s' => String (f c) (smap f s')
  end.

(** [s.lower()] and [s.upper()]. *)
Definition lower : string -> string := smap to_lower.
Definition upper : string -> string := smap to_upper.

(** Truthiness of a string: [if s:]. *)
Definition truthy (s : string) : bool :=
  match s with EmptyString => false | _ => true end.

(** Truthiness of an [Optional[str]]: neither [None] nor empty. *)
Definition truthy_opt (o : option string) : bool :=
  match o with Some s => truthy s | None => false end.

(** [a or b] on an optional string and a string. *)
Definition or_else (o : option string) (d : string) : string :=
  match o with Some s => if truthy s then s else d | None => d end.

Fixpoint starts_with (p s : string) : bool :=
  match p, s with
  | EmptyString, _ => true
  | String a p', String b s' => if Ascii.eqb a b then starts_with p' s' else false
  | String _ _, EmptyString => false
  end.

Fixpoint drop (n : nat) (s : string) : string :=
  match n, s with
  | O, _ => s
  | S n', String _ s' => drop n' s'
  | S _, EmptyString => EmptyString
  end.

(** [sub in s]. *)
Fixpoint contains (sub s : string) : bool :=
  starts_with sub s ||
  match s with
  | EmptyString => false
  | String _ s' => contains sub s'
  end.

(** [s.split(sep, 1)] when [sep] occurs: the text before and after the
    leftmost occurrence; [None] when [sep] does not occur. *)
Fixpoint split1 (sep s : string) : option (string * string) :=
  if starts_with sep s then Some (EmptyString, drop (String.length sep) s)
  else match s with
       | EmptyString => None
       | String c s' =>
           match split1 sep s' with
           | Some (l, r) => Some (String c l, r)
           | None => None
           end
       end.

(** [s.rsplit(sep, 1)] when [sep] occurs: the text before and after the
    rightmost occurrence. *)
Fixpoint rsplit1 (sep s : string) : option (string * string) :=
  match s with
  | EmptyString =>
      if starts_with sep EmptyString then Some (EmptyString, EmptyString) else None
  | String c s' =>
      match rsplit1 sep s' with
      | Some (l, r) => Some (String c l, r)
      | None =>
          if starts_with sep s
          then Some (EmptyString, drop (String.length sep) s)
          else None
      end
  end.

(** [s.split(sep)[-1]] and [s.rsplit(sep, 1)[-1]]: what follows the last
    separator, the whole string when there is none. *)
Definition after_last (sep s : string) : string :=
  match rsplit1 sep s with Some (_, r) => r | None => s end.

(** [s.rsplit(sep, 1)[0]]. *)
Definition before_last (sep s : string) : string :=
  match rsplit1 sep s with Some (l, _) => l | None => s end.

Fixpoint lstrip_by (p : ascii -> bool) (s : string) : string :=
  match s with
  | EmptyString => EmptyString
  | String c s' => if p c then lstrip_by p s' else s
  end.

Fixpoint rstrip_by (p : ascii -> bool) (s : string) : string :=
  match s with
  | EmptyString => EmptyString
  | String c s' =>
      match rstrip_by p s' with
      | EmptyString => if p c then EmptyString else String c EmptyString
      | r => String c r
      end
  end.

Definition strip_by (p : ascii -> bool) (s : string) : string :=
  rstrip_by p (lstrip_by p s).

(** [s.strip()]. *)
Definition strip : string -> string := strip_by is_space.

Definition is_char (a : ascii) (c : ascii) : bool := Ascii.eqb a c.

(** [s.split()]: the maximal runs of non-blank characters. *)
Fixpoint split_ws_from (cur : string) (s : string) : list string :=
  match s with
  | EmptyString => if truthy cur then [cur] else []
  | String c s' =>
      if is_space c
      then (if truthy cur then cur :: split_ws_from EmptyString s'
            else split_ws_from EmptyString s')
      else split_ws_from (cur +:+ String c EmptyString) s'
  end.

Definition split_ws : string -> list string := split_ws_from EmptyString.

(** [s.split(sep)] for a one-character separator. *)
Fixpoint split_char_from (sep : ascii) (cur : string) (s : string) : list string :=
  match s with
  | EmptyString => [cur]
  | String c s' =>
      if Ascii.eqb c sep then cur :: split_char_from sep EmptyString s'
      else split_char_from sep (cur +:+ String c EmptyString) s'
  end.

Definition split_char (sep : ascii) : string -> list string :=
  split_char_from sep EmptyString.

(** [re.sub(r'[^...]', '_', s)] for a character class given as a test. *)
Definition replace_unless (keep : ascii -> bool) : string -> string :=
  smap (fun c => if keep c then c else "_"%char).

(** [re.sub(r'_+', '_', s)]. *)
Fixpoint collapse_underscores (s : string) : string :=
  match s with
  | EmptyString => EmptyString
  | String c s' =>
      match s' with
      | String d _ =>
          if is_char "_" c && is_char "_" d then collapse_underscores s'
          else String c (collapse_underscores s')
      | EmptyString => String c EmptyString
      end
  end.

(** [re.sub(r'([a-z0-9])([A-Z])', r'\1_\2', s)]: an underscore between a
    lower-case letter or digit and the capital that follows it. *)
Fixpoint sub_lower_upper (s : string) : string :=
  match s with
  | EmptyString => EmptyString
  | String c s' =>
      match s' with
      | String d _ =>
          if (is_lower c || is_digit c) && is_upper d
          then String c (String "_" (sub_lower_upper s'))
          else String c (sub_lower_upper s')
      | EmptyString => String c EmptyString
      end
  end.

(** [re.sub(r'([A-Z]+)([A-Z][a-z])', r'\1_\2', s)]: in a run of two or
    more capitals followed by a lower-case letter, an underscore before
    the last capital.  [prev] tells whether the previous character is a
    capital. *)
Fixpoint sub_upper_run_from (prev : bool) (s : string) : string :=
  match s with
  | EmptyString => EmptyString
  | String c s' =>
      match s' with
      | String d _ =>
          if prev && is_upper c && is_lower d
          then String "_" (String c (sub_upper_run_from (is_upper c) s'))
          else String c (sub_upper_run_from (is_upper c) s')
      | EmptyString => String c EmptyString
      end
  end.

Definition sub_upper_run : string -> string := sub_upper_run_from false.

(** Decimal digits with single underscores between them, as [int]
    accepts them; [acc] is the value read so far and [sep] tells whether
    the previous character was an underscore. *)
Fixpoint digits_from (acc : Z) (sep : bool) (s : string) : option Z :=
  match s with
  | EmptyString => if sep then None else Some acc
  | String c s' =>
      if is_digit c
      then digits_from (10 * acc + Z.of_nat (code c - 48)) false s'
      else if is_char "_" c && negb sep then digits_from acc true s'
      else None
  end.

Definition digits (s : string) : option Z :=
  match s with
  | String c _ => if is_digit c then digits_from 0 false s else None
  | EmptyString => None
  end.

(** [int(s)]: blanks around, an optional sign, decimal digits; [None]
    stands for [ValueError]. *)
Definition int (s : string) : option Z :=
  match strip s with
  | String "-" s' => Z.opp <$> digits s'
  | String "+" s' => digits s'
  | s' => digits s'
  end.

(** [str(n)] for an integer. *)
Definition str_of_int (n : Z) : string := NilZero.string_of_int (Z.to_int n).

(** [Path(p).name]: the last path component, empty and [.] components
    put aside. *)
Definition path_name (p : string) : string :=
  List.last (List.filter (fun c => truthy c && negb (String.eqb c "."))
                         (split_char "/" p)) EmptyString.

(** [Path(p).stem]: the name without its last suffix; a dot that leads or
    ends the name starts no suffix. *)
Definition path_stem (p : string) : string :=
  let name := path_name p in
  match rsplit1 "." name with
  | Some (l, r) => if truthy l && truthy r then l else name
  | None => name
  end.

End Py.

(* ================================================================== *)
(** * Data model *)
(* ================================================================== *)

(** A [dict] of strings in insertion order; [d[k] = v] keeps the place of
    a key that is already there. *)
Definition dict := list (string * string).

Fixpoint dict_set (k v : string) (d : dict) : dict :=
  match d with
  | [] => [(k, v)]
  | (k', v') :: d' =>
      if String.eqb k' k then (k', v) :: d' else (k', v') :: dict_set k v d'
  end.

Fixpoint dict_get (k : string) (d : dict) : option string :=
  match d with
  | [] => None
  | (k', v) :: d' => if String.eqb k' k then Some v else dict_get k d'
  end.

Record EAnnotation := mkEAnnotation {
  ann_source : string;
  ann_details : dict
}.

Record EEnumLiteral := mkEEnumLiteral {
  lit_name : string;
  lit_value : Z
}.

Record EEnum := mkEEnum {
  enum_name : string;
  enum_literals : list EEnumLiteral;
  enum_package_name : string;
  enum_annotations : list EAnnotation
}.

Record EAttribute := mkEAttribute {
  attr_name : string;
  attr_e_type : string;
  attr_lower_bound : Z;
  attr_upper_bound : Z;
  attr_default_value : option string;
  attr_source_hint : option string;
  attr_annotations : list EAnnotation
}.

Record EReference := mkEReference {
  ref_name : string;
  ref_e_type : string;
  ref_containment : bool;
  ref_lower_bound : Z;
  ref_upper_bound : Z;
  ref_opposite : option string;
  ref_resolved_package : option string;
  ref_source_hint : option string;
  ref_annotations : list EAnnotation
}.

Record EClass := mkEClass {
  cls_name : string;
  cls_abstract : bool;
  cls_interface : bool;
  cls_super_types : list string;
  cls_attributes : list EAttribute;
  cls_references : list EReference;
  cls_package_name : string;
  cls_resolved_supers : list (string * string);
  cls_annotations : list EAnnotation
}.

Record EDataType := mkEDataType {
  dt_name : string;
  dt_instance_class_name : option string
}.

Inductive EPackage := mkEPackage {
  pkg_name : string;
  pkg_ns_uri : string;
  pkg_ns_prefix : string;
  pkg_classes : list EClass;
  pkg_enums : list EEnum;
  pkg_data_types : list EDataType;
  pkg_sub_packages : list EPackage;
  pkg_source_file : string;
  pkg_annotations : list EAnnotation
}.

(** [pkg.classes.append(c)] and its siblings. *)
Definition add_class (c : EClass) (p : EPackage) : EPackage :=
  mkEPackage (pkg_name p) (pkg_ns_uri p) (pkg_ns_prefix p)
    (pkg_classes p ++ [c]) (pkg_enums p) (pkg_data_types p)
    (pkg_sub_packages p) (pkg_source_file p) (pkg_annotations p).

Definition add_enum (e : EEnum) (p : EPackage) : EPackage :=
  mkEPackage (pkg_name p) (pkg_ns_uri p) (pkg_ns_prefix p)
    (pkg_classes p) (pkg_enums p ++ [e]) (pkg_data_types p)
    (pkg_sub_packages p) (pkg_source_file p) (pkg_annotations p).

Definition add_data_type (d : EDataType) (p : EPackage) : EPackage :=
  mkEPackage (pkg_name p) (pkg_ns_uri p) (pkg_ns_prefix p)
    (pkg_classes p) (pkg_enums p) (pkg_data_types p ++ [d])
    (pkg_sub_packages p) (pkg_source_file p) (pkg_annotations p).

Definition add_sub_package (s : EPackage) (p : EPackage) : EPackage :=
  mkEPackage (pkg_name p) (pkg_ns_uri p) (pkg_ns_prefix p)
    (pkg_classes p) (pkg_enums p) (pkg_data_types p)
    (pkg_sub_packages p ++ [s]) (pkg_source_file p) (pkg_annotations p).

(** Induction on a package tree, with the hypothesis for every
    sub-package. *)
Fixpoint EPackage_tree_ind (P : EPackage -> Prop)
    (step : forall p, Forall P (pkg_sub_packages p) -> P p)
    (p : EPackage) {struct p} : P p :=
  step p
    ((fix subs (l : list EPackage) : Forall P l :=
        match l with
        | [] => @List.Forall_nil _ P
        | s :: l' => @List.Forall_cons _ P s l' (EPackage_tree_ind P step s) (subs l')
        end) (pkg_sub_packages p)).

(** ECORE_TO_PROTO_TYPE *)
Definition ECORE_TO_PROTO_TYPE : list (string * string) :=
  [ ("EString", "string"); ("EInt", "int32"); ("EInteger", "int32");
    ("ELong", "int64"); ("EFloat", "float"); ("EDouble", "double");
    ("EBoolean", "bool"); ("EByte", "int32"); ("EShort", "int32");
    ("EChar", "string"); ("EDate", "google.protobuf.Timestamp");
    ("EBigInteger", "int64"); ("EBigDecimal", "string");
    ("EByteArray", "bytes"); ("EResource", "string");
    ("EJavaObject", "google.protobuf.Any"); ("EJavaClass", "string");
    ("EFeatureMapEntry", "google.protobuf.Any");
    ("EMap", "google.protobuf.Struct"); ("EEList", "google.protobuf.ListValue");
    ("ETreeIterator", "string"); ("EEnumerator", "int32");
    ("java.lang.String", "string"); ("java.lang.Integer", "int32");
    ("java.lang.Long", "int64"); ("java.lang.Float", "float");
    ("java.lang.Double", "double"); ("java.lang.Boolean", "bool");
    ("java.lang.Byte", "int32"); ("java.lang.Short", "int32");
    ("java.lang.Character", "string");
    ("java.util.Date", "google.protobuf.Timestamp");
    ("java.math.BigInteger", "int64"); ("java.math.BigDecimal", "string");
    ("int", "int32"); ("long", "int64"); ("float", "float");
    ("double", "double"); ("boolean", "bool"); ("byte", "int32");
    ("short", "int32"); ("char", "string") ].

(** [name in ECORE_TO_PROTO_TYPE] and [ECORE_TO_PROTO_TYPE[name]]. *)
Definition proto_type_of (name : string) : option string :=
  dict_get name ECORE_TO_PROTO_TYPE.

(* ================================================================== *)
(** * Exceptions *)
(* ================================================================== *)

Inductive exn := ValueError | IndexError | LookupError | OSError.

Inductive result (A : Type) :=
| Ok (a : A)
| Raise (e : exn).
Arguments Ok {A} a.
Arguments Raise {A} e.

#[global] Instance result_ret : MRet result := fun A a => Ok a.
#[global] Instance result_bind : MBind result := fun A B k r =>
  match r with Ok a => k a | Raise e => Raise e end.
#[global] Instance result_fmap : FMap result := fun A B f r =>
  match r with Ok a => Ok (f a) | Raise e => Raise e end.

Definition lift_int (o : option Z) : result Z :=
  match o with Some n => Ok n | None => Raise ValueError end.

(* ================================================================== *)
(** * The parsed XML tree *)
(* ================================================================== *)

(** An [xml.etree.ElementTree.Element]: tag, attributes, children. *)
Inductive Element := mkElement {
  tag : string;
  attrib : dict;
  children : list Element
}.

(** [elem.get(key)] and [elem.get(key, default)]. *)
Definition get (e : Element) (key : string) : option string :=
  dict_get key (attrib e).

Definition get_or (e : Element) (key default : string) : string :=
  match get e key with Some v => v | None => default end.

(* ================================================================== *)
(** * EcoreParser *)
(* ================================================================== *)

(** The three kinds of classifier. *)
Inductive Kind := KClass | KEnum | KDataType.

(** A structural feature is stored among the attributes or among the
    references of its class. *)
Inductive Feature :=
| FAttribute (a : EAttribute)
| FReference (r : EReference).

Module EcoreParser.

Definition XSI_NS : string := "http://www.w3.org/2001/XMLSchema-instance".

(** The attribute key [f"{{{XSI_NS}}}type"]. *)
Definition XSI_TYPE : string := "{" +:+ XSI_NS +:+ "}type".

Definition _strip_ns (t : string) : string :=
  match Py.split1 "}" t with
  | Some (_, r) => r
  | None => t
  end.

Definition _has_literals (elem : Element) : bool :=
  existsb (fun child =>
             let t := _strip_ns (tag child) in
             Py.contains "literal" (Py.lower t) || String.eqb "eLiterals" t)
          (children elem).

Definition _has_structural_features (elem : Element) : bool :=
  existsb (fun child =>
             let t := _strip_ns (tag child) in
             String.eqb "eStructuralFeatures" t || Py.contains "feature" (Py.lower t))
          (children elem).

Definition _looks_like_class (elem : Element) : bool :=
  _has_structural_features elem
  || bool_decide (is_Some (get elem "eSuperTypes"))
  || bool_decide (is_Some (get elem "abstract")).

Definition _looks_like_enum (elem : Element) : bool := _has_literals elem.

Definition _looks_like_datatype (elem : Element) : bool :=
  bool_decide (is_Some (get elem "instanceClassName"))
  || bool_decide (is_Some (get elem "instanceTypeName")).

(** [a or b] on two optional strings. *)
Definition opt_or (a b : option string) : option string :=
  if Py.truthy_opt a then a else b.

(** [_parse_annotations] *)
Definition parse_details (ann : Element) : dict :=
  fold_left (fun details detail =>
               if String.eqb (_strip_ns (tag detail)) "details"
               then let key := get_or detail "key" "" in
                    let value := get_or detail "value" "" in
                    if Py.truthy key then dict_set key value details else details
               else details)
            (children ann) [].

Definition _parse_annotations (elem : Element) : list EAnnotation :=
  fold_left (fun annotations child =>
               if String.eqb (_strip_ns (tag child)) "eAnnotations"
               then let source := get_or child "source" "" in
                    let details := parse_details child in
                    match details with
                    | [] => annotations
                    | _ => annotations ++ [mkEAnnotation source details]
                    end
               else annotations)
            (children elem) [].

(** [_extract_type_info]; [parts[-1]] of an empty list raises
    [IndexError]. *)
Definition _extract_type_info (etype_raw : string) : result (string * option string) :=
  if negb (Py.truthy etype_raw) then Ok ("EString", None)
  else
    match Py.rsplit1 "#//" etype_raw with
    | Some (left_, right_) =>
        let type_name := Py.strip (Py.after_last "/" right_) in
        let left_ := Py.strip left_ in
        let source_hint :=
          if Py.truthy left_
             && negb (Py.contains "eclipse.org/emf" left_)
             && negb (Py.contains "www.w3.org" left_)
          then
            let left_ := if Py.contains " " left_
                         then List.last (Py.split_ws left_) "" else left_ in
            let basename := Py.after_last "/" left_ in
            let source_hint :=
              if Py.contains "." basename then Py.before_last "." basename
              else basename in
            Some (if Py.truthy source_hint then Py.strip source_hint else source_hint)
          else None in
        Ok (type_name, source_hint)
    | None =>
        match Py.split_ws etype_raw with
        | [] => Raise IndexError
        | parts => Ok (Py.strip (List.last parts ""), None)
        end
    end.

Definition _extract_type_name (etype_raw : string) : result string :=
  ti ← _extract_type_info etype_raw; mret (fst ti).

Definition _is_likely_reference (etype : string) : result bool :=
  type_name ← _extract_type_name etype;
  mret (negb (bool_decide (is_Some (proto_type_of type_name)))).

Definition is_true_text (s : string) : bool := String.eqb (Py.lower s) "true".

Definition _parse_attribute (elem : Element) : result EAttribute :=
  let etype_raw := get_or elem "eType" "" in
  ti ← _extract_type_info etype_raw;
  lower_bound ← lift_int (Py.int (get_or elem "lowerBound" "0"));
  upper_bound ← lift_int (Py.int (get_or elem "upperBound" "1"));
  mret (mkEAttribute (get_or elem "name" "unknown") (fst ti)
          lower_bound upper_bound (get elem "defaultValueLiteral") (snd ti)
          (_parse_annotations elem)).

Definition _parse_reference (elem : Element) : result EReference :=
  let etype_raw := get_or elem "eType" "" in
  ti ← _extract_type_info etype_raw;
  lower_bound ← lift_int (Py.int (get_or elem "lowerBound" "0"));
  upper_bound ← lift_int (Py.int (get_or elem "upperBound" "1"));
  mret (mkEReference (get_or elem "name" "unknown") (fst ti)
          (is_true_text (get_or elem "containment" "false"))
          lower_bound upper_bound (get elem "eOpposite") None (snd ti)
          (_parse_annotations elem)).

(** The body of the loop of [_parse_class] over [eStructuralFeatures]
    children. *)
Definition parse_feature (child : Element) : result Feature :=
  let xsi_type := get_or child XSI_TYPE "" in
  if Py.contains "EReference" xsi_type then FReference <$> _parse_reference child
  else if Py.contains "EAttribute" xsi_type then FAttribute <$> _parse_attribute child
  else
    let etype := get_or child "eType" "" in
    if Py.truthy etype
       && (Py.contains "#//" etype || Py.contains "ecore:" (Py.lower etype))
    then
      likely ← _is_likely_reference etype;
      if likely : bool then FReference <$> _parse_reference child
      else FAttribute <$> _parse_attribute child
    else FAttribute <$> _parse_attribute child.

Definition add_feature (f : Feature) (c : EClass) : EClass :=
  match f with
  | FAttribute a =>
      mkEClass (cls_name c) (cls_abstract c) (cls_interface c) (cls_super_types c)
        (cls_attributes c ++ [a]) (cls_references c) (cls_package_name c)
        (cls_resolved_supers c) (cls_annotations c)
  | FReference r =>
      mkEClass (cls_name c) (cls_abstract c) (cls_interface c) (cls_super_types c)
        (cls_attributes c) (cls_references c ++ [r]) (cls_package_name c)
        (cls_resolved_supers c) (cls_annotations c)
  end.

Fixpoint parse_features (cs : list Element) (cls : EClass) : result EClass :=
  match cs with
  | [] => Ok cls
  | child :: cs' =>
      if String.eqb (_strip_ns (tag child)) "eStructuralFeatures"
      then f ← parse_feature child; parse_features cs' (add_feature f cls)
      else parse_features cs' cls
  end.

Definition _parse_class (elem : Element) (package_name : string) : result EClass :=
  let super_types_str := get_or elem "eSuperTypes" "" in
  let super_types :=
    if Py.truthy super_types_str
    then map Py.strip (Py.split_ws super_types_str) else [] in
  let cls :=
    mkEClass (get_or elem "name" "UnknownClass")
      (is_true_text (get_or elem "abstract" "false"))
      (is_true_text (get_or elem "interface" "false"))
      super_types [] [] package_name [] (_parse_annotations elem) in
  parse_features (children elem) cls.

Fixpoint parse_literals (cs : list Element) (lits : list EEnumLiteral)
  : result (list EEnumLiteral) :=
  match cs with
  | [] => Ok lits
  | child :: cs' =>
      if String.eqb (_strip_ns (tag child)) "eLiterals"
      then value ← lift_int (Py.int (get_or child "value" "0"));
           parse_literals cs' (lits ++ [mkEEnumLiteral (get_or child "name" "UNKNOWN") value])
      else parse_literals cs' lits
  end.

Definition _parse_enum (elem : Element) (package_name : string) : result EEnum :=
  lits ← parse_literals (children elem) [];
  mret (mkEEnum (get_or elem "name" "UnknownEnum") lits package_name
          (_parse_annotations elem)).

Definition _parse_datatype (elem : Element) : EDataType :=
  mkEDataType (get_or elem "name" "")
    (opt_or (get elem "instanceClassName") (get elem "instanceTypeName")).

(** The chain of tests of [_parse_package] on an [eClassifiers] child:
    which of [_parse_class], [_parse_enum] and [_parse_datatype] it
    calls. *)
Definition classify (child : Element) : Kind :=
  let xsi_type := get_or child XSI_TYPE "" in
  if Py.contains "EClass" xsi_type
     || (String.eqb xsi_type "" && _looks_like_class child)
  then KClass
  else if Py.contains "EEnum" xsi_type || _looks_like_enum child then KEnum
  else if Py.contains "EDataType" xsi_type || _looks_like_datatype child
  then KDataType
  else if _has_literals child then KEnum
  else if _has_structural_features child then KClass
  else if Py.truthy_opt (opt_or (get child "instanceClassName")
                                (get child "instanceTypeName"))
  then KDataType
  else KClass.

Definition is_classifier_tag (t : string) : bool :=
  String.eqb t "eClassifiers" || String.eqb t "EClassifiers".

Definition is_subpackage_tag (t : string) : bool :=
  String.eqb t "eSubpackages" || String.eqb t "ESubpackages".

Fixpoint _parse_package (elem : Element) (filepath : string) {struct elem}
  : result EPackage :=
  match elem with
  | mkElement _ _ cs =>
      let pkg :=
        mkEPackage (get_or elem "name" "") (get_or elem "nsURI" "")
          (get_or elem "nsPrefix" "") [] [] [] [] filepath
          (_parse_annotations elem) in
      (fix loop (cs : list Element) (pkg : EPackage) {struct cs} : result EPackage :=
         match cs with
         | [] => Ok pkg
         | child :: cs' =>
             let t := _strip_ns (tag child) in
             if is_classifier_tag t then
               match classify child with
               | KClass =>
                   cls ← _parse_class child (pkg_name pkg);
                   loop cs' (add_class cls pkg)
               | KEnum =>
                   enum ← _parse_enum child (pkg_name pkg);
                   loop cs' (add_enum enum pkg)
               | KDataType => loop cs' (add_data_type (_parse_datatype child) pkg)
               end
             else if is_subpackage_tag t then
               sub ← _parse_package child filepath;
               loop cs' (add_sub_package sub pkg)
             else loop cs' pkg
         end) cs pkg
  end.

(** The loop of [parse_file] over the children of an [XMI] or [Resource]
    root. *)
Fixpoint parse_root_children (cs : list Element) (filepath : string)
    (packages : list EPackage) : result (list EPackage) :=
  match cs with
  | [] => Ok packages
  | child :: cs' =>
      if String.eqb (_strip_ns (tag child)) "EPackage"
      then pkg ← _parse_package child filepath;
           parse_root_children cs' filepath (packages ++ [pkg])
      else parse_root_children cs' filepath packages
  end.

(** [parse_file] once [ET.parse] has produced the root element. *)
Definition parse_root (root : Element) (filepath : string) : result (list EPackage) :=
  let t := _strip_ns (tag root) in
  if String.eqb t "EPackage" then
    pkg ← _parse_package root filepath; mret [pkg]
  else if String.eqb t "XMI" || String.eqb t "Resource" then
    parse_root_children (children root) filepath []
  else
    pkg ← _parse_package root filepath;
    mret (if Py.truthy (pkg_name pkg) then [pkg] else []).

End EcoreParser.

(* ================================================================== *)
(** * The parsing loop of [convert] *)
(* ================================================================== *)

(** What [ET.parse] makes of an input file: it raises [ET.ParseError]
    with a message on text that is not well-formed XML, it raises another
    exception when the file cannot be read at all ([OSError] on a path
    that cannot be opened, [LookupError] on an encoding it does not
    know), and it returns the tree otherwise. *)
Inductive xml_source :=
| Malformed (message : string)
| Unreadable (e : exn)
| WellFormed (root : Element).

(** An input unit: the file path and its content as the XML reader sees
    it. *)
Definition input_unit : Type := string * xml_source.

Definition is_malformed (u : input_unit) : bool :=
  match snd u with Malformed _ => true | _ => false end.

(** What [parse_file] does on a unit. *)
Inductive parse_outcome :=
| Parsed (packages : list EPackage)
| ParseError (message : string)
| Uncaught (e : exn).

Definition parse_file (u : input_unit) : parse_outcome :=
  match snd u with
  | Malformed message => ParseError message
  | Unreadable e => Uncaught e
  | WellFormed root =>
      match EcoreParser.parse_root root (fst u) with
      | Ok packages => Parsed packages
      | Raise e => Uncaught e
      end
  end.

(** The state of the loop: the packages gathered so far and the lines
    printed on the error stream. *)
Record parse_state := mkParseState {
  all_packages : list EPackage;
  stderr : list string
}.

Definition report (filepath message : string) : string :=
  "Error parsing " +:+ filepath +:+ ": " +:+ message.

(** The [for filepath in ecore_files] loop of [convert]: only
    [ET.ParseError] is caught. *)
Fixpoint parse_units (units : list input_unit) (st : parse_state) : result parse_state :=
  match units with
  | [] => Ok st
  | u :: rest =>
      match parse_file u with
      | Parsed packages =>
          parse_units rest (mkParseState (all_packages st ++ packages) (stderr st))
      | ParseError message =>
          parse_units rest
            (mkParseState (all_packages st) (stderr st ++ [report (fst u) message]))
      | Uncaught e => Raise e
      end
  end.

Definition parseSources (units : list input_unit) : result parse_state :=
  parse_units units (mkParseState [] []).

(** [flatten_packages] *)
Fixpoint flatten_package (pkg : EPackage) : list EPackage :=
  pkg :: flat_map flatten_package (pkg_sub_packages pkg).

Definition flatten_packages (packages : list EPackage) : list EPackage :=
  flat_map flatten_package packages.

(* ================================================================== *)
(** * ReferenceResolver *)
(* ================================================================== *)

(** The indices of the resolver.  They are filled by the constructor and
    only read afterwards. *)
Record ReferenceResolver := mkResolver {
  class_index : gmap string (list string);
  enum_index : gmap string (list string);
  datatype_index : gmap string string;
  file_stem_to_package : gmap string string
}.

Definition empty_resolver : ReferenceResolver := mkResolver ∅ ∅ ∅ ∅.

(** [index.setdefault(name, [])] followed by the guarded [append]. *)
Definition index_add (name pkg : string) (index : gmap string (list string))
  : gmap string (list string) :=
  let l := default [] (index !! name) in
  if bool_decide (pkg ∈ l) then index else <[name := l ++ [pkg]]> index.

Definition set_stem (stem pkg : string) (r : ReferenceResolver) : ReferenceResolver :=
  mkResolver (class_index r) (enum_index r) (datatype_index r)
    (<[stem := pkg]> (file_stem_to_package r)).

Definition index_class (pkg : string) (r : ReferenceResolver) (cls : EClass)
  : ReferenceResolver :=
  mkResolver (index_add (cls_name cls) pkg (class_index r)) (enum_index r)
    (datatype_index r) (file_stem_to_package r).

Definition index_enum (pkg : string) (r : ReferenceResolver) (enum : EEnum)
  : ReferenceResolver :=
  mkResolver (class_index r) (index_add (enum_name enum) pkg (enum_index r))
    (datatype_index r) (file_stem_to_package r).

Definition index_data_type (r : ReferenceResolver) (dt : EDataType)
  : ReferenceResolver :=
  match dt_instance_class_name dt with
  | Some icn =>
      if Py.truthy icn
      then mkResolver (class_index r) (enum_index r)
             (<[dt_name dt := icn]> (datatype_index r)) (file_stem_to_package r)
      else r
  | None => r
  end.

Fixpoint _index_package (r : ReferenceResolver) (pkg : EPackage) {struct pkg}
  : ReferenceResolver :=
  let r := if Py.truthy (pkg_source_file pkg)
           then set_stem (Py.path_stem (pkg_source_file pkg)) (pkg_name pkg) r
           else r in
  let r := set_stem (pkg_name pkg) (pkg_name pkg) r in
  let r := fold_left (index_class (pkg_name pkg)) (pkg_classes pkg) r in
  let r := fold_left (index_enum (pkg_name pkg)) (pkg_enums pkg) r in
  let r := fold_left index_data_type (pkg_data_types pkg) r in
  fold_left _index_package (pkg_sub_packages pkg) r.

(** [ReferenceResolver(packages)]: [_build_indices]. *)
Definition _build_indices (packages : list EPackage) : ReferenceResolver :=
  fold_left _index_package packages empty_resolver.

(** [resolve_type] *)
Definition resolve_type (r : ReferenceResolver) (type_name : string)
    (source_hint : option string) (current_pkg_name : string)
    (index : gmap string (list string)) : option string :=
  let candidates := default [] (index !! type_name) in
  match candidates with
  | [] => None
  | [only] => Some only
  | first :: _ =>
      let hinted :=
        if Py.truthy_opt source_hint then
          let hint := default "" source_hint in
          let hinted_pkg := file_stem_to_package r !! hint in
          if Py.truthy_opt hinted_pkg
             && bool_decide (default "" hinted_pkg ∈ candidates)
          then hinted_pkg
          else if bool_decide (hint ∈ candidates) then Some hint
          else None
        else None in
      match hinted with
      | Some p => Some p
      | None =>
          if bool_decide (current_pkg_name ∈ candidates)
          then Some current_pkg_name
          else Some first
      end
  end.

(** [_extract_type_info_from_uri] *)
Definition _extract_type_info_from_uri (uri : string) : string * option string :=
  match Py.rsplit1 "#//" uri with
  | Some (left_, right_) =>
      let type_name := Py.strip (Py.after_last "/" right_) in
      let left_ := Py.strip left_ in
      let source_hint :=
        if Py.truthy left_ then
          let basename := Py.after_last "/" left_ in
          if Py.contains "." basename then Some (Py.before_last "." basename)
          else Some basename
        else None in
      (type_name, source_hint)
  | None => (Py.after_last "/" uri, None)
  end.

(** One super-type token: the pair appended to [resolved_supers]. *)
Definition resolve_super (r : ReferenceResolver) (pkg : string) (st : string)
  : string * string :=
  let '(type_name, source_hint) := _extract_type_info_from_uri st in
  let target_pkg := resolve_type r type_name source_hint pkg (class_index r) in
  (Py.or_else target_pkg pkg, type_name).

(** One reference: the value stored in [resolved_package]. *)
Definition resolve_target (r : ReferenceResolver) (pkg : string) (ref : EReference)
  : string :=
  let resolved :=
    resolve_type r (ref_e_type ref) (ref_source_hint ref) pkg (class_index r) in
  if Py.truthy_opt resolved then default "" resolved
  else Py.or_else
         (resolve_type r (ref_e_type ref) (ref_source_hint ref) pkg (enum_index r))
         pkg.

Definition resolve_reference (r : ReferenceResolver) (pkg : string) (ref : EReference)
  : EReference :=
  mkEReference (ref_name ref) (ref_e_type ref) (ref_containment ref)
    (ref_lower_bound ref) (ref_upper_bound ref) (ref_opposite ref)
    (Some (resolve_target r pkg ref)) (ref_source_hint ref) (ref_annotations ref).

(** The body of the loop of [_resolve_package] over the classes: the
    pairs are appended to [resolved_supers], the references are
    overwritten. *)
Definition resolve_class (r : ReferenceResolver) (pkg : string) (cls : EClass)
  : EClass :=
  mkEClass (cls_name cls) (cls_abstract cls) (cls_interface cls)
    (cls_super_types cls) (cls_attributes cls)
    (map (resolve_reference r pkg) (cls_references cls))
    (cls_package_name cls)
    (cls_resolved_supers cls ++ map (resolve_super r pkg) (cls_super_types cls))
    (cls_annotations cls).

Fixpoint _resolve_package (r : ReferenceResolver) (pkg : EPackage) {struct pkg}
  : EPackage :=
  mkEPackage (pkg_name pkg) (pkg_ns_uri pkg) (pkg_ns_prefix pkg)
    (map (resolve_class r (pkg_name pkg)) (pkg_classes pkg))
    (pkg_enums pkg) (pkg_data_types pkg)
    (map (_resolve_package r) (pkg_sub_packages pkg))
    (pkg_source_file pkg) (pkg_annotations pkg).

(** ** The packages as shared objects

    [convert] hands the resolver the flattened list, whose members are
    the very objects that sit in the trees.  The trees are the store; an
    object is named by its path: the index of a top-level package, then
    the indices down the [sub_packages] lists. *)
Definition path := list nat.

Definition with_sub_packages (subs : list EPackage) (p : EPackage) : EPackage :=
  mkEPackage (pkg_name p) (pkg_ns_uri p) (pkg_ns_prefix p) (pkg_classes p)
    (pkg_enums p) (pkg_data_types p) subs (pkg_source_file p) (pkg_annotations p).

(** The object at a path. *)
Fixpoint deref (p : path) (store : list EPackage) : option EPackage :=
  match p with
  | [] => None
  | [i] => store !! i
  | i :: q => pkg ← store !! i; deref q (pkg_sub_packages pkg)
  end.

(** Mutating the object at a path. *)
Fixpoint modify (f : EPackage -> EPackage) (p : path) (store : list EPackage)
  : list EPackage :=
  match p with
  | [] => store
  | [i] => alter f i store
  | i :: q =>
      alter (fun pkg => with_sub_packages (modify f q (pkg_sub_packages pkg)) pkg)
            i store
  end.

Definition number_paths (paths_of : EPackage -> list path)
  : nat -> list EPackage -> list path :=
  fix go (i : nat) (l : list EPackage) : list path :=
    match l with
    | [] => []
    | pkg :: l' => map (cons i) (paths_of pkg) ++ go (S i) l'
    end.

(** The paths below a package, itself first (the empty path). *)
Fixpoint package_paths (pkg : EPackage) : list path :=
  [] :: number_paths package_paths 0 (pkg_sub_packages pkg).

(** The members of [flatten_packages(all_packages)] as objects. *)
Definition flat_objects (store : list EPackage) : list path :=
  number_paths package_paths 0 store.

(** [resolver.resolve()] for the resolver built on the flattened list:
    [_resolve_package] runs on each member in turn. *)
Definition resolve (r : ReferenceResolver) (store : list EPackage) : list EPackage :=
  fold_left (fun st p => modify (_resolve_package r) p st) (flat_objects store) store.

(** The resolution step of [convert]. *)
Definition resolve_all (all_packages : list EPackage) : list EPackage :=
  resolve (_build_indices (flatten_packages all_packages)) all_packages.

(** [n] runs of the class loop on the classes of a package, and one more
    for each level below it. *)
Fixpoint resolve_deep (r : ReferenceResolver) (n : nat) (pkg : EPackage) {struct pkg}
  : EPackage :=
  mkEPackage (pkg_name pkg) (pkg_ns_uri pkg) (pkg_ns_prefix pkg)
    (map (Nat.iter n (resolve_class r (pkg_name pkg))) (pkg_classes pkg))
    (pkg_enums pkg) (pkg_data_types pkg)
    (map (resolve_deep r (S n)) (pkg_sub_packages pkg))
    (pkg_source_file pkg) (pkg_annotations pkg).

(** The classes of a package tree, each with the name of its package. *)
Fixpoint classes_of (pkg : EPackage) : list (string * EClass) :=
  map (pair (pkg_name pkg)) (pkg_classes pkg)
  ++ flat_map classes_of (pkg_sub_packages pkg).

(* ================================================================== *)
(** * AnnotationCollector *)
(* ================================================================== *)

Definition _EXTENSION_FIELD_START : Z := 50000.

Definition is_word_char (c : ascii) : bool :=
  Py.is_lower c || Py.is_upper c || Py.is_digit c || Py.is_char "_" c.

Definition is_lower_word_char (c : ascii) : bool :=
  Py.is_lower c || Py.is_digit c || Py.is_char "_" c.

Definition all_digits (s : string) : bool :=
  forallb Py.is_digit (list_ascii_of_string s).

(** [re.fullmatch(r'-?\d+', v)]; on ASCII text [\d] is a digit 0 to 9. *)
Definition is_int_text (v : string) : bool :=
  let body := match v with String "-" v' => v' | _ => v end in
  Py.truthy body && all_digits body.

(** [re.fullmatch(r'-?\d+\.?\d*', v)], with the same digits. *)
Definition is_float_text (v : string) : bool :=
  let body := match v with String "-" v' => v' | _ => v end in
  match Py.split1 "." body with
  | Some (whole, frac) => Py.truthy whole && all_digits whole && all_digits frac
  | None => Py.truthy body && all_digits body
  end.

Definition is_bool_text (v : string) : bool :=
  String.eqb (Py.lower v) "true" || String.eqb (Py.lower v) "false".

Definition _infer_proto_type (values : gset string) : string :=
  let vs := elements values in
  match vs with
  | [] => "string"
  | _ =>
      if forallb is_bool_text vs then "bool"
      else if forallb is_int_text vs then "int32"
      else if forallb is_float_text vs then "double"
      else "string"
  end.

Definition _shorten_source (source : string) : string :=
  if negb (Py.truthy source) then "unknown"
  else
    let cleaned := Py.rstrip_by (Py.is_char "/") source in
    let last := Py.after_last "/" cleaned in
    let last := Py.lower (Py.replace_unless is_word_char last) in
    let last := Py.strip_by (Py.is_char "_") (Py.collapse_underscores last) in
    if Py.truthy last then last else "unknown".

Record AnnotationOptionDef := mkOptionDef {
  opt_key : string;
  opt_field_name : string;
  opt_proto_type : string;
  opt_field_number : Z;
  opt_source_short : string;
  opt_source_full : string
}.

(** The key of the registry: [(source_short, key)]. *)
Definition lookup_key : Type := string * string.

(** The collector: [options] is the [OrderedDict] in insertion order. *)
Record AnnotationCollector := mkCollector {
  options : list (lookup_key * AnnotationOptionDef);
  _value_samples : gmap lookup_key (gset string);
  _next_field_number : Z
}.

Definition new_collector : AnnotationCollector :=
  mkCollector [] ∅ _EXTENSION_FIELD_START.

(** [lookup in self.options] *)
Definition registered (lookup : lookup_key) (c : AnnotationCollector) : bool :=
  bool_decide (lookup ∈ map fst (options c)).

(** The body of the loop of [_register_annotation] over the details. *)
Definition register_detail (source_full source_short : string)
    (c : AnnotationCollector) (kv : string * string) : AnnotationCollector :=
  let '(key, value) := kv in
  let lookup := (source_short, key) in
  let c :=
    if registered lookup c then c
    else mkCollector
           (options c ++ [(lookup, mkOptionDef key "" "string" (_next_field_number c)
                                     source_short source_full)])
           (<[lookup := ∅]> (_value_samples c))
           (_next_field_number c + 1) in
  mkCollector (options c)
    (<[lookup := default ∅ (_value_samples c !! lookup) ∪ {[value]}]> (_value_samples c))
    (_next_field_number c).

Definition _register_annotation (c : AnnotationCollector) (ann : EAnnotation)
  : AnnotationCollector :=
  fold_left (register_detail (ann_source ann) (_shorten_source (ann_source ann)))
            (ann_details ann) c.

Definition register_all (c : AnnotationCollector) (anns : list EAnnotation)
  : AnnotationCollector :=
  fold_left _register_annotation anns c.

Definition scan_class (c : AnnotationCollector) (cls : EClass) : AnnotationCollector :=
  let c := register_all c (cls_annotations cls) in
  let c := fold_left (fun c attr => register_all c (attr_annotations attr))
                     (cls_attributes cls) c in
  fold_left (fun c ref => register_all c (ref_annotations ref))
            (cls_references cls) c.

Fixpoint _scan_package (c : AnnotationCollector) (pkg : EPackage) {struct pkg}
  : AnnotationCollector :=
  let c := register_all c (pkg_annotations pkg) in
  let c := fold_left scan_class (pkg_classes pkg) c in
  let c := fold_left (fun c enum => register_all c (enum_annotations enum))
                     (pkg_enums pkg) c in
  fold_left _scan_package (pkg_sub_packages pkg) c.

(** [_to_option_field_name] *)
Definition _to_option_field_name (source_short key : string) : string :=
  let raw := if Py.truthy source_short then source_short +:+ "_" +:+ key else key in
  let s := Py.sub_lower_upper raw in
  let s := Py.sub_upper_run s in
  let s := Py.lower s in
  let s := Py.replace_unless is_lower_word_char s in
  Py.strip_by (Py.is_char "_") (Py.collapse_underscores s).

(** [key_to_sources] of [_finalize]. *)
Definition key_to_sources (c : AnnotationCollector) : gmap string (gset string) :=
  fold_left (fun m entry =>
               let '(source_short, key) := fst entry in
               <[key := default ∅ (m !! key) ∪ {[source_short]}]> m)
            (options c) ∅.

Definition finalize_option (c : AnnotationCollector)
    (k2s : gmap string (gset string))
    (entry : lookup_key * AnnotationOptionDef) : lookup_key * AnnotationOptionDef :=
  let '(lookup, opt) := entry in
  let '(source_short, key) := lookup in
  let proto_type := _infer_proto_type (default ∅ (_value_samples c !! lookup)) in
  let needs_prefix := bool_decide (1 < size (default ∅ (k2s !! key))) in
  (lookup,
   mkOptionDef (opt_key opt)
     (_to_option_field_name (if needs_prefix then source_short else "") key)
     proto_type (opt_field_number opt) (opt_source_short opt) (opt_source_full opt)).

Definition _finalize (c : AnnotationCollector) : AnnotationCollector :=
  mkCollector (map (finalize_option c (key_to_sources c)) (options c))
    (_value_samples c) (_next_field_number c).

(** The scan before [_finalize]. *)
Definition scan_only (packages : list EPackage) : AnnotationCollector :=
  fold_left _scan_package packages new_collector.

Definition scan_packages (packages : list EPackage) : AnnotationCollector :=
  _finalize (scan_only packages).

(** The [(source_short, key)] pairs in the order the walk of
    [_scan_package] meets them. *)
Definition annotation_keys (ann : EAnnotation) : list lookup_key :=
  map (fun kv => (_shorten_source (ann_source ann), fst kv)) (ann_details ann).

Definition class_keys (cls : EClass) : list lookup_key :=
  flat_map annotation_keys (cls_annotations cls)
  ++ flat_map (fun attr => flat_map annotation_keys (attr_annotations attr))
              (cls_attributes cls)
  ++ flat_map (fun ref => flat_map annotation_keys (ref_annotations ref))
              (cls_references cls).

Fixpoint package_keys (pkg : EPackage) : list lookup_key :=
  flat_map annotation_keys (pkg_annotations pkg)
  ++ flat_map class_keys (pkg_classes pkg)
  ++ flat_map (fun enum => flat_map annotation_keys (enum_annotations enum))
              (pkg_enums pkg)
  ++ flat_map package_keys (pkg_sub_packages pkg).

(** The first occurrences of a list, in order. *)
Fixpoint first_seen (seen : list lookup_key) (l : list lookup_key) : list lookup_key :=
  match l with
  | [] => []
  | x :: l' =>
      if bool_decide (x ∈ seen) then first_seen seen l'
      else x :: first_seen (seen ++ [x]) l'
  end.

(* ================================================================== *)
(** * ProtoGenerator *)
(* ================================================================== *)

Record ProtoGenerator := mkGenerator {
  resolver : ReferenceResolver;
  options_package : string;
  proto_package_prefix : string
}.

(** [_camel_to_upper_snake] *)
Definition _camel_to_upper_snake (name : string) : string :=
  if String.eqb name (Py.upper name)
  then Py.strip_by (Py.is_char "_")
         (Py.replace_unless
            (fun c => Py.is_upper c || Py.is_digit c || Py.is_char "_" c) name)
  else
    let s := Py.sub_lower_upper name in
    let s := Py.sub_upper_run s in
    let s := Py.replace_unless is_word_char s in
    Py.strip_by (Py.is_char "_") (Py.upper s).

(** [_to_enum_value_name] *)
Definition _to_enum_value_name (enum_name literal_name : string) : string :=
  let prefix_ := _camel_to_upper_snake enum_name in
  let value := _camel_to_upper_snake literal_name in
  if Py.starts_with prefix_ value then value
  else prefix_ +:+ "_" +:+ value.

(** [_to_proto_name] *)
Definition _to_proto_name (name : string) : string :=
  match name with
  | EmptyString => "Unknown"
  | String c rest => String (Py.to_upper c) rest
  end.

(** [_to_proto_package] *)
Definition _to_proto_package (g : ProtoGenerator) (name : string) : string :=
  let pkg := Py.smap (fun c => if Py.is_char "-" c || Py.is_char "." c
                               then "_"%char else c) (Py.lower name) in
  if Py.truthy (proto_package_prefix g)
  then proto_package_prefix g +:+ "." +:+ pkg
  else pkg.

(** The literals written by [_generate_enum], as (name, value) pairs in
    the order of the lines. *)
Definition enum_entries (enum : EEnum) : list (string * Z) :=
  let has_zero := existsb (fun lit => (lit_value lit =? 0)%Z) (enum_literals enum) in
  (if negb has_zero
   then [(_to_enum_value_name (enum_name enum) "UNSPECIFIED", 0%Z)]
   else [])
  ++ map (fun lit => (_to_enum_value_name (enum_name enum) (lit_name lit),
                      lit_value lit))
         (enum_literals enum).

Fixpoint indentation (indent : nat) : string :=
  match indent with O => "" | S n => "  " +:+ indentation n end.

Definition enum_line (prefix_ : string) (entry : string * Z) : string :=
  prefix_ +:+ "  " +:+ fst entry +:+ " = " +:+ Py.str_of_int (snd entry) +:+ ";".

(** [_generate_enum] *)
Definition _generate_enum (enum : EEnum) (indent : nat) : list string :=
  let prefix_ := indentation indent in
  [prefix_ +:+ "enum " +:+ _to_proto_name (enum_name enum) +:+ " {"]
  ++ map (enum_line prefix_) (enum_entries enum)
  ++ [prefix_ +:+ "}"].

(** [_resolve_attribute_type] *)
Definition _resolve_attribute_type (g : ProtoGenerator) (attr : EAttribute)
    (current_pkg : EPackage) : string :=
  let type_name := attr_e_type attr in
  match proto_type_of type_name with
  | Some t => t
  | None =>
      match
        List.find
          (fun dt => String.eqb (dt_name dt) type_name
                     && Py.truthy_opt (dt_instance_class_name dt)
                     && bool_decide (is_Some (proto_type_of
                                       (default "" (dt_instance_class_name dt)))))
          (pkg_data_types current_pkg)
      with
      | Some dt =>
          default "" (proto_type_of (default "" (dt_instance_class_name dt)))
      | None =>
          if existsb (fun enum => String.eqb (enum_name enum) type_name)
                     (pkg_enums current_pkg)
          then _to_proto_name type_name
          else
            let enum_pkg :=
              resolve_type (resolver g) type_name (attr_source_hint attr)
                (pkg_name current_pkg) (enum_index (resolver g)) in
            if Py.truthy_opt enum_pkg then
              if String.eqb (default "" enum_pkg) (pkg_name current_pkg)
              then _to_proto_name type_name
              else _to_proto_package g (default "" enum_pkg) +:+ "."
                   +:+ _to_proto_name type_name
            else
              match datatype_index (resolver g) !! type_name with
              | Some java_type =>
                  match proto_type_of java_type with
                  | Some t => t
                  | None => "string"
                  end
              | None => "string"
              end
      end
  end.

(** [_resolve_reference_type] *)
Definition _resolve_reference_type (g : ProtoGenerator) (ref : EReference)
    (current_pkg : EPackage) : string :=
  let type_name := ref_e_type ref in
  if existsb (fun cls => String.eqb (cls_name cls) type_name) (pkg_classes current_pkg)
  then _to_proto_name type_name
  else if Py.truthy_opt (ref_resolved_package ref)
          && negb (String.eqb (default "" (ref_resolved_package ref))
                              (pkg_name current_pkg))
  then _to_proto_package g (default "" (ref_resolved_package ref)) +:+ "."
       +:+ _to_proto_name type_name
  else _to_proto_name type_name.

(* ================================================================== *)
(** * Statements read from the specification, and worked inputs *)
(* ================================================================== *)

(** The order of the classification heuristic as the specification words
    it: literal-like children, then structural-feature-like children,
    then a native-instance-type attribute, then class. *)
Definition classify_in_spec_order (child : Element) : Kind :=
  if EcoreParser._has_literals child then KEnum
  else if EcoreParser._has_structural_features child then KClass
  else if EcoreParser._looks_like_datatype child then KDataType
  else KClass.

(** A classifier carries no usable discriminator when its [xsi:type]
    names none of the three kinds. *)
Definition undiscriminated (child : Element) : Prop :=
  let xsi_type := get_or child EcoreParser.XSI_TYPE "" in
  Py.contains "EClass" xsi_type = false
  /\ Py.contains "EEnum" xsi_type = false
  /\ Py.contains "EDataType" xsi_type = false.

(** What the classification looks at. *)
Record Shape := mkShape {
  shape_xsi_type : string;
  shape_literals : bool;
  shape_features : bool;
  shape_super_types : bool;
  shape_abstract : bool;
  shape_instance_class : bool;
  shape_instance_type : bool
}.

Definition shape_of (child : Element) : Shape :=
  mkShape (get_or child EcoreParser.XSI_TYPE "")
    (EcoreParser._has_literals child)
    (EcoreParser._has_structural_features child)
    (bool_decide (is_Some (get child "eSuperTypes")))
    (bool_decide (is_Some (get child "abstract")))
    (bool_decide (is_Some (get child "instanceClassName")))
    (bool_decide (is_Some (get child "instanceTypeName"))).

Definition leaf (t : string) (attrs : dict) : Element := mkElement t attrs [].

(** A classifier without [xsi:type] that has a literal and a feature. *)
Definition mixed_classifier : Element :=
  mkElement "eClassifiers" [("name", "Mixed")]
    [ leaf "eLiterals" [("name", "ON"); ("value", "1")];
      leaf "eStructuralFeatures" [("name", "level")] ].

(** A classifier whose [xsi:type] names none of the three kinds, with a
    feature and a native instance type. *)
Definition odd_classifier : Element :=
  mkElement "eClassifiers"
    [("name", "Odd"); (EcoreParser.XSI_TYPE, "ecore:EThing");
     ("instanceClassName", "java.lang.String")]
    [ leaf "eStructuralFeatures" [("name", "level")] ].

(** The reports for the units of a batch that are not well-formed XML,
    the packages of a unit that is parsed, and the exception, if any, with
    which a unit leaves [parse_file] past the handler of [convert]. *)
Definition reports (units : list input_unit) : list string :=
  flat_map (fun u => match snd u with
                     | Malformed message => [report (fst u) message]
                     | _ => []
                     end) units.

Definition unit_packages (u : input_unit) : list EPackage :=
  match snd u with
  | WellFormed root =>
      match EcoreParser.parse_root root (fst u) with
      | Ok packages => packages
      | Raise _ => []
      end
  | _ => []
  end.

Definition escapes (u : input_unit) : option exn :=
  match snd u with
  | Malformed _ => None
  | Unreadable e => Some e
  | WellFormed root =>
      match EcoreParser.parse_root root (fst u) with
      | Ok _ => None
      | Raise e => Some e
      end
  end.

Definition shapes_file : Element :=
  mkElement "{http://www.eclipse.org/emf/2002/Ecore}EPackage"
    [("name", "shapes")]
    [ mkElement "eClassifiers"
        [(EcoreParser.XSI_TYPE, "ecore:EClass"); ("name", "Shape")]
        [ leaf "eStructuralFeatures"
            [(EcoreParser.XSI_TYPE, "ecore:EAttribute"); ("name", "label")] ] ].

Definition sample_batch : list input_unit :=
  [ ("broken.ecore", Malformed "no element found: line 1, column 0");
    ("shapes.ecore", WellFormed shapes_file) ].

(** A feature without [eType]: trusted as a reference, and left to the
    guess. *)
Definition untyped_reference : Element :=
  leaf "eStructuralFeatures"
    [(EcoreParser.XSI_TYPE, "ecore:EReference"); ("name", "owner")].

Definition untyped_feature : Element :=
  leaf "eStructuralFeatures" [("name", "label"); ("eType", "")].

Definition plain_generator : ProtoGenerator := mkGenerator empty_resolver "ui" "".

Definition empty_package (name : string) : EPackage :=
  mkEPackage name "" "" [] [] [] [] "" [].

(** An enum whose two literals both have the value 0, as when neither
    carries a [value] attribute. *)
Definition two_zero_enum : EEnum :=
  mkEEnum "Color" [mkEEnumLiteral "RED" 0; mkEEnumLiteral "GREEN" 0] "paint" [].

Definition status_enum : EEnum :=
  mkEEnum "Status" [mkEEnumLiteral "Active" 1; mkEEnumLiteral "Closed" 2] "" [].

Definition is_zero_entry (entry : string * Z) : bool := (snd entry =? 0)%Z.

Definition is_zero_literal (lit : EEnumLiteral) : bool := (lit_value lit =? 0)%Z.

Definition literal_entry (enum : EEnum) (lit : EEnumLiteral) : string * Z :=
  (_to_enum_value_name (enum_name enum) (lit_name lit), lit_value lit).

(** Mutating the object at a path below a package, the empty path being
    the package itself. *)
Fixpoint modify_tree (f : EPackage -> EPackage) (q : path) (pkg : EPackage)
  : EPackage :=
  match q with
  | [] => f pkg
  | i :: q' =>
      with_sub_packages (alter (modify_tree f q') i (pkg_sub_packages pkg)) pkg
  end.

(** [n] runs of [_resolve_package] on a package. *)
Fixpoint resolve_times (r : ReferenceResolver) (n : nat) (pkg : EPackage) {struct pkg}
  : EPackage :=
  mkEPackage (pkg_name pkg) (pkg_ns_uri pkg) (pkg_ns_prefix pkg)
    (map (Nat.iter n (resolve_class r (pkg_name pkg))) (pkg_classes pkg))
    (pkg_enums pkg) (pkg_data_types pkg)
    (map (resolve_times r n) (pkg_sub_packages pkg))
    (pkg_source_file pkg) (pkg_annotations pkg).

(** The disambiguation among several candidates as the specification
    words it: the rules are tried in order (the hint mapped through the
    file-stem index, the hint itself, the current package, the first
    candidate) and the first one that yields a member of the candidate
    set wins. *)
Definition member_of (candidates : list string) (o : option string) : option string :=
  match o with
  | Some p => if bool_decide (p ∈ candidates) then Some p else None
  | None => None
  end.

Definition disambiguate_in_spec_order (r : ReferenceResolver)
    (source_hint : option string) (current_pkg_name : string)
    (candidates : list string) : option string :=
  head (omap (member_of candidates)
          [ source_hint ≫= (fun hint => file_stem_to_package r !! hint);
            source_hint;
            Some current_pkg_name;
            head candidates ]).

Definition plain_class (name : string) (super_types : list string)
    (references : list EReference) : EClass :=
  mkEClass name false false super_types [] references "" [] [].

Definition plain_reference (name e_type : string) (source_hint : option string)
  : EReference :=
  mkEReference name e_type false 0 1 None None source_hint [].

Definition plain_package (name source_file : string) (classes : list EClass)
    (enums : list EEnum) (subs : list EPackage) : EPackage :=
  mkEPackage name "" "" classes enums [] subs source_file [].

(** The scenario of the specification: [A] and [B] both define [Shape],
    and a reference in [A] points at [Shape] with the hint [B]. *)
Definition package_A : EPackage :=
  plain_package "A" "a.ecore"
    [ plain_class "Shape" [] [];
      plain_class "Drawing" [] [plain_reference "shape" "Shape" (Some "B")] ]
    [] [].

Definition package_B : EPackage :=
  plain_package "B" "b.ecore" [plain_class "Shape" [] []] [] [].

(** A package without a name, read from [h.ecore], next to a package [X];
    both define [Shape]. *)
Definition package_X : EPackage :=
  plain_package "X" "x.ecore" [plain_class "Shape" [] []] [] [].

Definition nameless_package : EPackage :=
  plain_package "" "h.ecore" [plain_class "Shape" [] []] [] [].

(** A class [T] in the nameless package, an enum [T] in [E], and a
    reference to [T] from [cur]. *)
Definition nameless_T : EPackage :=
  plain_package "" "n.ecore" [plain_class "T" [] []] [] [].

Definition package_E : EPackage :=
  plain_package "E" "e.ecore" [] [mkEEnum "T" [] "E" []] [].

Definition package_cur : EPackage :=
  plain_package "cur" "cur.ecore"
    [plain_class "C" [] [plain_reference "t" "T" None]] [] [].

(** A package with one class that has one super type. *)
Definition package_P : EPackage :=
  plain_package "P" "p.ecore"
    [plain_class "Base" [] []; plain_class "C" ["#//Base"] []] [] [].

(** The same class in a sub-package. *)
Definition package_inner : EPackage :=
  plain_package "inner" "outer.ecore" [plain_class "C" ["#//Base"] []] [] [].

Definition package_outer : EPackage :=
  plain_package "outer" "outer.ecore" [plain_class "Base" [] []] [] [package_inner].

(** The [resolved_supers] of the classes of a store, by package and class
    name. *)
Definition supers_of (store : list EPackage)
  : list (string * string * list (string * string)) :=
  map (fun pc => (fst pc, cls_name (snd pc), cls_resolved_supers (snd pc)))
      (flat_map classes_of store).

(** The [resolved_package] of the references of a store. *)
Definition targets_of (store : list EPackage)
  : list (string * string * list (option string)) :=
  map (fun pc => (fst pc, cls_name (snd pc),
                  map ref_resolved_package (cls_references (snd pc))))
      (flat_map classes_of store).

(** What the class loop stores in a reference of a class of package
    [pkg], by cases on the two look-ups. *)
Definition reference_resolved_as (r : ReferenceResolver) (pkg : string)
    (ref : EReference) : Prop :=
  let by_class :=
    resolve_type r (ref_e_type ref) (ref_source_hint ref) pkg (class_index r) in
  let by_enum :=
    resolve_type r (ref_e_type ref) (ref_source_hint ref) pkg (enum_index r) in
  ref_resolved_package ref <> None
  /\ (forall p, by_class = Some p -> p <> "" -> ref_resolved_package ref = Some p)
  /\ (by_class = None \/ by_class = Some "" ->
      forall q, by_enum = Some q -> q <> "" -> ref_resolved_package ref = Some q)
  /\ (by_class = None \/ by_class = Some "" ->
      by_enum = None \/ by_enum = Some "" ->
      ref_resolved_package ref = Some pkg).

(** The same order with "failure" read as the specification does: the
    look-up finds no package. *)
Definition target_in_spec_order (r : ReferenceResolver) (pkg : string)
    (ref : EReference) : string :=
  match resolve_type r (ref_e_type ref) (ref_source_hint ref) pkg (class_index r) with
  | Some p => p
  | None =>
      match resolve_type r (ref_e_type ref) (ref_source_hint ref) pkg (enum_index r) with
      | Some q => q
      | None => pkg
      end
  end.

(** A shortened source is tidy: not empty, made of lower-case letters,
    digits and underscores, with no underscore first, last or doubled. *)
Definition first_is_underscore (s : string) : bool :=
  match s with String c _ => Py.is_char "_" c | EmptyString => false end.

Fixpoint no_double_underscore (s : string) : bool :=
  match s with
  | EmptyString => true
  | String c s' =>
      is_lower_word_char c
      && negb (Py.is_char "_" c && first_is_underscore s')
      && no_double_underscore s'
  end.

Fixpoint tidy_tail (s : string) : bool :=
  match s with
  | EmptyString => true
  | String c s' =>
      is_lower_word_char c
      && (negb (Py.is_char "_" c)
          || match s' with
             | String d _ => negb (Py.is_char "_" d)
             | EmptyString => false
             end)
      && tidy_tail s'
  end.

Definition tidy (s : string) : bool :=
  Py.truthy s && negb (first_is_underscore s) && tidy_tail s.

Fixpoint all_chars (p : ascii -> bool) (s : string) : bool :=
  match s with
  | EmptyString => true
  | String c s' => p c && all_chars p s'
  end.

(** The keys of the registry, in registration order. *)
Definition registry_keys (c : AnnotationCollector) : list lookup_key :=
  map fst (options c).

(** What holds of the collector all along the scan: the next number is
    the base plus the number of options; the option registered in place
    [i] has the number base plus [i], and records the key and the
    non-empty shortened source it is registered under. *)
Definition collector_ok (c : AnnotationCollector) : Prop :=
  _next_field_number c = (_EXTENSION_FIELD_START + Z.of_nat (length (options c)))%Z
  /\ forall (i : nat) (lookup : lookup_key) (opt : AnnotationOptionDef),
       options c !! i = Some (lookup, opt) ->
       opt_field_number opt = (_EXTENSION_FIELD_START + Z.of_nat i)%Z
       /\ opt_key opt = snd lookup
       /\ opt_source_short opt = fst lookup
       /\ tidy (fst lookup) = true.

(** The field numbers of the registry, by key, in registration order. *)
Definition field_numbers (c : AnnotationCollector) : list (lookup_key * Z) :=
  map (fun entry => (fst entry, opt_field_number (snd entry))) (options c).


(** A package whose annotations use the key [label] under two sources and
    the key [order] under one; the sub-package repeats one of them. *)
Definition annotated_package : EPackage :=
  mkEPackage "forms" "" ""
    [ mkEClass "Field" false false []
        [ mkEAttribute "title" "EString" 0 1 None None
            [ mkEAnnotation "http://example.com/ui" [("label", "Title"); ("order", "1")];
              mkEAnnotation "http://www.eclipse.org/emf/2002/GenModel"
                [("label", "true")] ] ]
        [] "forms" [] [] ]
    [] []
    [ mkEPackage "extra" "" "" [] [] [] [] "forms.ecore"
        [mkEAnnotation "http://example.com/ui/" [("order", "2"); ("displayName", "x")]] ]
    "forms.ecore" [].

(** The scenario with the packages in the other order and [A] read from a
    file named [B.ecore]. *)
Definition package_A_in_file_B : EPackage :=
  plain_package "A" "B.ecore"
    [ plain_class "Shape" [] [];
      plain_class "Drawing" [] [plain_reference "shape" "Shape" (Some "B")] ]
    [] [].

(** A well-formed unit whose attribute has a bound that is not an
    integer. *)
Definition bad_bound_file : Element :=
  mkElement "{http://www.eclipse.org/emf/2002/Ecore}EPackage"
    [("name", "shapes")]
    [ mkElement "eClassifiers"
        [(EcoreParser.XSI_TYPE, "ecore:EClass"); ("name", "Shape")]
        [ leaf "eStructuralFeatures"
            [(EcoreParser.XSI_TYPE, "ecore:EAttribute"); ("name", "label");
             ("upperBound", "many")] ] ].

(* ================================================================== *)
(** * Further notions used in the statements *)
(* ================================================================== *)

(** The candidates that an index holds for a name: [index.get(name, [])]. *)
Definition candidates (index : gmap string (list string)) (name : string)
  : list string :=
  default [] (index !! name).

(** A package defines a class, or an enum, of a given name. *)
Definition defines_class (pkg : EPackage) (name : string) : Prop :=
  name ∈ map cls_name (pkg_classes pkg).

Definition defines_enum (pkg : EPackage) (name : string) : Prop :=
  name ∈ map enum_name (pkg_enums pkg).

(** A package tree with the two fields that the resolution writes put back
    to what the parser leaves in them. *)
Definition erase_reference (ref : EReference) : EReference :=
  mkEReference (ref_name ref) (ref_e_type ref) (ref_containment ref)
    (ref_lower_bound ref) (ref_upper_bound ref) (ref_opposite ref) None
    (ref_source_hint ref) (ref_annotations ref).

Definition erase_class (cls : EClass) : EClass :=
  mkEClass (cls_name cls) (cls_abstract cls) (cls_interface cls)
    (cls_super_types cls) (cls_attributes cls)
    (map erase_reference (cls_references cls)) (cls_package_name cls) []
    (cls_annotations cls).

Fixpoint erase_package (pkg : EPackage) : EPackage :=
  mkEPackage (pkg_name pkg) (pkg_ns_uri pkg) (pkg_ns_prefix pkg)
    (map erase_class (pkg_classes pkg)) (pkg_enums pkg) (pkg_data_types pkg)
    (map erase_package (pkg_sub_packages pkg))
    (pkg_source_file pkg) (pkg_annotations pkg).

(** A class as the parser leaves it: nothing resolved yet. *)
Definition unresolved_class (cls : EClass) : Prop :=
  cls_resolved_supers cls = []
  /\ Forall (fun ref => ref_resolved_package ref = None) (cls_references cls).

(** What one package, without its sub-packages, adds to the two indices. *)
Definition index_own (r : ReferenceResolver) (pkg : EPackage) : ReferenceResolver :=
  let r := if Py.truthy (pkg_source_file pkg)
           then set_stem (Py.path_stem (pkg_source_file pkg)) (pkg_name pkg) r
           else r in
  let r := set_stem (pkg_name pkg) (pkg_name pkg) r in
  let r := fold_left (index_class (pkg_name pkg)) (pkg_classes pkg) r in
  let r := fold_left (index_enum (pkg_name pkg)) (pkg_enums pkg) r in
  fold_left index_data_type (pkg_data_types pkg) r.

(** Induction on an XML tree, with the hypothesis for every child. *)
Fixpoint Element_tree_ind (P : Element -> Prop)
    (step : forall e, Forall P (children e) -> P e)
    (e : Element) {struct e} : P e :=
  step e
    ((fix kids (l : list Element) : Forall P l :=
        match l with
        | [] => @List.Forall_nil _ P
        | c :: l' => @List.Forall_cons _ P c l' (Element_tree_ind P step c) (kids l')
        end) (children e)).

(** The package that [_parse_package] starts from, and its loop over the
    children with the parser of sub-packages as a parameter. *)
Definition initial_package (elem : Element) (filepath : string) : EPackage :=
  mkEPackage (get_or elem "name" "") (get_or elem "nsURI" "")
    (get_or elem "nsPrefix" "") [] [] [] [] filepath
    (EcoreParser._parse_annotations elem).

Definition package_loop (parse_sub : Element -> result EPackage)
  : list Element -> EPackage -> result EPackage :=
  fix loop (cs : list Element) (pkg : EPackage) {struct cs} : result EPackage :=
    match cs with
    | [] => Ok pkg
    | child :: cs' =>
        let t := EcoreParser._strip_ns (tag child) in
        if EcoreParser.is_classifier_tag t then
          match EcoreParser.classify child with
          | KClass =>
              cls ← EcoreParser._parse_class child (pkg_name pkg);
              loop cs' (add_class cls pkg)
          | KEnum =>
              enum ← EcoreParser._parse_enum child (pkg_name pkg);
              loop cs' (add_enum enum pkg)
          | KDataType =>
              loop cs' (add_data_type (EcoreParser._parse_datatype child) pkg)
          end
        else if EcoreParser.is_subpackage_tag t then
          sub ← parse_sub child;
          loop cs' (add_sub_package sub pkg)
        else loop cs' pkg
    end.

(** The children of an element whose tag, without its namespace, passes a
    test. *)
Definition children_tagged (test : string -> bool) (elem : Element) : list Element :=
  List.filter (fun child => test (EcoreParser._strip_ns (tag child))) (children elem).

(** What holds of a package as the parser builds it: it records the file
    it comes from, its classes and enums record its name, and nothing is
    resolved in its classes. *)
Definition package_as_parsed (filepath : string) (pkg : EPackage) : Prop :=
  pkg_source_file pkg = filepath
  /\ Forall (fun cls => cls_package_name cls = pkg_name pkg /\ unresolved_class cls)
            (pkg_classes pkg)
  /\ Forall (fun enum => enum_package_name enum = pkg_name pkg) (pkg_enums pkg).

(** [_to_field_name] *)
Definition _to_field_name (name : string) : string :=
  let s :=
    if String.eqb name (Py.upper name) || Py.contains "_" name
    then Py.lower name
    else Py.lower (Py.sub_upper_run (Py.sub_lower_upper name)) in
  let s := Py.replace_unless is_lower_word_char s in
  let s := Py.strip_by (Py.is_char "_") (Py.collapse_underscores s) in
  let s :=
    match s with
    | String c _ => if Py.is_digit c then "field_" +:+ s else s
    | EmptyString => s
    end in
  if Py.truthy s then s else "unknown".

(** [_package_to_filename] *)
Definition _package_to_filename (name : string) : string :=
  let s :=
    if String.eqb name (Py.upper name) || Py.contains "_" name
    then Py.lower name
    else Py.lower (Py.sub_upper_run (Py.sub_lower_upper name)) in
  let s := Py.replace_unless is_lower_word_char s in
  let s := Py.strip_by (Py.is_char "_") (Py.collapse_underscores s) in
  s +:+ ".proto".

(** The characters of an upper-snake name. *)
Definition is_upper_word_char (c : ascii) : bool :=
  Py.is_upper c || Py.is_digit c || Py.is_char "_" c.

Definition first_is_lower (s : string) : bool :=
  match s with String c _ => Py.is_lower c | EmptyString => false end.

Fixpoint last_is_underscore (s : string) : bool :=
  match s with
  | EmptyString => false
  | String c EmptyString => Py.is_char "_" c
  | String _ s' => last_is_underscore s'
  end.

(** [has_annotations] and [get_option_for] *)
Definition has_annotations (c : AnnotationCollector) : bool :=
  match options c with [] => false | _ => true end.

Definition get_option_for (c : AnnotationCollector) (ann : EAnnotation)
    (key : string) : option AnnotationOptionDef :=
  snd <$> List.find
            (fun entry => bool_decide (fst entry = (_shorten_source (ann_source ann), key)))
            (options c).

(** The annotations that the walk of [_scan_package] meets, in order. *)
Definition class_annotations (cls : EClass) : list EAnnotation :=
  cls_annotations cls
  ++ flat_map attr_annotations (cls_attributes cls)
  ++ flat_map ref_annotations (cls_references cls).

Fixpoint package_annotations (pkg : EPackage) : list EAnnotation :=
  pkg_annotations pkg
  ++ flat_map class_annotations (pkg_classes pkg)
  ++ flat_map enum_annotations (pkg_enums pkg)
  ++ flat_map package_annotations (pkg_sub_packages pkg).


(** A detail that the collector has met: its pair is registered and its
    value is among the samples of the pair. *)
Definition seen_detail (c : AnnotationCollector) (lookup : lookup_key)
    (value : string) : Prop :=
  registered lookup c = true
  /\ value ∈ default ∅ (_value_samples c !! lookup).

Definition seen_annotation (c : AnnotationCollector) (ann : EAnnotation) : Prop :=
  forall key value : string,
    (key, value) ∈ ann_details ann ->
    seen_detail c (_shorten_source (ann_source ann), key) value.


(** [s.replace(old, new)] for a pattern of one character. *)
Fixpoint replace_char (old : ascii) (new : string) (s : string) : string :=
  match s with
  | EmptyString => EmptyString
  | String c rest =>
      if Ascii.eqb c old then new +:+ replace_char old new rest
      else String c (replace_char old new rest)
  end.

Definition quote_char : ascii := "034"%char.
Definition backslash : ascii := "\"%char.

(** [_format_option_value] *)
Definition _format_option_value (value proto_type : string) : string :=
  if String.eqb proto_type "bool" then Py.lower value
  else if String.eqb proto_type "int32" || String.eqb proto_type "int64" then value
  else if String.eqb proto_type "float" || String.eqb proto_type "double" then value
  else
    let escaped :=
      replace_char quote_char (String backslash (String quote_char ""))
        (replace_char backslash (String backslash (String backslash "")) value) in
    String quote_char (escaped +:+ String quote_char "").

(** Reading the body of a quoted literal back: a backslash makes the next
    character literal. *)
Fixpoint unescape (body : string) : string :=
  match body with
  | EmptyString => EmptyString
  | String c rest =>
      if Ascii.eqb c backslash
      then match rest with
           | EmptyString => EmptyString
           | String d rest' => String d (unescape rest')
           end
      else String c (unescape rest)
  end.

(** No quote of the body closes the literal: each one follows a backslash
    that escapes it, and no backslash is left dangling. *)
Fixpoint quotes_escaped (body : string) : bool :=
  match body with
  | EmptyString => true
  | String c rest =>
      if Ascii.eqb c backslash
      then match rest with
           | EmptyString => false
           | String _ rest' => quotes_escaped rest'
           end
      else negb (Ascii.eqb c quote_char) && quotes_escaped rest
  end.


(** ["\n".join(lines)] *)
Definition newline : string := String "010"%char "".

Definition join_lines (lines : list string) : string := String.concat newline lines.

Definition quoted (s : string) : string :=
  String quote_char (s +:+ String quote_char "").

(** [by_source.setdefault(source_short, []).append(opt)] *)
Fixpoint setdefault_append (source_short : string) (opt : AnnotationOptionDef)
    (by_source : list (string * list AnnotationOptionDef))
  : list (string * list AnnotationOptionDef) :=
  match by_source with
  | [] => [(source_short, [opt])]
  | (s, opts) :: rest =>
      if String.eqb s source_short then (s, opts ++ [opt]) :: rest
      else (s, opts) :: setdefault_append source_short opt rest
  end.

(** The grouping loop of [generate_ui_options_proto]. *)
Definition by_source (c : AnnotationCollector)
  : list (string * list AnnotationOptionDef) :=
  fold_left (fun acc entry => setdefault_append (fst (fst entry)) (snd entry) acc)
            (options c) [].

Definition option_line (opt : AnnotationOptionDef) : string :=
  "  optional " +:+ opt_proto_type opt +:+ " " +:+ opt_field_name opt
  +:+ " = " +:+ Py.str_of_int (opt_field_number opt) +:+ ";".

(** The lines of one group; [opts[0]] raises on an empty group. *)
Definition group_lines (first_group : bool)
    (group : string * list AnnotationOptionDef) : result (list string) :=
  match snd group with
  | [] => Raise IndexError
  | opt0 :: _ =>
      Ok ((if first_group then [] else [""])
          ++ ["  // Source: " +:+ opt_source_full opt0]
          ++ map option_line (snd group))
  end.

Fixpoint groups_lines (first_group : bool)
    (groups : list (string * list AnnotationOptionDef)) : result (list string) :=
  match groups with
  | [] => Ok []
  | group :: rest =>
      lines ← group_lines first_group group;
      more ← groups_lines false rest;
      Ok (lines ++ more)
  end.

(** [generate_ui_options_proto] *)
Definition generate_ui_options_proto (c : AnnotationCollector)
    (options_package proto_package_prefix : string) : result string :=
  let pkg_name :=
    if Py.truthy proto_package_prefix
    then proto_package_prefix +:+ "." +:+ options_package
    else options_package in
  body ← groups_lines true (by_source c);
  Ok (join_lines
        (["syntax = " +:+ quoted "proto3" +:+ ";"; "";
          "package " +:+ pkg_name +:+ ";"; "";
          "import " +:+ quoted "google/protobuf/descriptor.proto" +:+ ";"; "";
          "extend google.protobuf.FieldOptions {"]
         ++ body ++ ["}"; ""])).

(** The options registered under one shortened source, in registration
    order. *)
Definition options_of_source (c : AnnotationCollector) (source_short : string)
  : list AnnotationOptionDef :=
  map snd (List.filter (fun entry => String.eqb (fst (fst entry)) source_short)
                       (options c)).

(** The group of a source in a grouping; empty when there is none. *)
Fixpoint group_of (groups : list (string * list AnnotationOptionDef))
    (source_short : string) : list AnnotationOptionDef :=
  match groups with
  | [] => []
  | (s, opts) :: rest =>
      if String.eqb s source_short then opts else group_of rest source_short
  end.


(* ------------------------------------------------------------------ *)
(** ** The text of the files *)

Definition WELL_KNOWN_TYPE_IMPORTS : dict :=
  [ ("google.protobuf.Timestamp", "google/protobuf/timestamp.proto");
    ("google.protobuf.Any", "google/protobuf/any.proto");
    ("google.protobuf.Struct", "google/protobuf/struct.proto");
    ("google.protobuf.ListValue", "google/protobuf/struct.proto") ].

(** The attributes of [ProtoGenerator] that only the text of the files
    reads; [annotations] is [None] when no collector is given. *)
Record ProtoGeneratorFields := mkGeneratorFields {
  generator_packages : list EPackage;  (* [self.all_packages] *)
  annotations : option AnnotationCollector;
  java_package_prefix : string;
  go_package_prefix : string
}.

Definition options_filename (g : ProtoGenerator) : string :=
  options_package g +:+ "_options.proto".

(** [self.annotations and self.annotations.has_annotations()] *)
Definition uses_options (h : ProtoGeneratorFields) : bool :=
  match annotations h with
  | Some c => has_annotations c
  | None => false
  end.

(** [_collect_field_options] *)
Definition field_option (g : ProtoGenerator) (c : AnnotationCollector)
    (ann : EAnnotation) (kv : string * string) : list string :=
  match get_option_for c ann (fst kv) with
  | Some opt_def =>
      ["(" +:+ options_package g +:+ "." +:+ opt_field_name opt_def +:+ ") = "
       +:+ _format_option_value (snd kv) (opt_proto_type opt_def)]
  | None => []
  end.

Definition _collect_field_options (g : ProtoGenerator) (h : ProtoGeneratorFields)
    (anns : list EAnnotation) : list string :=
  match anns, annotations h with
  | [], _ => []
  | _, None => []
  | _, Some c =>
      flat_map (fun ann => flat_map (field_option g c ann) (ann_details ann)) anns
  end.

(** The lines of the block of [_format_field_line]: a comma after every
    option but the last. *)
Fixpoint option_block (option_parts : list string) : list string :=
  match option_parts with
  | [] => []
  | [opt] => ["    " +:+ opt]
  | opt :: rest => ("    " +:+ opt +:+ ",") :: option_block rest
  end.

(** [_format_field_line] *)
Definition _format_field_line (type_str field_name : string) (field_number : Z)
    (option_parts : list string) (comment : string) : list string :=
  let head := "  " +:+ type_str +:+ " " +:+ field_name +:+ " = "
              +:+ Py.str_of_int field_number in
  match option_parts with
  | [] => [head +:+ ";" +:+ comment]
  | [opt] => [head +:+ " [" +:+ opt +:+ "];" +:+ comment]
  | _ => [head +:+ " ["] ++ option_block option_parts ++ ["  ];" +:+ comment]
  end.

(** The three loops of [_generate_message]; the state is the lines written
    so far and [field_number]. *)
Definition super_field (g : ProtoGenerator) (current_pkg : EPackage)
    (state : list string * Z) (sup : string * string) : list string * Z :=
  let '(lines, field_number) := state in
  let '(super_pkg, super_name) := sup in
  let proto_super_name :=
    if negb (String.eqb super_pkg (pkg_name current_pkg))
    then _to_proto_package g super_pkg +:+ "." +:+ _to_proto_name super_name
    else _to_proto_name super_name in
  (lines ++ ["  // Inherited from " +:+ super_name;
             "  " +:+ proto_super_name +:+ " " +:+ _to_field_name super_name
             +:+ " = " +:+ Py.str_of_int field_number +:+ ";"],
   (field_number + 1)%Z).

Definition attribute_field (g : ProtoGenerator) (h : ProtoGeneratorFields)
    (current_pkg : EPackage) (state : list string * Z) (attr : EAttribute)
  : list string * Z :=
  let '(lines, field_number) := state in
  let proto_type := _resolve_attribute_type g attr current_pkg in
  let repeated := if (attr_upper_bound attr =? -1)%Z then "repeated " else "" in
  let comment :=
    match attr_default_value attr with
    | Some d => "  // default: " +:+ d
    | None => ""
    end in
  (lines ++ _format_field_line (repeated +:+ proto_type)
                               (_to_field_name (attr_name attr)) field_number
                               (_collect_field_options g h (attr_annotations attr))
                               comment,
   (field_number + 1)%Z).

Definition reference_field (g : ProtoGenerator) (h : ProtoGeneratorFields)
    (current_pkg : EPackage) (state : list string * Z) (ref : EReference)
  : list string * Z :=
  let '(lines, field_number) := state in
  let proto_type := _resolve_reference_type g ref current_pkg in
  let repeated := if (ref_upper_bound ref =? -1)%Z then "repeated " else "" in
  let comment_parts :=
    (if ref_containment ref then ["containment"] else [])
    ++ (if Py.truthy_opt (ref_opposite ref)
        then ["opposite: " +:+ default "" (ref_opposite ref)] else []) in
  let comment :=
    match comment_parts with
    | [] => ""
    | _ => "  // " +:+ String.concat ", " comment_parts
    end in
  (lines ++ _format_field_line (repeated +:+ proto_type)
                               (_to_field_name (ref_name ref)) field_number
                               (_collect_field_options g h (ref_annotations ref))
                               comment,
   (field_number + 1)%Z).

(** [_generate_message] *)
Definition _generate_message (g : ProtoGenerator) (h : ProtoGeneratorFields)
    (cls : EClass) (current_pkg : EPackage) : list string :=
  let lines :=
    (if cls_abstract cls then ["// Abstract base: " +:+ cls_name cls] else [])
    ++ (if cls_interface cls then ["// Interface: " +:+ cls_name cls] else [])
    ++ flat_map (fun ann =>
                   map (fun kv => "// @" +:+ _shorten_source (ann_source ann) +:+ "."
                                  +:+ fst kv +:+ ": " +:+ snd kv)
                       (ann_details ann))
                (cls_annotations cls)
    ++ ["message " +:+ _to_proto_name (cls_name cls) +:+ " {"] in
  let state := fold_left (super_field g current_pkg) (cls_resolved_supers cls)
                         (lines, 1%Z) in
  let state := fold_left (attribute_field g h current_pkg) (cls_attributes cls) state in
  let state := fold_left (reference_field g h current_pkg) (cls_references cls) state in
  fst state ++ ["}"].

(** [_collect_imports] *)
Definition attribute_imports (g : ProtoGenerator) (h : ProtoGeneratorFields)
    (current_pkg : EPackage) (attr : EAttribute) : gset string :=
  match dict_get (_resolve_attribute_type g attr current_pkg) WELL_KNOWN_TYPE_IMPORTS with
  | Some file => {[ file ]}
  | None => ∅
  end
  ∪ (match attr_annotations attr with
     | [] => ∅
     | _ => if uses_options h then {[ options_filename g ]} else ∅
     end).

Definition reference_imports (g : ProtoGenerator) (h : ProtoGeneratorFields)
    (current_pkg : EPackage) (ref : EReference) : gset string :=
  (if Py.truthy_opt (ref_resolved_package ref)
      && negb (String.eqb (default "" (ref_resolved_package ref))
                          (pkg_name current_pkg))
   then {[ _package_to_filename (default "" (ref_resolved_package ref)) ]}
   else ∅)
  ∪ (match ref_annotations ref with
     | [] => ∅
     | _ => if uses_options h then {[ options_filename g ]} else ∅
     end).

Definition super_imports (current_pkg : EPackage) (sup : string * string)
  : gset string :=
  if negb (String.eqb (fst sup) (pkg_name current_pkg))
  then {[ _package_to_filename (fst sup) ]}
  else ∅.

Definition _collect_imports (g : ProtoGenerator) (h : ProtoGeneratorFields)
    (cls : EClass) (current_pkg : EPackage) : gset string :=
  ⋃ (map (attribute_imports g h current_pkg) (cls_attributes cls))
  ∪ ⋃ (map (reference_imports g h current_pkg) (cls_references cls))
  ∪ ⋃ (map (super_imports current_pkg) (cls_resolved_supers cls)).

(** [sorted] on strings. *)
Fixpoint insert_sorted (s : string) (l : list string) : list string :=
  match l with
  | [] => [s]
  | x :: l' => if String.leb s x then s :: l else x :: insert_sorted s l'
  end.

Definition sorted (l : list string) : list string :=
  fold_right insert_sorted [] l.

(** [while lines and lines[-1] == '': lines.pop()] *)
Fixpoint drop_blank (lines : list string) : list string :=
  match lines with
  | "" :: rest => drop_blank rest
  | _ => lines
  end.

Definition pop_blank_lines (lines : list string) : list string :=
  rev (drop_blank (rev lines)).

(** The lines of [_generate_proto_file] before the trailing blank ones are
    removed. *)
Definition proto_file_lines (g : ProtoGenerator) (h : ProtoGeneratorFields)
    (pkg : EPackage) : list string :=
  let imports_needed :=
    ⋃ (map (fun cls => _collect_imports g h cls pkg) (pkg_classes pkg)) in
  let sorted_imports := sorted (elements imports_needed) in
  ["syntax = " +:+ quoted "proto3" +:+ ";"; "";
   "package " +:+ _to_proto_package g (pkg_name pkg) +:+ ";"; ""]
  ++ (if Py.truthy (java_package_prefix h)
      then ["option java_package = "
            +:+ quoted (java_package_prefix h +:+ "." +:+ pkg_name pkg) +:+ ";"]
      else [])
  ++ (if Py.truthy (go_package_prefix h)
      then ["option go_package = "
            +:+ quoted (go_package_prefix h +:+ "/" +:+ Py.lower (pkg_name pkg))
            +:+ ";"]
      else [])
  ++ (if Py.truthy (java_package_prefix h) || Py.truthy (go_package_prefix h)
      then [""] else [])
  ++ (match sorted_imports with
      | [] => []
      | _ => map (fun imp => "import " +:+ quoted imp +:+ ";") sorted_imports ++ [""]
      end)
  ++ flat_map (fun enum => _generate_enum enum 0 ++ [""]) (pkg_enums pkg)
  ++ flat_map (fun cls => _generate_message g h cls pkg ++ [""]) (pkg_classes pkg).

(** [_generate_proto_file] *)
Definition _generate_proto_file (g : ProtoGenerator) (h : ProtoGeneratorFields)
    (pkg : EPackage) : string :=
  join_lines (pop_blank_lines (proto_file_lines g h pkg) ++ [""]).

(** [result.update(files)] *)
Definition dict_update (result files : dict) : dict :=
  fold_left (fun d kv => dict_set (fst kv) (snd kv) d) files result.

(** [_generate_package] *)
Fixpoint _generate_package (g : ProtoGenerator) (h : ProtoGeneratorFields)
    (pkg : EPackage) {struct pkg} : dict :=
  fold_left (fun result sub => dict_update result (_generate_package g h sub))
            (pkg_sub_packages pkg)
            [(_package_to_filename (pkg_name pkg), _generate_proto_file g h pkg)].

(** [generate_all] *)
Definition generate_all (g : ProtoGenerator) (h : ProtoGeneratorFields)
  : result dict :=
  first ←
    match annotations h with
    | Some c =>
        if has_annotations c
        then text ← generate_ui_options_proto c (options_package g)
                      (proto_package_prefix g);
             Ok [(options_filename g, text)]
        else Ok []
    | None => Ok []
    end;
  Ok (fold_left (fun result pkg => dict_update result (_generate_package g h pkg))
                (generator_packages h) first).


(** The details of a list of annotations, each with its annotation, in the
    order [_collect_field_options] visits them. *)
Definition detail_list (anns : list EAnnotation)
  : list (EAnnotation * (string * string)) :=
  flat_map (fun ann => map (pair ann) (ann_details ann)) anns.


(** A part of [_collect_field_options] written for a detail: the option is
    the one that the collector holds for the detail. *)
Definition renders_detail (g : ProtoGenerator) (c : AnnotationCollector)
    (detail : EAnnotation * (string * string)) (part : string) : Prop :=
  exists opt : AnnotationOptionDef,
    get_option_for c (fst detail) (fst (snd detail)) = Some opt
    /\ part = "(" +:+ options_package g +:+ "." +:+ opt_field_name opt +:+ ") = "
              +:+ _format_option_value (snd (snd detail)) (opt_proto_type opt).


(** The import line of a file, as [_generate_proto_file] writes it. *)
Definition import_line (file : string) : string :=
  "import " +:+ quoted file +:+ ";".

(** The lines of the file that [_generate_proto_file] joins, the closing
    empty one put aside. *)
Definition file_lines (g : ProtoGenerator) (h : ProtoGeneratorFields)
    (pkg : EPackage) : list string :=
  pop_blank_lines (proto_file_lines g h pkg).


(** A file written for a package of the list: its name and its text come
    from one package, at any depth. *)
Definition file_of_a_package (g : ProtoGenerator) (h : ProtoGeneratorFields)
    (packages : list EPackage) (name text : string) : Prop :=
  exists source : EPackage,
    source ∈ flatten_packages packages
    /\ name = _package_to_filename (pkg_name source)
    /\ text = _generate_proto_file g h source.

(** A class that names its types in the package [B], and a collector for
    its annotation. *)
Definition importing_class : EClass :=
  mkEClass "Drawing" false false ["Base"]
    [ mkEAttribute "title" "EString" 0 1 None None
        [mkEAnnotation "http://example.com/ui" [("label", "Title")]] ]
    [ mkEReference "shape" "Circle" false 0 1 None (Some "B") None [] ]
    "A" [("B", "Base")] [].

Definition importing_package : EPackage :=
  mkEPackage "A" "" "" [importing_class] [] [] [] "A.ecore" [].

Definition importing_fields : ProtoGeneratorFields :=
  mkGeneratorFields [importing_package]
    (Some (scan_packages [importing_package])) "" "".







(** The members of a message, in the order of the three loops of
    [_generate_message], and the lines that the loops write for a member
    when [field_number] has a given value. *)
Inductive member :=
| SuperMember (sup : string * string)
| AttributeMember (attr : EAttribute)
| ReferenceMember (ref : EReference).

Definition members (cls : EClass) : list member :=
  map SuperMember (cls_resolved_supers cls)
  ++ map AttributeMember (cls_attributes cls)
  ++ map ReferenceMember (cls_references cls).

Definition member_lines (g : ProtoGenerator) (h : ProtoGeneratorFields)
    (current_pkg : EPackage) (field_number : Z) (m : member) : list string :=
  match m with
  | SuperMember sup => fst (super_field g current_pkg ([], field_number) sup)
  | AttributeMember attr => fst (attribute_field g h current_pkg ([], field_number) attr)
  | ReferenceMember ref => fst (reference_field g h current_pkg ([], field_number) ref)
  end.

Definition member_field_name (m : member) : string :=
  match m with
  | SuperMember sup => _to_field_name (snd sup)
  | AttributeMember attr => _to_field_name (attr_name attr)
  | ReferenceMember ref => _to_field_name (ref_name ref)
  end.

(** A line that declares a field of a given name and number: after the
    indentation, a type, the name, the equals sign and the decimal numeral
    of the number, which ends there: what follows begins with the
    semicolon or with the bracket of the options. *)
Definition declares (line field_name : string) (field_number : Z) : Prop :=
  exists type_str tail : string,
    line = "  " +:+ type_str +:+ " " +:+ field_name +:+ " = "
           +:+ Py.str_of_int field_number +:+ tail
    /\ (Py.starts_with ";" tail = true \/ Py.starts_with " [" tail = true).


(** Text of ASCII characters, and the ASCII characters that Python counts
    as white space: TAB, LF, VT, FF, CR, FS, GS, RS, US and the blank. *)
Definition ascii_text (s : string) : bool :=
  all_chars (fun c => (Py.code c <? 128)%nat) s.

Definition ascii_blank (c : ascii) : bool :=
  bool_decide (Py.code c ∈ [9; 10; 11; 12; 13; 28; 29; 30; 31; 32]%nat).


(** The shape of an integer, [-?\d+], and of a decimal number,
    [-?\d+\.?\d*], spelled out: an optional minus sign, digits 0 to 9,
    and for the decimal number an optional point and further digits.
    Nothing bounds the number of digits. *)
Definition integer_text (v : string) : Prop :=
  exists sign digits : string,
    v = sign +:+ digits
    /\ (sign = "" \/ sign = "-")
    /\ digits <> ""
    /\ all_chars Py.is_digit digits = true.

Definition decimal_text (v : string) : Prop :=
  exists sign whole point frac : string,
    v = sign +:+ whole +:+ point +:+ frac
    /\ (sign = "" \/ sign = "-")
    /\ whole <> ""
    /\ all_chars Py.is_digit whole = true
    /\ (point = "" \/ point = ".")
    /\ all_chars Py.is_digit frac = true.

(** Every value of every detail in the packages is ASCII text. *)
Definition ascii_details (packages : list EPackage) : Prop :=
  Forall (fun ann => Forall (fun kv => ascii_text (snd kv) = true) (ann_details ann))
         (flat_map package_annotations packages).


(** The lines of a member: comment lines, then the line that declares the
    field, then the lines of its option block. *)
Definition field_block (block : list string) (field_name : string)
    (field_number : Z) : Prop :=
  exists (lead : list string) (declaration : string) (rest : list string),
    block = lead ++ declaration :: rest
    /\ declares declaration field_name field_number
    /\ Forall (fun line => Py.starts_with "  //" line = true) lead
    /\ Forall (fun line => Py.starts_with "    " line = true
                           \/ Py.starts_with "  ]" line = true) rest.

(** A package [a] whose class has an attribute typed by the enum [Kind]
    of the package [b]. *)
Definition kinds_package : EPackage :=
  mkEPackage "b" "" "" []
    [mkEEnum "Kind" [mkEEnumLiteral "LOW" 0] "b" []] [] [] "b.ecore" [].

Definition kind_attribute : EAttribute :=
  mkEAttribute "kind" "Kind" 0 1 None None [].

Definition things_package : EPackage :=
  mkEPackage "a" "" ""
    [mkEClass "Thing" false false [] [kind_attribute] [] "a" [] []]
    [] [] [] "a.ecore" [].

Definition things_generator : ProtoGenerator :=
  mkGenerator (_build_indices [things_package; kinds_package]) "ui" "".

Definition things_fields : ProtoGeneratorFields :=
  mkGeneratorFields [things_package; kinds_package]
    (Some (scan_packages [things_package; kinds_package])) "" "".


(** The [eClassifiers] children that the parser takes for a given kind,
    in document order. *)
Definition same_kind (a b : Kind) : bool :=
  match a, b with
  | KClass, KClass | KEnum, KEnum | KDataType, KDataType => true
  | _, _ => false
  end.

Definition classifiers_of_kind (kind : Kind) (cs : list Element) : list Element :=
  List.filter (fun child =>
                 EcoreParser.is_classifier_tag (EcoreParser._strip_ns (tag child))
                 && same_kind (EcoreParser.classify child) kind) cs.

Definition subpackages_of (cs : list Element) : list Element :=
  List.filter (fun child =>
                 EcoreParser.is_subpackage_tag (EcoreParser._strip_ns (tag child))) cs.


(* ------------------------------------------------------------------ *)
(** ** Field-name conversion, read from the specification

    "camelCase/PascalCase boundaries get underscores inserted
    (lowercase/digit to uppercase transition, and uppercase-run to
    uppercase+lowercase transition), full lowercase, illegal characters
    replaced with underscore, repeats collapsed."  The text is read in one
    pass, character by character, with the character before and the
    character after at hand. *)











(* ================================================================== *)
(** * Python string operations: checks *)
(* ================================================================== *)

Example py_rsplit : Py.rsplit1 "#//" "a.ecore#//p/C" = Some ("a.ecore", "p/C").
Proof. reflexivity. Qed.
Example py_split_ws : Py.split_ws "  a  b c " = ["a"; "b"; "c"].
Proof. reflexivity. Qed.
Example py_int_neg : Py.int " -1_0 " = Some (-10)%Z.
Proof. reflexivity. Qed.
Example py_int_bad : Py.int "many" = None.
Proof. reflexivity. Qed.
Example py_stem : Py.path_stem "../models/assetcommon.ecore" = "assetcommon".
Proof. reflexivity. Qed.
Example py_upper_run : Py.sub_upper_run (Py.sub_lower_upper "myXMLParser2Go") = "my_XML_Parser2_Go".
Proof. reflexivity. Qed.

(** The examples of the docstrings of the source. *)
Example extract_type_info_same_file :
  EcoreParser._extract_type_info "#//MyClass" = Ok ("MyClass", None).
Proof. reflexivity. Qed.

Example extract_type_info_other_file :
  EcoreParser._extract_type_info "assetcommon.ecore#//Logging"
  = Ok ("Logging", Some "assetcommon").
Proof. reflexivity. Qed.

Example extract_type_info_builtin :
  EcoreParser._extract_type_info
    "ecore:EDataType http://www.eclipse.org/emf/2002/Ecore#//EString"
  = Ok ("EString", None).
Proof. reflexivity. Qed.

Example extract_type_info_subpackage :
  EcoreParser._extract_type_info "#//packageName/ClassName" = Ok ("ClassName", None).
Proof. reflexivity. Qed.

Example extract_type_info_blank :
  EcoreParser._extract_type_info "  " = Raise IndexError.
Proof. reflexivity. Qed.

Example extract_type_info_from_uri_examples :
  _extract_type_info_from_uri "#//NamedElement" = ("NamedElement", None)
  /\ _extract_type_info_from_uri "assetcommon.ecore#//Logging"
     = ("Logging", Some "assetcommon")
  /\ _extract_type_info_from_uri "base.ecore#//NamedElement"
     = ("NamedElement", Some "base").
Proof. repeat split; reflexivity. Qed.

Example shorten_source_examples :
  _shorten_source "http://www.eclipse.org/emf/2002/GenModel" = "genmodel"
  /\ _shorten_source "http://example.com/ui" = "ui"
  /\ _shorten_source "http://example.com/constraints/validation" = "validation"
  /\ _shorten_source "myCustomSource" = "mycustomsource".
Proof. repeat split; reflexivity. Qed.

Example to_option_field_name_examples :
  _to_option_field_name "" "displayName" = "display_name"
  /\ _to_option_field_name "" "documentation" = "documentation"
  /\ _to_option_field_name "genmodel" "documentation" = "genmodel_documentation".
Proof. repeat split; reflexivity. Qed.

Example status_enum_rendered :
  _generate_enum status_enum 0
  = [ "enum Status {"; "  STATUS_UNSPECIFIED = 0;"; "  STATUS_ACTIVE = 1;";
      "  STATUS_CLOSED = 2;"; "}" ].
Proof. reflexivity. Qed.

(* ================================================================== *)
(** * Classification of classifiers *)
(* ================================================================== *)

Lemma classify_by_shape (child : Element) :
  EcoreParser.classify child =
    let s := shape_of child in
    let looks_like_class :=
      shape_features s || shape_super_types s || shape_abstract s in
    let looks_like_datatype := shape_instance_class s || shape_instance_type s in
    if Py.contains "EClass" (shape_xsi_type s)
       || (String.eqb (shape_xsi_type s) "" && looks_like_class)
    then KClass
    else if Py.contains "EEnum" (shape_xsi_type s) || shape_literals s then KEnum
    else if Py.contains "EDataType" (shape_xsi_type s) || looks_like_datatype
    then KDataType
    else KClass.
Proof.
  unfold EcoreParser.classify, EcoreParser._looks_like_class,
    EcoreParser._looks_like_enum, EcoreParser._looks_like_datatype, shape_of.
  cbn [shape_xsi_type shape_literals shape_features shape_super_types
       shape_abstract shape_instance_class shape_instance_type].
  destruct (Py.contains "EClass" _ || _); [reflexivity|].
  destruct (Py.contains "EEnum" _) eqn:Hen; cbn [orb]; [reflexivity|].
  destruct (EcoreParser._has_literals child) eqn:Hlit; [reflexivity|].
  destruct (Py.contains "EDataType" _) eqn:Hdt; cbn [orb]; [reflexivity|].
  destruct (bool_decide (is_Some (get child "instanceClassName"))) eqn:Hc;
    cbn [orb]; [reflexivity|].
  destruct (bool_decide (is_Some (get child "instanceTypeName"))) eqn:Ht;
    [reflexivity|].
  apply bool_decide_eq_false in Hc, Ht.
  destruct (get child "instanceClassName"); [exfalso; eauto|].
  destruct (get child "instanceTypeName"); [exfalso; eauto|].
  cbn. destruct (EcoreParser._has_structural_features child); reflexivity.
Qed.

(** C2, as the specification states it, fails: a classifier without
    [xsi:type] that has both a literal child and a structural-feature
    child is parsed as a class, where the stated order makes it an
    enum. *)
Lemma classify_not_in_spec_order :
  undiscriminated mixed_classifier
  /\ EcoreParser._has_literals mixed_classifier = true
  /\ EcoreParser.classify mixed_classifier = KClass
  /\ classify_in_spec_order mixed_classifier = KEnum.
Proof. repeat split; reflexivity. Qed.

(** C2 (amended).  For a classifier whose [xsi:type] names none of the
    three kinds the parser decides in this order.  When [xsi:type] is
    absent or empty: structural-feature-like children, or an
    [eSuperTypes] or [abstract] attribute, make it a class; else
    literal-like children make it an enum; else a native-instance-type
    attribute makes it a data type; else it is a class.  When [xsi:type]
    is present: literal-like children make it an enum; else a
    native-instance-type attribute makes it a data type; else it is a
    class.  Two classifiers of the same shape are classified alike. *)
Theorem classify_undiscriminated (child : Element) :
  undiscriminated child ->
  EcoreParser.classify child =
    (if String.eqb (get_or child EcoreParser.XSI_TYPE "") ""
        && EcoreParser._looks_like_class child
     then KClass
     else if EcoreParser._has_literals child then KEnum
     else if EcoreParser._looks_like_datatype child then KDataType
     else KClass)
  /\ (forall other : Element,
        shape_of other = shape_of child ->
        EcoreParser.classify other = EcoreParser.classify child).
Proof.
  intros (Hc & He & Hd). split.
  - rewrite classify_by_shape.
    unfold EcoreParser._looks_like_class, EcoreParser._looks_like_datatype, shape_of.
    cbn [shape_xsi_type shape_literals shape_features shape_super_types
         shape_abstract shape_instance_class shape_instance_type].
    cbv zeta. rewrite Hc, He, Hd. cbn [orb]. reflexivity.
  - intros other Hshape. rewrite !classify_by_shape, Hshape. reflexivity.
Qed.

Lemma classify_undiscriminated_witness :
  EcoreParser.classify odd_classifier = KDataType.
Proof.
  destruct (classify_undiscriminated odd_classifier) as [Horder _].
  - repeat split; reflexivity.
  - rewrite Horder. reflexivity.
Defined.

(* ================================================================== *)
(** * The parsing loop *)
(* ================================================================== *)

Lemma parse_units_result (units : list input_unit) :
  Forall (fun u => escapes u = None) units ->
  forall (pkgs : list EPackage) (err : list string),
    parse_units units (mkParseState pkgs err)
    = Ok (mkParseState (pkgs ++ flat_map unit_packages units) (err ++ reports units)).
Proof.
  induction 1 as [|[filepath src] rest Hu _ IH]; intros pkgs err.
  - cbn [parse_units flat_map reports]. rewrite !app_nil_r. reflexivity.
  - change (reports ((filepath, src) :: rest))
      with (match src with
            | Malformed message => [report filepath message]
            | _ => []
            end ++ reports rest).
    cbn [parse_units flat_map]. unfold parse_file, unit_packages, escapes in *.
    cbn [fst snd] in *.
    destruct src as [message|e|root]; [| discriminate |].
    + cbn [all_packages stderr]. rewrite IH.
      cbn [app]. rewrite <- app_assoc. reflexivity.
    + destruct (EcoreParser.parse_root root filepath) as [packages|e];
        [|discriminate].
      cbn [all_packages stderr]. rewrite IH.
      cbn [app]. rewrite <- app_assoc. reflexivity.
Qed.

Lemma parse_units_escape (before : list input_unit) (u : input_unit)
    (after : list input_unit) (e : exn) :
  Forall (fun u => escapes u = None) before ->
  escapes u = Some e ->
  forall st : parse_state, parse_units (before ++ u :: after) st = Raise e.
Proof.
  induction 1 as [|[filepath src] rest Hu _ IH]; intros He st.
  - destruct u as [filepath src]. cbn [app parse_units].
    unfold parse_file, escapes in *. cbn [fst snd] in *.
    destruct src as [message|e'|root]; [discriminate | congruence |].
    destruct (EcoreParser.parse_root root filepath); [discriminate | congruence].
  - cbn [app parse_units]. unfold parse_file, escapes in Hu |- *. cbn [fst snd] in *.
    destruct src as [message|e'|root]; [apply IH, He | discriminate |].
    destruct (EcoreParser.parse_root root filepath); [apply IH, He | discriminate].
Qed.

(** C3, as stated, fails: the handler of the loop catches
    [ET.ParseError] only.  In a batch with a unit that is not well-formed
    XML, one further unit whose bound is not an integer ends the run with
    [ValueError]: nothing is returned, neither the report nor the package
    of the unit parsed before it. *)
Lemma one_bad_unit_ends_the_run :
  parseSources [("broken.ecore", Malformed "no element found: line 1, column 0");
                ("shapes.ecore", WellFormed shapes_file);
                ("bad.ecore", WellFormed bad_bound_file)]
  = Raise ValueError
  /\ exists shapes : EPackage,
       parseSources [("broken.ecore", Malformed "no element found: line 1, column 0");
                     ("shapes.ecore", WellFormed shapes_file)]
       = Ok (mkParseState [shapes]
               ["Error parsing broken.ecore: no element found: line 1, column 0"]).
Proof. split; [reflexivity|]. eexists. reflexivity. Qed.

(** C3 (amended).  A unit is malformed when the XML reader rejects it
    with [ET.ParseError].  In a batch where no unit leaves [parse_file]
    with another exception, the loop does not stop: it returns the
    packages of the units that are parsed, in the order of the units, and
    nothing for a malformed unit; and the error stream holds one report
    for each malformed unit, with its path and the message of the reader,
    in order. *)
Theorem parseSources_reports_and_skips_malformed (units : list input_unit) :
  Forall (fun u => escapes u = None) units ->
  parseSources units
  = Ok (mkParseState (flat_map unit_packages units) (reports units))
  /\ Forall (fun u => is_malformed u = true -> unit_packages u = []) units
  /\ length (reports units) = length (List.filter is_malformed units).
Proof.
  intros Hunits. split; [|split].
  - unfold parseSources. rewrite (parse_units_result units Hunits). reflexivity.
  - apply Forall_forall. intros [filepath src] _. unfold is_malformed, unit_packages.
    cbn [snd]. destruct src; [reflexivity | discriminate | discriminate].
  - clear Hunits. unfold reports, is_malformed.
    induction units as [|[filepath src] rest IH]; [reflexivity|].
    cbn [flat_map List.filter snd]. destruct src; cbn [app length]; rewrite IH;
      reflexivity.
Qed.

Lemma parseSources_reports_and_skips_malformed_witness :
  parseSources sample_batch
  = Ok (mkParseState (flat_map unit_packages sample_batch) (reports sample_batch))
  /\ Forall (fun u => is_malformed u = true -> unit_packages u = []) sample_batch
  /\ length (reports sample_batch) = length (List.filter is_malformed sample_batch).
Proof.
  apply (parseSources_reports_and_skips_malformed sample_batch).
  repeat constructor.
Defined.

Example parseSources_sample :
  exists shapes : EPackage,
    parseSources sample_batch =
      Ok (mkParseState [shapes]
            ["Error parsing broken.ecore: no element found: line 1, column 0"])
    /\ pkg_name shapes = "shapes"
    /\ map cls_name (pkg_classes shapes) = ["Shape"].
Proof. eexists. split; [reflexivity|]. split; reflexivity. Qed.

(** Only [ET.ParseError] is caught: a well-formed unit whose bound is not
    an integer raises [ValueError] out of the loop. *)
Example non_integer_bound_is_not_caught :
  parseSources [("shapes.ecore", WellFormed shapes_file);
                ("bad.ecore", WellFormed bad_bound_file)]
  = Raise ValueError.
Proof. reflexivity. Qed.

(* ================================================================== *)
(** * Features without a type token *)
(* ================================================================== *)

Lemma extract_type_info_empty :
  EcoreParser._extract_type_info "" = Ok ("EString", None).
Proof. reflexivity. Qed.

(** A built-in type name is rendered from the table, whatever the
    package and the indices. *)
Lemma resolve_attribute_type_builtin (g : ProtoGenerator) (attr : EAttribute)
    (current_pkg : EPackage) (t : string) :
  proto_type_of (attr_e_type attr) = Some t ->
  _resolve_attribute_type g attr current_pkg = t.
Proof. intros H. unfold _resolve_attribute_type. rewrite H. reflexivity. Qed.

(** C10, as stated, fails: a feature without [eType] whose [xsi:type]
    names [EReference] gets the type name [EString] but is stored as a
    reference, and its type is rendered as the message name [EString],
    not as the scalar [string]. *)
Lemma untyped_reference_is_not_an_attribute :
  get untyped_reference "eType" = None
  /\ exists ref : EReference,
       EcoreParser.parse_feature untyped_reference = Ok (FReference ref)
       /\ ref_e_type ref = "EString"
       /\ ref_source_hint ref = None
       /\ _resolve_reference_type plain_generator ref (empty_package "shapes")
          = "EString".
Proof. split; [reflexivity|]. eexists. repeat split. Qed.

(** C10 (amended).  For a structural feature whose [eType] is absent or
    empty the extracted type name is [EString] with no source hint; unless
    its [xsi:type] names [EReference], the feature is parsed as an
    attribute, it is one whenever its bounds are integers, and that
    attribute is rendered with the scalar type [string]. *)
Theorem untyped_feature_is_string_attribute (child : Element) :
  get_or child "eType" "" = "" ->
  Py.contains "EReference" (get_or child EcoreParser.XSI_TYPE "") = false ->
  EcoreParser._extract_type_info (get_or child "eType" "") = Ok ("EString", None)
  /\ EcoreParser.parse_feature child = FAttribute <$> EcoreParser._parse_attribute child
  /\ (forall attr : EAttribute,
        EcoreParser._parse_attribute child = Ok attr ->
        attr_e_type attr = "EString"
        /\ attr_source_hint attr = None
        /\ forall (g : ProtoGenerator) (current_pkg : EPackage),
             _resolve_attribute_type g attr current_pkg = "string")
  /\ (is_Some (Py.int (get_or child "lowerBound" "0")) ->
      is_Some (Py.int (get_or child "upperBound" "1")) ->
      exists attr : EAttribute, EcoreParser._parse_attribute child = Ok attr).
Proof.
  intros Hty Hxsi. repeat split.
  - rewrite Hty. reflexivity.
  - unfold EcoreParser.parse_feature. cbv zeta. rewrite Hxsi, Hty.
    destruct (Py.contains "EAttribute" _); reflexivity.
  - unfold EcoreParser._parse_attribute in H. cbv zeta in H. rewrite Hty in H.
    cbn in H.
    destruct (Py.int (get_or child "lowerBound" "0")); cbn in H; [|discriminate].
    destruct (Py.int (get_or child "upperBound" "1")); cbn in H; [|discriminate].
    injection H as <-. reflexivity.
  - unfold EcoreParser._parse_attribute in H. cbv zeta in H. rewrite Hty in H.
    cbn in H.
    destruct (Py.int (get_or child "lowerBound" "0")); cbn in H; [|discriminate].
    destruct (Py.int (get_or child "upperBound" "1")); cbn in H; [|discriminate].
    injection H as <-. reflexivity.
  - intros g current_pkg. apply resolve_attribute_type_builtin.
    unfold EcoreParser._parse_attribute in H. cbv zeta in H. rewrite Hty in H.
    cbn in H.
    destruct (Py.int (get_or child "lowerBound" "0")); cbn in H; [|discriminate].
    destruct (Py.int (get_or child "upperBound" "1")); cbn in H; [|discriminate].
    injection H as <-. reflexivity.
  - intros [lo Hlo] [hi Hhi]. unfold EcoreParser._parse_attribute. cbv zeta.
    rewrite Hty, Hlo, Hhi. cbn. eexists. reflexivity.
Qed.

Lemma untyped_feature_is_string_attribute_witness :
  exists attr : EAttribute,
    EcoreParser.parse_feature untyped_feature = Ok (FAttribute attr)
    /\ _resolve_attribute_type plain_generator attr (empty_package "shapes") = "string".
Proof.
  destruct (untyped_feature_is_string_attribute untyped_feature)
    as (_ & Hparse & Hattr & Hexists); [reflexivity | reflexivity |].
  destruct Hexists as [attr Hok]; [eexists; reflexivity | eexists; reflexivity |].
  exists attr. split.
  - rewrite Hparse, Hok. reflexivity.
  - apply (Hattr attr Hok).
Defined.

(* ================================================================== *)
(** * The zero literal of an enum *)
(* ================================================================== *)

Lemma existsb_zero_filter (lits : list EEnumLiteral) :
  existsb (fun lit => (lit_value lit =? 0)%Z) lits = false
  <-> List.filter is_zero_literal lits = [].
Proof.
  induction lits as [|lit lits IH]; cbn; [tauto|].
  unfold is_zero_literal at 1.
  destruct (lit_value lit =? 0)%Z; cbn; [split; discriminate | exact IH].
Qed.

Lemma zero_entries_of_literals (enum : EEnum) (lits : list EEnumLiteral) :
  length (List.filter is_zero_entry (map (literal_entry enum) lits))
  = length (List.filter is_zero_literal lits).
Proof.
  induction lits as [|lit lits IH]; cbn; [reflexivity|].
  unfold is_zero_entry at 1, is_zero_literal at 1. cbn.
  destruct (lit_value lit =? 0)%Z; cbn; rewrite IH; reflexivity.
Qed.

Lemma unspecified_is_upper_snake :
  _camel_to_upper_snake "UNSPECIFIED" = "UNSPECIFIED".
Proof. reflexivity. Qed.

(** C5, as stated, fails: an enum with two literals of value 0 is
    rendered with two literals of value 0. *)
Lemma two_zero_literals_rendered :
  length (List.filter is_zero_entry (enum_entries two_zero_enum)) = 2
  /\ _generate_enum two_zero_enum 0
     = ["enum Color {"; "  COLOR_RED = 0;"; "  COLOR_GREEN = 0;"; "}"].
Proof. split; reflexivity. Qed.

(** C5 (amended).  The lines of a rendered enum are its header, one line
    per entry and the closing brace.  When no source literal has the value
    0 the entries are a synthesized literal of value 0 followed by the
    source literals, and otherwise the source literals alone; the rendered
    enum has at least one literal of value 0, and exactly one when the
    source has at most one.  The synthesized literal is named by the
    enum-value naming rule: the upper-snake enum name, an underscore and
    [UNSPECIFIED], or [UNSPECIFIED] alone when that already starts with
    the upper-snake enum name. *)
Theorem enum_zero_literal (enum : EEnum) :
  let zeros := List.filter is_zero_literal (enum_literals enum) in
  let synthesized := (_to_enum_value_name (enum_name enum) "UNSPECIFIED", 0%Z) in
  (forall indent : nat,
     _generate_enum enum indent
     = [indentation indent +:+ "enum " +:+ _to_proto_name (enum_name enum) +:+ " {"]
       ++ map (enum_line (indentation indent)) (enum_entries enum)
       ++ [indentation indent +:+ "}"])
  /\ (zeros = [] ->
      enum_entries enum = synthesized :: map (literal_entry enum) (enum_literals enum))
  /\ (zeros <> [] ->
      enum_entries enum = map (literal_entry enum) (enum_literals enum))
  /\ length (List.filter is_zero_entry (enum_entries enum)) = Nat.max 1 (length zeros)
  /\ (length zeros <= 1 ->
      length (List.filter is_zero_entry (enum_entries enum)) = 1)
  /\ fst synthesized
     = (if Py.starts_with (_camel_to_upper_snake (enum_name enum)) "UNSPECIFIED"
        then "UNSPECIFIED"
        else _camel_to_upper_snake (enum_name enum) +:+ "_UNSPECIFIED").
Proof.
  cbv zeta.
  assert (Hcount :
    length (List.filter is_zero_entry (enum_entries enum))
    = Nat.max 1 (length (List.filter is_zero_literal (enum_literals enum)))).
  { unfold enum_entries.
    destruct (existsb _ (enum_literals enum)) eqn:Hz; cbn [negb app].
    - fold (literal_entry enum). rewrite zero_entries_of_literals.
      destruct (List.filter is_zero_literal (enum_literals enum)) eqn:Hf.
      + apply existsb_zero_filter in Hf. congruence.
      + cbn. lia.
    - fold (literal_entry enum). cbn. rewrite zero_entries_of_literals.
      apply existsb_zero_filter in Hz. rewrite Hz. reflexivity. }
  split; [reflexivity|]. split; [|split; [|split; [|split]]].
  - intros Hf. apply existsb_zero_filter in Hf.
    unfold enum_entries. rewrite Hf. reflexivity.
  - intros Hf. unfold enum_entries.
    destruct (existsb _ (enum_literals enum)) eqn:Hz; [reflexivity|].
    apply existsb_zero_filter in Hz. contradiction.
  - exact Hcount.
  - intros Hle. rewrite Hcount. lia.
  - unfold _to_enum_value_name. rewrite unspecified_is_upper_snake. reflexivity.
Qed.

Lemma enum_zero_literal_witness :
  enum_entries status_enum
  = [("STATUS_UNSPECIFIED", 0%Z); ("STATUS_ACTIVE", 1%Z); ("STATUS_CLOSED", 2%Z)]
  /\ length (List.filter is_zero_entry (enum_entries status_enum)) = 1.
Proof.
  destruct (enum_zero_literal status_enum) as (_ & Hsyn & _ & _ & Hone & _).
  split.
  - rewrite Hsyn; reflexivity.
  - apply Hone. cbn. lia.
Defined.

(* ================================================================== *)
(** * Disambiguation among several candidates *)
(* ================================================================== *)

Lemma truthy_iff (s : string) : Py.truthy s = true <-> s <> "".
Proof. destruct s; cbn; split; congruence. Qed.

Lemma truthy_false_iff (s : string) : Py.truthy s = false <-> s = "".
Proof. destruct s; cbn; split; congruence. Qed.

(** C4, as stated, fails.  [X] and the nameless package read from
    [h.ecore] both define [Shape]; a reference in [X] with the hint [h]
    is mapped by the file-stem index to the nameless package, which is a
    candidate, and yet the current package [X] is returned. *)
Lemma resolve_type_skips_nameless_candidate :
  let r := _build_indices (flatten_packages [package_X; nameless_package]) in
  class_index r !! "Shape" = Some ["X"; ""]
  /\ file_stem_to_package r !! "h" = Some ""
  /\ disambiguate_in_spec_order r (Some "h") "X" ["X"; ""] = Some ""
  /\ resolve_type r "Shape" (Some "h") "X" (class_index r) = Some "X".
Proof. cbv zeta. repeat split; vm_compute; reflexivity. Qed.

(** C4 (amended).  With two or more candidates [resolve_type] returns the
    first of these that applies: the package that the file-stem index
    gives for a non-empty source hint, when that package has a non-empty
    name and is a candidate; the non-empty source hint itself, when it is
    a candidate; the current package, when it is a candidate; the
    first-seen candidate.  In particular, when [B] is a candidate and the
    file-stem index maps [B] to itself, a reference with the hint [B]
    resolves to [B], whatever the current package and even when that is a
    candidate too: such is the scenario of [A] and [B] both defining
    [Shape]. *)
Theorem resolve_type_disambiguation (r : ReferenceResolver) (type_name : string)
    (source_hint : option string) (current_pkg_name : string)
    (index : gmap string (list string)) (first second : string)
    (rest : list string) :
  index !! type_name = Some (first :: second :: rest) ->
  let candidates := first :: second :: rest in
  let hint := default "" source_hint in
  let hinted_pkg := default "" (file_stem_to_package r !! hint) in
  resolve_type r type_name source_hint current_pkg_name index
  = Some (if bool_decide (hint <> "" /\ hinted_pkg <> "" /\ hinted_pkg ∈ candidates)
          then hinted_pkg
          else if bool_decide (hint <> "" /\ hint ∈ candidates) then hint
          else if bool_decide (current_pkg_name ∈ candidates) then current_pkg_name
          else first)
  /\ (source_hint = Some "B" -> "B" ∈ candidates ->
      file_stem_to_package r !! "B" = Some "B" ->
      resolve_type r type_name source_hint current_pkg_name index = Some "B").
Proof.
  intros Hidx candidates hint hinted_pkg.
  assert (Heq :
    resolve_type r type_name source_hint current_pkg_name index
    = Some (if bool_decide (hint <> "" /\ hinted_pkg <> "" /\ hinted_pkg ∈ candidates)
            then hinted_pkg
            else if bool_decide (hint <> "" /\ hint ∈ candidates) then hint
            else if bool_decide (current_pkg_name ∈ candidates) then current_pkg_name
            else first)).
  { unfold resolve_type. rewrite Hidx. subst hint hinted_pkg.
    change (default [] (Some (first :: second :: rest))) with candidates.
    unfold candidates at 1.
    destruct source_hint as [h|]; simpl.
    - destruct (Py.truthy h) eqn:Hh;
        [apply truthy_iff in Hh | apply truthy_false_iff in Hh].
      + destruct (file_stem_to_package r !! h) as [p|] eqn:Hp; simpl.
        * destruct (Py.truthy p) eqn:Htp;
            [apply truthy_iff in Htp | apply truthy_false_iff in Htp];
            repeat case_bool_decide; simpl;
            first [reflexivity | exfalso; tauto].
        * repeat case_bool_decide; simpl; first [reflexivity | exfalso; tauto].
      + repeat case_bool_decide; simpl; first [reflexivity | exfalso; tauto].
    - repeat case_bool_decide; simpl; first [reflexivity | exfalso; tauto]. }
  split; [exact Heq|].
  intros -> HB Hstem. rewrite Heq. subst hint hinted_pkg. simpl.
  rewrite Hstem. simpl.
  rewrite bool_decide_eq_true_2; [reflexivity|].
  repeat split; [discriminate | discriminate | exact HB].
Qed.

Lemma resolve_type_disambiguation_witness :
  let r := _build_indices (flatten_packages [package_A; package_B]) in
  resolve_type r "Shape" (Some "B") "A" (class_index r) = Some "B".
Proof.
  cbv zeta.
  apply (resolve_type_disambiguation
           (_build_indices (flatten_packages [package_A; package_B]))
           "Shape" (Some "B") "A" _ "A" "B" []).
  - vm_compute. reflexivity.
  - reflexivity.
  - apply list_elem_of_In. cbn. auto.
  - vm_compute. reflexivity.
Defined.

(** The file-stem entry matters: when [A] is read from [B.ecore] and
    indexed after [B], the hint [B] is mapped to [A], a candidate, and the
    first rule returns [A]. *)
Example hint_mapped_to_current_package :
  let r := _build_indices (flatten_packages [package_B; package_A_in_file_B]) in
  file_stem_to_package r !! "B" = Some "A"
  /\ resolve_type r "Shape" (Some "B") "A" (class_index r) = Some "A".
Proof. cbv zeta. split; vm_compute; reflexivity. Qed.

(* ================================================================== *)
(** * The resolution pass over the shared packages *)
(* ================================================================== *)

Section ResolutionPass.

Variable r : ReferenceResolver.

Lemma modify_alter (f : EPackage -> EPackage) (q : path) :
  forall (i : nat) (store : list EPackage),
    modify f (i :: q) store = alter (modify_tree f q) i store.
Proof.
  induction q as [|j q IH]; intros i store; [reflexivity|].
  change (modify f (i :: j :: q) store)
    with (alter (fun pkg => with_sub_packages (modify f (j :: q) (pkg_sub_packages pkg)) pkg)
                i store).
  apply list_alter_ext; [|reflexivity].
  intros pkg _. rewrite IH. reflexivity.
Qed.

Lemma number_paths_nonempty (paths_of : EPackage -> list path)
    (subs : list EPackage) :
  forall i : nat, Forall (fun p => p <> []) (number_paths paths_of i subs).
Proof.
  induction subs as [|s subs IH]; intros i; cbn [number_paths].
  - constructor.
  - apply Forall_app. split; [|apply IH].
    apply Forall_forall. intros p Hp.
    apply list_elem_of_fmap in Hp as (q & -> & _). discriminate.
Qed.

Lemma fold_modify_below (f : EPackage -> EPackage) (ps : list path) :
  Forall (fun p => p <> []) ps ->
  forall pkg : EPackage,
    fold_left (fun u q => modify_tree f q u) ps pkg
    = with_sub_packages
        (fold_left (fun st p => modify f p st) ps (pkg_sub_packages pkg)) pkg.
Proof.
  induction 1 as [|p ps Hp _ IH]; intros pkg; cbn [fold_left].
  - destruct pkg; reflexivity.
  - destruct p as [|i q]; [contradiction|].
    rewrite IH. rewrite modify_alter. destruct pkg; reflexivity.
Qed.

Lemma fold_modify_at (f : EPackage -> EPackage) (qs : list path) :
  forall (pre post : list EPackage) (x : EPackage),
    fold_left (fun st p => modify f p st) (map (cons (length pre)) qs)
              (pre ++ x :: post)
    = pre ++ fold_left (fun u q => modify_tree f q u) qs x :: post.
Proof.
  induction qs as [|q qs IH]; intros pre post x; cbn [map fold_left];
    [reflexivity|].
  rewrite modify_alter.
  rewrite alter_app_r_alt by lia. rewrite Nat.sub_diag.
  cbn [alter list_alter]. apply IH.
Qed.

Lemma resolve_times_zero (pkg : EPackage) : resolve_times r 0 pkg = pkg.
Proof.
  induction pkg as [pkg IH] using EPackage_tree_ind.
  destruct pkg as [n u p cs es ds subs sf an]. cbn in *.
  f_equal.
  - apply map_id.
  - rewrite <- (map_id subs) at 2. apply map_ext_Forall. exact IH.
Qed.

Lemma resolve_package_times (n : nat) (pkg : EPackage) :
  _resolve_package r (resolve_times r n pkg) = resolve_times r (S n) pkg.
Proof.
  induction pkg as [pkg IH] using EPackage_tree_ind.
  destruct pkg as [nm u p cs es ds subs sf an]. cbn in *.
  f_equal.
  - rewrite map_map. reflexivity.
  - rewrite map_map. apply map_ext_Forall. exact IH.
Qed.

(** The walk over a list of packages, given the walk below each. *)
Lemma fold_number_paths (subs : list EPackage) :
  Forall (fun s => forall n,
            fold_left (fun u q => modify_tree (_resolve_package r) q u)
                      (package_paths s) (resolve_times r n s)
            = resolve_deep r (S n) s) subs ->
  forall (pre : list EPackage) (m : nat),
    fold_left (fun st p => modify (_resolve_package r) p st)
              (number_paths package_paths (length pre) subs)
              (pre ++ map (resolve_times r m) subs)
    = pre ++ map (resolve_deep r (S m)) subs.
Proof.
  induction 1 as [|s subs Hs _ IH]; intros pre m; [reflexivity|].
  cbn [number_paths map]. rewrite fold_left_app.
  rewrite fold_modify_at. rewrite Hs.
  specialize (IH (pre ++ [resolve_deep r (S m) s]) m).
  rewrite List.length_app in IH. cbn [length] in IH.
  replace (length pre + 1) with (S (length pre)) in IH by lia.
  rewrite <- !app_assoc in IH. exact IH.
Qed.

(** The walk below one package: every level is resolved once more than
    the level above it. *)
Lemma fold_package_paths (pkg : EPackage) :
  forall n : nat,
    fold_left (fun u q => modify_tree (_resolve_package r) q u)
              (package_paths pkg) (resolve_times r n pkg)
    = resolve_deep r (S n) pkg.
Proof.
  induction pkg as [pkg IH] using EPackage_tree_ind. intros n.
  pose proof (fold_number_paths (pkg_sub_packages pkg) IH [] (S n)) as Hsubs.
  cbn [length app] in Hsubs.
  destruct pkg as [nm u p cs es ds subs sf an].
  change (package_paths (mkEPackage nm u p cs es ds subs sf an))
    with ([] :: number_paths package_paths 0 subs).
  cbn [fold_left modify_tree].
  rewrite resolve_package_times.
  rewrite fold_modify_below by apply number_paths_nonempty.
  cbn [resolve_times pkg_sub_packages] in *.
  rewrite Hsubs. reflexivity.
Qed.

(** [resolve] on the flattened list: a class at depth [d] goes through
    the class loop [d + 1] times. *)
Lemma resolve_is_resolve_deep (store : list EPackage) :
  resolve r store = map (resolve_deep r 1) store.
Proof.
  unfold resolve, flat_objects.
  pose proof (fold_number_paths store) as H.
  specialize (H (proj2 (Forall_forall _ _) (fun s _ => fold_package_paths s)) [] 0).
  cbn [length app] in H.
  rewrite (map_ext_Forall (resolve_times r 0) id) in H
    by (apply Forall_forall; intros s _; apply resolve_times_zero).
  rewrite map_id in H. exact H.
Qed.

End ResolutionPass.

(** The paths of [flat_objects] name the members of
    [flatten_packages], in order. *)
Lemma deref_number_paths (subs : list EPackage) :
  Forall (fun s => forall (i : nat) (store : list EPackage),
            store !! i = Some s ->
            map (fun q => deref (i :: q) store) (package_paths s)
            = map Some (flatten_package s)) subs ->
  forall pre : list EPackage,
    map (fun p => deref p (pre ++ subs))
        (number_paths package_paths (length pre) subs)
    = map Some (flat_map flatten_package subs).
Proof.
  induction 1 as [|s subs Hs _ IH]; intros pre; [reflexivity|].
  cbn [number_paths flat_map]. rewrite !map_app, map_map. f_equal.
  - apply Hs. rewrite lookup_app_r by lia. rewrite Nat.sub_diag. reflexivity.
  - specialize (IH (pre ++ [s])). rewrite List.length_app in IH.
    cbn [length] in IH. replace (length pre + 1) with (S (length pre)) in IH by lia.
    rewrite <- app_assoc in IH. exact IH.
Qed.

Lemma deref_package_paths (pkg : EPackage) :
  forall (i : nat) (store : list EPackage),
    store !! i = Some pkg ->
    map (fun q => deref (i :: q) store) (package_paths pkg)
    = map Some (flatten_package pkg).
Proof.
  induction pkg as [pkg IH] using EPackage_tree_ind. intros i store Hi.
  pose proof (deref_number_paths (pkg_sub_packages pkg) IH []) as Hsubs.
  cbn [length app] in Hsubs.
  destruct pkg as [nm u p cs es ds subs sf an].
  change (package_paths (mkEPackage nm u p cs es ds subs sf an))
    with ([] :: number_paths package_paths 0 subs).
  change (flatten_package (mkEPackage nm u p cs es ds subs sf an))
    with (mkEPackage nm u p cs es ds subs sf an :: flat_map flatten_package subs).
  cbn [map pkg_sub_packages] in *. f_equal; [exact Hi|].
  rewrite <- Hsubs. apply map_ext_Forall.
  eapply Forall_impl; [apply number_paths_nonempty|].
  intros [|j q] Hq; [contradiction|].
  change (deref (i :: j :: q) store)
    with (pkg ← store !! i; deref (j :: q) (pkg_sub_packages pkg)).
  rewrite Hi. reflexivity.
Qed.

Lemma flat_objects_flatten_packages (store : list EPackage) :
  map (fun p => deref p store) (flat_objects store)
  = map Some (flatten_packages store).
Proof.
  apply (deref_number_paths store
           (proj2 (Forall_forall _ _) (fun s _ => deref_package_paths s)) []).
Qed.

(* ================================================================== *)
(** * What the resolution pass leaves in the classes *)
(* ================================================================== *)

Lemma concat_replicate_snoc {A : Type} (l : list A) (n : nat) :
  concat (replicate n l) ++ l = concat (replicate (S n) l).
Proof.
  induction n as [|n IH]; cbn [replicate concat] in *.
  - rewrite app_nil_r. reflexivity.
  - rewrite <- app_assoc, IH. reflexivity.
Qed.

Lemma iter_resolve_class_supers (r : ReferenceResolver) (pkg : string)
    (cls : EClass) (n : nat) :
  cls_resolved_supers (Nat.iter n (resolve_class r pkg) cls)
  = cls_resolved_supers cls
    ++ concat (replicate n (map (resolve_super r pkg) (cls_super_types cls)))
  /\ cls_super_types (Nat.iter n (resolve_class r pkg) cls) = cls_super_types cls.
Proof.
  induction n as [|n [IHs IHt]].
  - cbn. rewrite app_nil_r. split; reflexivity.
  - rewrite Nat.iter_succ. unfold resolve_class at 1 3.
    cbn [cls_resolved_supers cls_super_types].
    rewrite IHs, IHt. split; [|reflexivity].
    rewrite <- app_assoc, concat_replicate_snoc. reflexivity.
Qed.

(** One run of the class loop on a class as the parser leaves it: one pair
    per super-type token, in order, the current package standing in where
    the look-up finds nothing. *)
Lemma resolve_class_fresh (r : ReferenceResolver) (pkg : string) (cls : EClass) :
  cls_resolved_supers cls = [] ->
  cls_resolved_supers (resolve_class r pkg cls)
  = map (resolve_super r pkg) (cls_super_types cls)
  /\ length (cls_resolved_supers (resolve_class r pkg cls))
     = length (cls_super_types cls).
Proof.
  intros Hfresh. cbn [resolve_class cls_resolved_supers]. rewrite Hfresh.
  cbn [app]. split; [reflexivity|]. apply length_map.
Qed.

Lemma resolve_reference_as (r : ReferenceResolver) (pkg : string) (ref : EReference) :
  reference_resolved_as r pkg (resolve_reference r pkg ref).
Proof.
  unfold reference_resolved_as, resolve_reference, resolve_target.
  cbn [ref_resolved_package ref_e_type ref_source_hint].
  destruct (resolve_type r (ref_e_type ref) (ref_source_hint ref) pkg (class_index r))
    as [p|]; cbn [Py.truthy_opt default].
  - destruct (Py.truthy p) eqn:Hp;
      [apply truthy_iff in Hp | apply truthy_false_iff in Hp; subst p].
    + repeat split; try discriminate.
      * intros p' [= <-] _. reflexivity.
      * intros [H|[= H]]; [discriminate | contradiction].
      * intros [H|[= H]]; [discriminate | contradiction].
    + destruct (resolve_type r (ref_e_type ref) (ref_source_hint ref) pkg (enum_index r))
        as [q|]; cbn [Py.or_else].
      * destruct (Py.truthy q) eqn:Hq;
          [apply truthy_iff in Hq | apply truthy_false_iff in Hq; subst q].
        -- repeat split; try discriminate.
           ++ intros p' [= <-] Hne. contradiction.
           ++ intros _ q' [= <-] _. reflexivity.
           ++ intros _ [H|[= H]]; [discriminate | contradiction].
        -- repeat split; try discriminate.
           ++ intros p' [= <-] Hne. contradiction.
           ++ intros _ q' [= <-] Hne. contradiction.
      * repeat split; try discriminate.
        intros p' [= <-] Hne. contradiction.
  - destruct (resolve_type r (ref_e_type ref) (ref_source_hint ref) pkg (enum_index r))
      as [q|]; cbn [Py.or_else].
    + destruct (Py.truthy q) eqn:Hq;
        [apply truthy_iff in Hq | apply truthy_false_iff in Hq; subst q].
      * repeat split; try discriminate.
        -- intros _ q' [= <-] _. reflexivity.
        -- intros _ [H|[= H]]; [discriminate | contradiction].
      * repeat split; try discriminate.
        intros _ q' [= <-] Hne. contradiction.
    + repeat split; discriminate.
Qed.

Lemma iter_resolve_class_references (r : ReferenceResolver) (pkg : string)
    (cls : EClass) (n : nat) :
  Forall (reference_resolved_as r pkg)
         (cls_references (Nat.iter (S n) (resolve_class r pkg) cls)).
Proof.
  rewrite Nat.iter_succ. unfold resolve_class at 1. cbn [cls_references].
  apply Forall_fmap, Forall_forall. intros ref _. apply resolve_reference_as.
Qed.

Lemma resolve_deep_references (r : ReferenceResolver) (pkg : EPackage) :
  forall n : nat,
    Forall (fun pc => Forall (reference_resolved_as r (fst pc)) (cls_references (snd pc)))
           (classes_of (resolve_deep r (S n) pkg)).
Proof.
  induction pkg as [pkg IH] using EPackage_tree_ind. intros n.
  destruct pkg as [nm u p cs es ds subs sf an].
  cbn [resolve_deep classes_of pkg_name pkg_classes pkg_sub_packages] in *.
  apply Forall_app. split.
  - rewrite map_map. apply Forall_fmap, Forall_forall. intros cls _.
    apply iter_resolve_class_references.
  - apply Forall_flat_map. rewrite Forall_fmap.
    eapply Forall_impl; [exact IH|]. intros s Hs. apply Hs.
Qed.

(** C9, as stated, fails.  The class index finds [T] in the nameless
    package, so the look-up in the class index does not fail; the
    resolver goes on to the enum index all the same and stores [E]. *)
Lemma nameless_class_owner_is_passed_over :
  let store := [nameless_T; package_E; package_cur] in
  let r := _build_indices (flatten_packages store) in
  resolve_type r "T" None "cur" (class_index r) = Some ""
  /\ target_in_spec_order r "cur" (plain_reference "t" "T" None) = ""
  /\ targets_of (resolve r store) = [("", "T", []); ("cur", "C", [Some "E"])].
Proof. cbv zeta. repeat split; vm_compute; reflexivity. Qed.

(** C9 (amended).  After the resolution pass, for every reference of every
    class of every package and sub-package: [resolved_package] is not
    null; it is the package that the class index gives, when that has a
    non-empty name; otherwise (the class index gives nothing, or the empty
    name) the package that the enum index gives, when that has a non-empty
    name; otherwise the name of the current package. *)
Theorem references_after_resolve (r : ReferenceResolver) (store : list EPackage) :
  Forall (fun pc : string * EClass =>
            Forall (fun ref : EReference =>
                      let by_class :=
                        resolve_type r (ref_e_type ref) (ref_source_hint ref)
                          (fst pc) (class_index r) in
                      let by_enum :=
                        resolve_type r (ref_e_type ref) (ref_source_hint ref)
                          (fst pc) (enum_index r) in
                      ref_resolved_package ref <> None
                      /\ (forall p, by_class = Some p -> p <> "" ->
                          ref_resolved_package ref = Some p)
                      /\ (by_class = None \/ by_class = Some "" ->
                          forall q, by_enum = Some q -> q <> "" ->
                          ref_resolved_package ref = Some q)
                      /\ (by_class = None \/ by_class = Some "" ->
                          by_enum = None \/ by_enum = Some "" ->
                          ref_resolved_package ref = Some (fst pc)))
                   (cls_references (snd pc)))
         (flat_map classes_of (resolve r store)).
Proof.
  rewrite resolve_is_resolve_deep.
  apply Forall_flat_map, Forall_fmap, Forall_forall. intros pkg _.
  apply (resolve_deep_references r pkg 0).
Qed.

Lemma references_after_resolve_witness :
  Forall (fun pc : string * EClass =>
            Forall (fun ref => ref_resolved_package ref <> None)
                   (cls_references (snd pc)))
         (flat_map classes_of (resolve_all [package_A; package_B])).
Proof.
  eapply Forall_impl;
    [apply (references_after_resolve
              (_build_indices (flatten_packages [package_A; package_B]))
              [package_A; package_B])|].
  intros pc Hrefs. eapply Forall_impl; [exact Hrefs|].
  intros ref (Hnull & _). exact Hnull.
Defined.

Example references_after_resolve_scenario :
  targets_of (resolve_all [package_A; package_B])
  = [("A", "Shape", []); ("A", "Drawing", [Some "B"]); ("B", "Shape", [])].
Proof. vm_compute. reflexivity. Qed.

(* ================================================================== *)
(** * Running the resolution twice *)
(* ================================================================== *)

Lemma resolve_reference_idempotent (r : ReferenceResolver) (pkg : string)
    (ref : EReference) :
  resolve_reference r pkg (resolve_reference r pkg ref) = resolve_reference r pkg ref.
Proof. reflexivity. Qed.

(** The references are overwritten: from the second run on the class loop
    leaves them as they are. *)
Lemma iter_resolve_class_references_stable (r : ReferenceResolver) (pkg : string)
    (cls : EClass) (n : nat) :
  cls_references (Nat.iter (S n) (resolve_class r pkg) cls)
  = map (resolve_reference r pkg) (cls_references cls).
Proof.
  induction n as [|n IH]; [reflexivity|].
  rewrite Nat.iter_succ. unfold resolve_class at 1. cbn [cls_references].
  rewrite IH, map_map. reflexivity.
Qed.

Lemma iter_resolve_class_name (r : ReferenceResolver) (pkg : string)
    (cls : EClass) (n : nat) :
  cls_name (Nat.iter n (resolve_class r pkg) cls) = cls_name cls.
Proof.
  induction n as [|n IH]; [reflexivity|]. rewrite Nat.iter_succ. exact IH.
Qed.

Lemma resolve_deep_twice_targets (r : ReferenceResolver) (pkg : EPackage) :
  forall n m : nat,
    targets_of [resolve_deep r (S n) (resolve_deep r (S m) pkg)]
    = targets_of [resolve_deep r (S m) pkg].
Proof.
  induction pkg as [pkg IH] using EPackage_tree_ind. intros n m.
  destruct pkg as [nm u p cs es ds subs sf an].
  unfold targets_of in *.
  cbn [resolve_deep classes_of flat_map pkg_name pkg_classes pkg_sub_packages] in *.
  rewrite !app_nil_r in *. rewrite !map_app. f_equal.
  - rewrite !map_map. apply map_ext. intros cls. cbn [fst snd].
    rewrite !iter_resolve_class_name.
    rewrite (iter_resolve_class_references_stable r nm _ n).
    rewrite (iter_resolve_class_references_stable r nm cls m).
    rewrite !map_map. reflexivity.
  - rewrite !map_map.
    induction IH as [|s subs Hs _ IHsubs]; [reflexivity|].
    cbn [map flat_map]. rewrite !map_app. f_equal; [|exact IHsubs].
    specialize (Hs (S n) (S m)). rewrite !app_nil_r in Hs. exact Hs.
Qed.

(** The second call of [resolve] changes no [resolved_package]. *)
Lemma resolve_twice_targets (r : ReferenceResolver) (store : list EPackage) :
  targets_of (resolve r (resolve r store)) = targets_of (resolve r store).
Proof.
  rewrite !resolve_is_resolve_deep. unfold targets_of.
  induction store as [|pkg store IH]; [reflexivity|].
  cbn [map flat_map]. rewrite !map_app. f_equal; [|exact IH].
  pose proof (resolve_deep_twice_targets r pkg 0 0) as H.
  unfold targets_of in H. cbn [flat_map] in H. rewrite !app_nil_r in H. exact H.
Qed.

(** C1 on the code.  A package with a class [C] of one super type is
    resolved, then resolved again by the same resolver: the first call
    leaves one pair in [resolved_supers], the second call leaves two, so
    the list is not what it was after the first call.  The references keep
    their value. *)
Theorem resolve_twice_grows_resolved_supers :
  let r := _build_indices (flatten_packages [package_P]) in
  let once := resolve r [package_P] in
  let twice := resolve r once in
  supers_of once = [("P", "Base", []); ("P", "C", [("P", "Base")])]
  /\ supers_of twice
     = [("P", "Base", []); ("P", "C", [("P", "Base"); ("P", "Base")])]
  /\ supers_of twice <> supers_of once
  /\ targets_of twice = targets_of once.
Proof. cbv zeta. repeat split; try (vm_compute; reflexivity). vm_compute. discriminate. Qed.

(** C6 on the code.  [convert] flattens the packages and hands the list to
    the resolver, whose [_resolve_package] descends into the sub-packages
    again: the class [C] of the sub-package [inner], with one super-type
    token, ends the single call of [resolve] with two pairs. *)
Theorem nested_class_gets_two_pairs :
  flat_objects [package_outer] = [[0]; [0; 0]]
  /\ map cls_super_types (pkg_classes package_inner) = [["#//Base"]]
  /\ supers_of (resolve_all [package_outer])
     = [ ("outer", "Base", []);
         ("inner", "C", [("outer", "Base"); ("outer", "Base")]) ].
Proof. repeat split; vm_compute; reflexivity. Qed.

(** In general a class at depth [d] of the package tree, counted from 0,
    ends the call with [d + 1] copies of its pairs. *)
Lemma resolve_deep_supers (r : ReferenceResolver) (pkg : EPackage) :
  forall n : nat,
    map (fun pc => cls_resolved_supers (snd pc)) (classes_of (resolve_deep r n pkg))
    = map (fun pc => cls_resolved_supers (snd pc)
                     ++ concat (replicate n (map (resolve_super r (fst pc))
                                                (cls_super_types (snd pc)))))
          (map (pair (pkg_name pkg)) (pkg_classes pkg))
      ++ flat_map (fun s => map (fun pc => cls_resolved_supers (snd pc))
                              (classes_of (resolve_deep r (S n) s)))
                  (pkg_sub_packages pkg).
Proof.
  intros n. destruct pkg as [nm u p cs es ds subs sf an].
  cbn [resolve_deep classes_of pkg_name pkg_classes pkg_sub_packages].
  rewrite map_app, !map_map. f_equal.
  - apply map_ext. intros cls. cbn [snd fst].
    apply (iter_resolve_class_supers r nm cls n).
  - induction subs as [|s subs IH]; [reflexivity|].
    cbn [map flat_map]. rewrite map_app, IH. reflexivity.
Qed.


(* ================================================================== *)
(** * Shortened sources in field names *)
(* ================================================================== *)

Ltac each_char c :=
  destruct c as [[] [] [] [] [] [] [] []]; try reflexivity; try discriminate.


Lemma lower_word_to_lower (c : ascii) :
  is_lower_word_char c = true -> Py.to_lower c = c.
Proof. each_char c. Qed.

Lemma shorten_char_lower_word (c : ascii) :
  is_lower_word_char (Py.to_lower (if is_word_char c then c else "_"%char)) = true.
Proof. each_char c. Qed.

Lemma tidy_tail_cons (c : ascii) (s : string) :
  tidy_tail (String c s) = true ->
  is_lower_word_char c = true /\ tidy_tail s = true
  /\ (s = "" -> Py.is_char "_" c = false).
Proof.
  cbn [tidy_tail]. intros H. apply andb_true_iff in H as [H Ht].
  apply andb_true_iff in H as [Hc Hu]. repeat split; try assumption.
  intros ->. destruct (Py.is_char "_" c); [discriminate|reflexivity].
Qed.

Lemma tidy_tail_next (c d : ascii) (s : string) :
  tidy_tail (String c (String d s)) = true ->
  Py.is_char "_" c && Py.is_char "_" d = false.
Proof.
  cbn [tidy_tail]. intros H. apply andb_true_iff in H as [H _].
  apply andb_true_iff in H as [_ Hu].
  destruct (Py.is_char "_" c), (Py.is_char "_" d); try reflexivity; discriminate.
Qed.



Lemma collapse_cons (c d : ascii) (s : string) :
  Py.collapse_underscores (String c (String d s))
  = if Py.is_char "_" c && Py.is_char "_" d
    then Py.collapse_underscores (String d s)
    else String c (Py.collapse_underscores (String d s)).
Proof. reflexivity. Qed.






Lemma tidy_tail_chars (s : string) :
  tidy_tail s = true ->
  forall f : ascii -> ascii,
    (forall c, is_lower_word_char c = true -> f c = c) -> Py.smap f s = s.
Proof.
  induction s as [|c s IH]; intros Ht f Hf; [reflexivity|].
  apply tidy_tail_cons in Ht as (Hc & Ht & _).
  simpl. f_equal; [exact (Hf c Hc) | exact (IH Ht f Hf)].
Qed.




Lemma starts_with_app (s u : string) : Py.starts_with s (s +:+ u) = true.
Proof.
  induction s as [|c s IH]; [reflexivity|].
  change (Py.starts_with (String c s) (String c (s +:+ u)) = true).
  cbn [Py.starts_with]. rewrite Ascii.eqb_refl. exact IH.
Qed.

Lemma tidy_parts (s : string) :
  tidy s = true ->
  s <> "" /\ first_is_underscore s = false /\ tidy_tail s = true.
Proof.
  unfold tidy. intros H. apply andb_true_iff in H as [H Ht].
  apply andb_true_iff in H as [Hs Hf]. repeat split; [|  |exact Ht].
  - destruct s; [discriminate|discriminate].
  - destruct (first_is_underscore s); [discriminate|reflexivity].
Qed.



Lemma shorten_chars (x : string) :
  all_chars is_lower_word_char (Py.lower (Py.replace_unless is_word_char x)) = true.
Proof.
  induction x as [|c x IH]; [reflexivity|].
  change (is_lower_word_char (Py.to_lower (if is_word_char c then c else "_"%char))
          && all_chars is_lower_word_char (Py.lower (Py.replace_unless is_word_char x))
          = true).
  rewrite shorten_char_lower_word, IH. reflexivity.
Qed.

Lemma collapse_first (s : string) :
  first_is_underscore (Py.collapse_underscores s) = first_is_underscore s.
Proof.
  induction s as [|c s IH]; [reflexivity|].
  destruct s as [|d s]; [reflexivity|].
  rewrite collapse_cons.
  destruct (Py.is_char "_" c) eqn:Hc, (Py.is_char "_" d) eqn:Hd; cbn [andb];
    try (cbn [first_is_underscore]; rewrite Hc; reflexivity).
  rewrite IH. cbn [first_is_underscore]. rewrite Hc, Hd. reflexivity.
Qed.

Lemma collapse_no_double (s : string) :
  all_chars is_lower_word_char s = true ->
  no_double_underscore (Py.collapse_underscores s) = true.
Proof.
  induction s as [|c s IH]; intros Hall; [reflexivity|].
  cbn [all_chars] in Hall. apply andb_true_iff in Hall as [Hc Hall].
  specialize (IH Hall).
  destruct s as [|d s].
  - cbn. rewrite Hc, andb_false_r. reflexivity.
  - rewrite collapse_cons.
    destruct (Py.is_char "_" c && Py.is_char "_" d) eqn:Hcd; [exact IH|].
    cbn [no_double_underscore]. rewrite Hc, IH, collapse_first.
    cbn [first_is_underscore]. rewrite Hcd. reflexivity.
Qed.

Lemma no_double_cons (c : ascii) (s : string) :
  no_double_underscore (String c s) = true ->
  is_lower_word_char c = true
  /\ Py.is_char "_" c && first_is_underscore s = false
  /\ no_double_underscore s = true.
Proof.
  cbn [no_double_underscore]. intros H. apply andb_true_iff in H as [H Hs].
  apply andb_true_iff in H as [Hc Hu]. repeat split; try assumption.
  destruct (Py.is_char "_" c && first_is_underscore s); [discriminate|reflexivity].
Qed.

Lemma lstrip_no_double (s : string) :
  no_double_underscore s = true ->
  no_double_underscore (Py.lstrip_by (Py.is_char "_") s) = true
  /\ first_is_underscore (Py.lstrip_by (Py.is_char "_") s) = false.
Proof.
  induction s as [|c s IH]; intros Hnd; [split; reflexivity|].
  cbn [Py.lstrip_by]. destruct (Py.is_char "_" c) eqn:Hc.
  - apply no_double_cons in Hnd as (_ & _ & Hs). exact (IH Hs).
  - split; [exact Hnd|]. exact Hc.
Qed.

Lemma rstrip_first (s : string) :
  first_is_underscore s = false ->
  first_is_underscore (Py.rstrip_by (Py.is_char "_") s) = false.
Proof.
  destruct s as [|c s]; [reflexivity|]. cbn [first_is_underscore Py.rstrip_by].
  intros Hc. rewrite Hc.
  destruct (Py.rstrip_by (Py.is_char "_") s); cbn [first_is_underscore]; exact Hc.
Qed.

Lemma rstrip_head (c : ascii) (s r : string) :
  Py.rstrip_by (Py.is_char "_") s = String c r -> exists s', s = String c s'.
Proof.
  destruct s as [|d s]; [discriminate|]. cbn [Py.rstrip_by].
  destruct (Py.rstrip_by (Py.is_char "_") s).
  - destruct (Py.is_char "_" d); [discriminate|]. intros [= <- _]. eauto.
  - intros [= <- _]. eauto.
Qed.

Lemma rstrip_tidy_tail (s : string) :
  no_double_underscore s = true ->
  tidy_tail (Py.rstrip_by (Py.is_char "_") s) = true.
Proof.
  induction s as [|c s IH]; intros Hnd; [reflexivity|].
  apply no_double_cons in Hnd as (Hc & Hcd & Hs). specialize (IH Hs).
  cbn [Py.rstrip_by].
  destruct (Py.rstrip_by (Py.is_char "_") s) as [|d r] eqn:Hr.
  - destruct (Py.is_char "_" c) eqn:Hu; [reflexivity|].
    cbn [tidy_tail]. rewrite Hc, Hu. reflexivity.
  - apply rstrip_head in Hr as [s' ->].
    cbn [first_is_underscore] in Hcd.
    cbn [tidy_tail] in *. rewrite Hc, IH.
    destruct (Py.is_char "_" c), (Py.is_char "_" d); try reflexivity; discriminate.
Qed.

(** A shortened source is tidy. *)
Lemma shorten_source_tidy (source : string) : tidy (_shorten_source source) = true.
Proof.
  unfold _shorten_source.
  destruct (Py.truthy source); cbn [negb]; [|reflexivity].
  match goal with
  | |- context [Py.strip_by _ ?z] => set (collapsed := z)
  end.
  assert (Hnd : no_double_underscore collapsed = true)
    by apply collapse_no_double, shorten_chars.
  destruct (lstrip_no_double collapsed Hnd) as [Hl Hfirst].
  unfold Py.strip_by.
  destruct (Py.truthy (Py.rstrip_by _ _)) eqn:Hlast; [|reflexivity].
  unfold tidy. rewrite Hlast, (rstrip_first _ Hfirst), (rstrip_tidy_tail _ Hl).
  reflexivity.
Qed.

(* ================================================================== *)
(** * The annotation registry *)
(* ================================================================== *)

Lemma first_seen_app (a b : list lookup_key) :
  forall seen : list lookup_key,
    first_seen seen (a ++ b)
    = first_seen seen a ++ first_seen (seen ++ first_seen seen a) b.
Proof.
  induction a as [|x a IH]; intros seen; cbn [app first_seen].
  - rewrite app_nil_r. reflexivity.
  - case_bool_decide.
    + apply IH.
    + rewrite IH. cbn [app]. rewrite <- app_assoc. reflexivity.
Qed.

(** A generic step: folding a function that extends the registry keys by
    the first occurrences of some keys. *)
Lemma fold_registry_keys {A : Type} (f : AnnotationCollector -> A -> AnnotationCollector)
    (keys_of : A -> list lookup_key) (l : list A) :
  Forall (fun x => forall c, registry_keys (f c x)
                             = registry_keys c ++ first_seen (registry_keys c) (keys_of x)) l ->
  forall c, registry_keys (fold_left f l c)
            = registry_keys c ++ first_seen (registry_keys c) (flat_map keys_of l).
Proof.
  induction 1 as [|x l Hx _ IH]; intros c; cbn [fold_left flat_map first_seen].
  - rewrite app_nil_r. reflexivity.
  - rewrite IH, Hx, first_seen_app, app_assoc. reflexivity.
Qed.

Lemma fold_preserves {A S : Type} (P : S -> Prop) (f : S -> A -> S) (l : list A) :
  Forall (fun x => forall c, P c -> P (f c x)) l ->
  forall c, P c -> P (fold_left f l c).
Proof.
  induction 1 as [|x l Hx _ IH]; intros c Hc; cbn [fold_left]; auto.
Qed.

Lemma register_detail_keys (source_full source_short : string)
    (c : AnnotationCollector) (kv : string * string) :
  registry_keys (register_detail source_full source_short c kv)
  = registry_keys c ++ first_seen (registry_keys c) [(source_short, fst kv)].
Proof.
  destruct kv as [key value]. unfold register_detail, registered, registry_keys.
  cbn [fst first_seen]. case_bool_decide; cbn [options].
  - rewrite app_nil_r. reflexivity.
  - rewrite map_app. reflexivity.
Qed.

Lemma register_detail_ok (source_full source_short : string)
    (c : AnnotationCollector) (kv : string * string) :
  tidy source_short = true ->
  collector_ok c -> collector_ok (register_detail source_full source_short c kv).
Proof.
  intros Hne [Hnext Hopts]. destruct kv as [key value].
  unfold register_detail, registered. case_bool_decide.
  - split; [exact Hnext | exact Hopts].
  - split; cbn [options _next_field_number].
    + rewrite Hnext, List.length_app. cbn [length]. lia.
    + intros i lookup opt Hi.
      destruct (decide (i < length (options c))) as [Hlt|Hge].
      * rewrite lookup_app_l in Hi by exact Hlt. eauto.
      * rewrite lookup_app_r in Hi by lia.
        destruct (i - length (options c)) as [|?] eqn:Hd; [|discriminate].
        injection Hi as <- <-. cbn [opt_field_number opt_key opt_source_short fst snd].
        rewrite Hnext. repeat split; [|exact Hne].
        f_equal. lia.
Qed.

Lemma register_annotation_keys (c : AnnotationCollector) (ann : EAnnotation) :
  registry_keys (_register_annotation c ann)
  = registry_keys c ++ first_seen (registry_keys c) (annotation_keys ann).
Proof.
  unfold _register_annotation, annotation_keys.
  rewrite (fold_registry_keys _
             (fun kv => [(_shorten_source (ann_source ann), fst kv)]))
    by (apply Forall_forall; intros kv _ c'; apply register_detail_keys).
  replace (flat_map (fun kv => [(_shorten_source (ann_source ann), fst kv)])
                    (ann_details ann))
    with (map (fun kv => (_shorten_source (ann_source ann), fst kv))
              (ann_details ann)); [reflexivity|].
  induction (ann_details ann) as [|kv d IH]; cbn; [reflexivity|].
  rewrite IH. reflexivity.
Qed.

Lemma register_annotation_ok (c : AnnotationCollector) (ann : EAnnotation) :
  collector_ok c -> collector_ok (_register_annotation c ann).
Proof.
  unfold _register_annotation. apply fold_preserves.
  apply Forall_forall. intros kv _ c'.
  apply register_detail_ok, shorten_source_tidy.
Qed.

Lemma register_all_keys (anns : list EAnnotation) (c : AnnotationCollector) :
  registry_keys (register_all c anns)
  = registry_keys c ++ first_seen (registry_keys c) (flat_map annotation_keys anns).
Proof.
  unfold register_all. apply fold_registry_keys.
  apply Forall_forall. intros ann _ c'. apply register_annotation_keys.
Qed.

Lemma register_all_ok (anns : list EAnnotation) (c : AnnotationCollector) :
  collector_ok c -> collector_ok (register_all c anns).
Proof.
  unfold register_all. apply fold_preserves.
  apply Forall_forall. intros ann _ c'. apply register_annotation_ok.
Qed.

Lemma scan_class_keys (c : AnnotationCollector) (cls : EClass) :
  registry_keys (scan_class c cls)
  = registry_keys c ++ first_seen (registry_keys c) (class_keys cls).
Proof.
  unfold scan_class, class_keys.
  rewrite (fold_registry_keys _
             (fun ref => flat_map annotation_keys (ref_annotations ref)))
    by (apply Forall_forall; intros ref _ c'; apply register_all_keys).
  rewrite (fold_registry_keys _
             (fun attr => flat_map annotation_keys (attr_annotations attr)))
    by (apply Forall_forall; intros attr _ c'; apply register_all_keys).
  rewrite register_all_keys.
  rewrite !first_seen_app, <- !app_assoc. reflexivity.
Qed.

Lemma scan_class_ok (c : AnnotationCollector) (cls : EClass) :
  collector_ok c -> collector_ok (scan_class c cls).
Proof.
  intros Hc. unfold scan_class.
  apply fold_preserves;
    [apply Forall_forall; intros ref _ c'; apply register_all_ok|].
  apply fold_preserves;
    [apply Forall_forall; intros attr _ c'; apply register_all_ok|].
  apply register_all_ok, Hc.
Qed.

Lemma scan_package_keys (pkg : EPackage) :
  forall c : AnnotationCollector,
    registry_keys (_scan_package c pkg)
    = registry_keys c ++ first_seen (registry_keys c) (package_keys pkg).
Proof.
  induction pkg as [pkg IH] using EPackage_tree_ind. intros c.
  destruct pkg as [nm u p cs es ds subs sf an].
  cbn [_scan_package package_keys pkg_annotations pkg_classes pkg_enums
       pkg_sub_packages] in *.
  rewrite (fold_registry_keys _ package_keys) by exact IH.
  rewrite (fold_registry_keys _
             (fun enum => flat_map annotation_keys (enum_annotations enum)))
    by (apply Forall_forall; intros enum _ c'; apply register_all_keys).
  rewrite (fold_registry_keys _ class_keys)
    by (apply Forall_forall; intros cls _ c'; apply scan_class_keys).
  rewrite register_all_keys.
  rewrite !first_seen_app, <- !app_assoc. reflexivity.
Qed.

Lemma scan_package_ok (pkg : EPackage) :
  forall c : AnnotationCollector, collector_ok c -> collector_ok (_scan_package c pkg).
Proof.
  induction pkg as [pkg IH] using EPackage_tree_ind. intros c Hc.
  destruct pkg as [nm u p cs es ds subs sf an].
  cbn [_scan_package pkg_annotations pkg_classes pkg_enums pkg_sub_packages] in *.
  apply fold_preserves; [exact IH|].
  apply fold_preserves;
    [apply Forall_forall; intros enum _ c'; apply register_all_ok|].
  apply fold_preserves;
    [apply Forall_forall; intros cls _ c'; apply scan_class_ok|].
  apply register_all_ok, Hc.
Qed.

Lemma new_collector_ok : collector_ok new_collector.
Proof. split; [reflexivity|]. intros i lookup opt Hi. destruct i; discriminate. Qed.

Lemma scan_only_keys (packages : list EPackage) :
  registry_keys (scan_only packages)
  = first_seen [] (flat_map package_keys packages).
Proof.
  unfold scan_only.
  rewrite (fold_registry_keys _ package_keys)
    by (apply Forall_forall; intros pkg _ c; apply scan_package_keys).
  reflexivity.
Qed.

Lemma scan_only_ok (packages : list EPackage) : collector_ok (scan_only packages).
Proof.
  unfold scan_only. apply fold_preserves; [|apply new_collector_ok].
  apply Forall_forall. intros pkg _ c. apply scan_package_ok.
Qed.




Lemma finalize_keys (c : AnnotationCollector) :
  registry_keys (_finalize c) = registry_keys c.
Proof.
  unfold registry_keys, _finalize. cbn [options]. rewrite map_map.
  apply map_ext. intros [[s k] opt]. reflexivity.
Qed.

Lemma finalize_field_numbers (c : AnnotationCollector) :
  field_numbers (_finalize c) = field_numbers c.
Proof.
  unfold field_numbers, _finalize. cbn [options]. rewrite map_map.
  apply map_ext. intros [[s k] opt]. reflexivity.
Qed.



(** C8.  The base is 50000.  The keys of the registry are the first
    occurrences of the (shortened source, key) pairs in the order in which
    the depth-first walk of the packages meets them; during the scan the
    option in place [i] gets the number 50000 + [i]; [_finalize] leaves the
    keys and their numbers as they are; and in the finalized registry the
    numbers increase strictly along the registration order. *)
Theorem field_numbers_follow_first_seen_order (packages : list EPackage) :
  let scanned := scan_only packages in
  let registry := scan_packages packages in
  _EXTENSION_FIELD_START = 50000%Z
  /\ registry_keys scanned = first_seen [] (flat_map package_keys packages)
  /\ (forall (i : nat) (lookup : lookup_key) (opt : AnnotationOptionDef),
        options scanned !! i = Some (lookup, opt) ->
        opt_field_number opt = (50000 + Z.of_nat i)%Z)
  /\ field_numbers registry = field_numbers scanned
  /\ (forall (i j : nat) (e1 e2 : lookup_key * AnnotationOptionDef),
        i < j ->
        options registry !! i = Some e1 ->
        options registry !! j = Some e2 ->
        (opt_field_number (snd e1) < opt_field_number (snd e2))%Z).
Proof.
  cbv zeta. split; [reflexivity|]. split; [apply scan_only_keys|].
  destruct (scan_only_ok packages) as [_ Hopts].
  assert (Hnum : forall i lookup opt,
            options (scan_only packages) !! i = Some (lookup, opt) ->
            opt_field_number opt = (50000 + Z.of_nat i)%Z).
  { intros i lookup opt Hi. apply (Hopts i lookup opt Hi). }
  split; [exact Hnum|]. split; [apply finalize_field_numbers|].
  intros i j e1 e2 Hlt H1 H2.
  assert (Hfin : forall n e,
            options (scan_packages packages) !! n = Some e ->
            opt_field_number (snd e) = (50000 + Z.of_nat n)%Z).
  { intros n e Hn. unfold scan_packages, _finalize in Hn. cbn [options] in Hn.
    rewrite list_lookup_fmap in Hn.
    destruct (options (scan_only packages) !! n) as [[[s k] opt0]|] eqn:Hs;
      [|discriminate].
    injection Hn as <-. cbn. apply (Hnum n (s, k) opt0 Hs). }
  rewrite (Hfin i e1 H1), (Hfin j e2 H2). lia.
Qed.

Lemma field_numbers_follow_first_seen_order_witness :
  field_numbers (scan_packages (flatten_packages [annotated_package]))
  = [ (("ui", "label"), 50000%Z); (("ui", "order"), 50001%Z);
      (("genmodel", "label"), 50002%Z); (("ui", "displayName"), 50003%Z) ].
Proof.
  destruct (field_numbers_follow_first_seen_order
              (flatten_packages [annotated_package])) as (_ & _ & _ & -> & _).
  vm_compute. reflexivity.
Defined.

(* ================================================================== *)
(** * The indices of the resolver *)
(* ================================================================== *)

Lemma index_add_candidates (name pkg : string) (index : gmap string (list string))
    (n q : string) :
  q ∈ candidates (index_add name pkg index) n
  <-> q ∈ candidates index n \/ (n = name /\ q = pkg).
Proof.
  unfold index_add, candidates. case_bool_decide as Hin.
  - split; [tauto|]. intros [H|[-> ->]]; [exact H | exact Hin].
  - destruct (decide (n = name)) as [->|Hne].
    + rewrite lookup_insert_eq. simpl (default [] (Some _)).
      rewrite elem_of_app, list_elem_of_singleton. tauto.
    + rewrite lookup_insert_ne by congruence. tauto.
Qed.

Lemma index_add_NoDup (name pkg : string) (index : gmap string (list string)) :
  (forall n, NoDup (candidates index n)) ->
  forall n, NoDup (candidates (index_add name pkg index) n).
Proof.
  intros Hnd n. unfold index_add. case_bool_decide as Hin; [apply Hnd|].
  unfold candidates. destruct (decide (n = name)) as [->|Hne].
  - rewrite lookup_insert_eq. simpl (default [] (Some _)).
    apply NoDup_app. split; [apply Hnd|]. split.
    + intros x Hx Hx'. apply list_elem_of_singleton in Hx'. subst x. contradiction.
    + apply NoDup_singleton.
  - rewrite lookup_insert_ne by congruence. apply Hnd.
Qed.

Lemma index_add_nonempty (name pkg : string) (index : gmap string (list string)) :
  (forall n, index !! n <> Some []) ->
  forall n, index_add name pkg index !! n <> Some [].
Proof.
  intros Hne n. unfold index_add. case_bool_decide as Hin; [apply Hne|].
  destruct (decide (n = name)) as [->|Hn].
  - rewrite lookup_insert_eq. intros [= H]. destruct (default [] _); discriminate.
  - rewrite lookup_insert_ne by congruence. apply Hne.
Qed.

(** Folding [index_add] over names for one package. *)
Lemma fold_index_add (pkg : string) (names : list string) :
  forall (index : gmap string (list string)) (n q : string),
    q ∈ candidates (fold_left (fun idx name => index_add name pkg idx) names index) n
    <-> q ∈ candidates index n \/ (q = pkg /\ n ∈ names).
Proof.
  induction names as [|name names IH]; intros index n q; cbn [fold_left].
  - rewrite elem_of_nil. tauto.
  - rewrite IH, index_add_candidates, elem_of_cons. tauto.
Qed.

Lemma fold_index_add_NoDup (pkg : string) (names : list string) :
  forall index : gmap string (list string),
    (forall n, NoDup (candidates index n)) ->
    forall n, NoDup (candidates
                       (fold_left (fun idx name => index_add name pkg idx) names index) n).
Proof.
  induction names as [|name names IH]; intros index Hnd; cbn [fold_left];
    [exact Hnd|].
  apply IH, index_add_NoDup, Hnd.
Qed.

Lemma fold_index_class (pkg : string) (cs : list EClass) :
  forall r : ReferenceResolver,
    class_index (fold_left (index_class pkg) cs r)
    = fold_left (fun idx name => index_add name pkg idx) (map cls_name cs)
                (class_index r)
    /\ enum_index (fold_left (index_class pkg) cs r) = enum_index r.
Proof.
  induction cs as [|c cs IH]; intros r; cbn [fold_left map]; [split; reflexivity|].
  destruct (IH (index_class pkg r c)) as [-> ->]. split; reflexivity.
Qed.

Lemma fold_index_enum (pkg : string) (es : list EEnum) :
  forall r : ReferenceResolver,
    enum_index (fold_left (index_enum pkg) es r)
    = fold_left (fun idx name => index_add name pkg idx) (map enum_name es)
                (enum_index r)
    /\ class_index (fold_left (index_enum pkg) es r) = class_index r.
Proof.
  induction es as [|e es IH]; intros r; cbn [fold_left map]; [split; reflexivity|].
  destruct (IH (index_enum pkg r e)) as [-> ->]. split; reflexivity.
Qed.

Lemma fold_index_data_type (ds : list EDataType) :
  forall r : ReferenceResolver,
    class_index (fold_left index_data_type ds r) = class_index r
    /\ enum_index (fold_left index_data_type ds r) = enum_index r.
Proof.
  induction ds as [|d ds IH]; intros r; cbn [fold_left]; [split; reflexivity|].
  destruct (IH (index_data_type r d)) as [-> ->].
  unfold index_data_type. destruct (dt_instance_class_name d) as [icn|];
    [destruct (Py.truthy icn)|]; split; reflexivity.
Qed.

Lemma index_package_unfold (r : ReferenceResolver) (pkg : EPackage) :
  _index_package r pkg
  = fold_left _index_package (pkg_sub_packages pkg) (index_own r pkg).
Proof. destruct pkg; reflexivity. Qed.

Lemma index_own_class (r : ReferenceResolver) (pkg : EPackage) (n q : string) :
  q ∈ candidates (class_index (index_own r pkg)) n
  <-> q ∈ candidates (class_index r) n
      \/ (q = pkg_name pkg /\ defines_class pkg n).
Proof.
  unfold index_own, defines_class. cbv zeta.
  destruct (fold_index_data_type (pkg_data_types pkg)
              (fold_left (index_enum (pkg_name pkg)) (pkg_enums pkg)
                 (fold_left (index_class (pkg_name pkg)) (pkg_classes pkg)
                    (set_stem (pkg_name pkg) (pkg_name pkg)
                       (if Py.truthy (pkg_source_file pkg)
                        then set_stem (Py.path_stem (pkg_source_file pkg)) (pkg_name pkg) r
                        else r))))) as [-> _].
  destruct (fold_index_enum (pkg_name pkg) (pkg_enums pkg)
              (fold_left (index_class (pkg_name pkg)) (pkg_classes pkg)
                 (set_stem (pkg_name pkg) (pkg_name pkg)
                    (if Py.truthy (pkg_source_file pkg)
                     then set_stem (Py.path_stem (pkg_source_file pkg)) (pkg_name pkg) r
                     else r)))) as [_ ->].
  destruct (fold_index_class (pkg_name pkg) (pkg_classes pkg)
              (set_stem (pkg_name pkg) (pkg_name pkg)
                 (if Py.truthy (pkg_source_file pkg)
                  then set_stem (Py.path_stem (pkg_source_file pkg)) (pkg_name pkg) r
                  else r))) as [-> _].
  rewrite fold_index_add.
  destruct (Py.truthy (pkg_source_file pkg)); reflexivity.
Qed.

Lemma index_own_enum (r : ReferenceResolver) (pkg : EPackage) (n q : string) :
  q ∈ candidates (enum_index (index_own r pkg)) n
  <-> q ∈ candidates (enum_index r) n
      \/ (q = pkg_name pkg /\ defines_enum pkg n).
Proof.
  unfold index_own, defines_enum. cbv zeta.
  destruct (fold_index_data_type (pkg_data_types pkg)
              (fold_left (index_enum (pkg_name pkg)) (pkg_enums pkg)
                 (fold_left (index_class (pkg_name pkg)) (pkg_classes pkg)
                    (set_stem (pkg_name pkg) (pkg_name pkg)
                       (if Py.truthy (pkg_source_file pkg)
                        then set_stem (Py.path_stem (pkg_source_file pkg)) (pkg_name pkg) r
                        else r))))) as [_ ->].
  destruct (fold_index_enum (pkg_name pkg) (pkg_enums pkg)
              (fold_left (index_class (pkg_name pkg)) (pkg_classes pkg)
                 (set_stem (pkg_name pkg) (pkg_name pkg)
                    (if Py.truthy (pkg_source_file pkg)
                     then set_stem (Py.path_stem (pkg_source_file pkg)) (pkg_name pkg) r
                     else r)))) as [-> _].
  rewrite fold_index_add.
  destruct (fold_index_class (pkg_name pkg) (pkg_classes pkg)
              (set_stem (pkg_name pkg) (pkg_name pkg)
                 (if Py.truthy (pkg_source_file pkg)
                  then set_stem (Py.path_stem (pkg_source_file pkg)) (pkg_name pkg) r
                  else r))) as [_ ->].
  destruct (Py.truthy (pkg_source_file pkg)); reflexivity.
Qed.

Lemma index_own_NoDup (r : ReferenceResolver) (pkg : EPackage) :
  (forall n, NoDup (candidates (class_index r) n)) ->
  (forall n, NoDup (candidates (enum_index r) n)) ->
  (forall n, NoDup (candidates (class_index (index_own r pkg)) n))
  /\ (forall n, NoDup (candidates (enum_index (index_own r pkg)) n)).
Proof.
  intros Hc He. unfold index_own. cbv zeta.
  set (r0 := set_stem (pkg_name pkg) (pkg_name pkg) _).
  assert (Hc0 : forall n, NoDup (candidates (class_index r0) n))
    by (subst r0; destruct (Py.truthy (pkg_source_file pkg)); exact Hc).
  assert (He0 : forall n, NoDup (candidates (enum_index r0) n))
    by (subst r0; destruct (Py.truthy (pkg_source_file pkg)); exact He).
  clearbody r0.
  destruct (fold_index_data_type (pkg_data_types pkg)
              (fold_left (index_enum (pkg_name pkg)) (pkg_enums pkg)
                 (fold_left (index_class (pkg_name pkg)) (pkg_classes pkg) r0)))
    as [-> ->].
  destruct (fold_index_enum (pkg_name pkg) (pkg_enums pkg)
              (fold_left (index_class (pkg_name pkg)) (pkg_classes pkg) r0))
    as [-> ->].
  destruct (fold_index_class (pkg_name pkg) (pkg_classes pkg) r0) as [-> ->].
  split; apply fold_index_add_NoDup; assumption.
Qed.

(** The two indices after a package tree has been indexed. *)
Lemma index_package_candidates (pkg : EPackage) :
  forall (r : ReferenceResolver) (n q : string),
    (q ∈ candidates (class_index (_index_package r pkg)) n
     <-> q ∈ candidates (class_index r) n
         \/ exists p, p ∈ flatten_package pkg /\ pkg_name p = q /\ defines_class p n)
    /\ (q ∈ candidates (enum_index (_index_package r pkg)) n
        <-> q ∈ candidates (enum_index r) n
            \/ exists p, p ∈ flatten_package pkg /\ pkg_name p = q /\ defines_enum p n).
Proof.
  induction pkg as [pkg IH] using EPackage_tree_ind. intros r n q.
  rewrite index_package_unfold.
  assert (Hsubs : forall (subs : list EPackage) (r0 : ReferenceResolver),
    Forall (fun s => forall r n q,
      (q ∈ candidates (class_index (_index_package r s)) n
       <-> q ∈ candidates (class_index r) n
           \/ exists p, p ∈ flatten_package s /\ pkg_name p = q /\ defines_class p n)
      /\ (q ∈ candidates (enum_index (_index_package r s)) n
          <-> q ∈ candidates (enum_index r) n
              \/ exists p, p ∈ flatten_package s /\ pkg_name p = q /\ defines_enum p n))
      subs ->
    (q ∈ candidates (class_index (fold_left _index_package subs r0)) n
     <-> q ∈ candidates (class_index r0) n
         \/ exists p, p ∈ flat_map flatten_package subs
                      /\ pkg_name p = q /\ defines_class p n)
    /\ (q ∈ candidates (enum_index (fold_left _index_package subs r0)) n
        <-> q ∈ candidates (enum_index r0) n
            \/ exists p, p ∈ flat_map flatten_package subs
                         /\ pkg_name p = q /\ defines_enum p n)).
  { clear. intros subs r0 Hall. revert r0.
    induction Hall as [|s subs Hs _ IHsubs]; intros r0; cbn [fold_left flat_map].
    - split; (split; [tauto|]); intros [H|(p & Hp & _)]; try exact H;
        apply elem_of_nil in Hp; contradiction.
    - destruct (IHsubs (_index_package r0 s)) as [Hc He].
      destruct (Hs r0 n q) as [Hsc Hse].
      split.
      + rewrite Hc, Hsc. setoid_rewrite elem_of_app. split.
        * intros [[H|(p & Hp & H)]|(p & Hp & H)]; eauto 6.
        * intros [H|(p & [Hp|Hp] & H)]; eauto 6.
      + rewrite He, Hse. setoid_rewrite elem_of_app. split.
        * intros [[H|(p & Hp & H)]|(p & Hp & H)]; eauto 6.
        * intros [H|(p & [Hp|Hp] & H)]; eauto 6. }
  destruct (Hsubs (pkg_sub_packages pkg) (index_own r pkg) IH) as [Hc He].
  assert (Hflat : forall p, p ∈ flatten_package pkg
                            <-> p = pkg \/ p ∈ flat_map flatten_package (pkg_sub_packages pkg)).
  { intros p. destruct pkg. cbn [flatten_package pkg_sub_packages].
    apply elem_of_cons. }
  split.
  - rewrite Hc, index_own_class. setoid_rewrite Hflat. split.
    + intros [[H|[-> H]]|(p & Hp & H)]; eauto 8.
    + intros [H|(p & [->|Hp] & <- & H)]; eauto 8.
  - rewrite He, index_own_enum. setoid_rewrite Hflat. split.
    + intros [[H|[-> H]]|(p & Hp & H)]; eauto 8.
    + intros [H|(p & [->|Hp] & <- & H)]; eauto 8.
Qed.

Lemma index_package_NoDup (pkg : EPackage) :
  forall r : ReferenceResolver,
    (forall n, NoDup (candidates (class_index r) n)) ->
    (forall n, NoDup (candidates (enum_index r) n)) ->
    (forall n, NoDup (candidates (class_index (_index_package r pkg)) n))
    /\ (forall n, NoDup (candidates (enum_index (_index_package r pkg)) n)).
Proof.
  induction pkg as [pkg IH] using EPackage_tree_ind. intros r Hc He.
  rewrite index_package_unfold.
  destruct (index_own_NoDup r pkg Hc He) as [Hc0 He0].
  generalize dependent (index_own r pkg). clear Hc He.
  induction IH as [|s subs Hs _ IHsubs]; intros r0 Hc0 He0; cbn [fold_left].
  - split; assumption.
  - destruct (Hs r0 Hc0 He0) as [Hc1 He1]. apply IHsubs; assumption.
Qed.

Lemma build_indices_candidates (packages : list EPackage) :
  forall (r : ReferenceResolver) (n q : string),
    (q ∈ candidates (class_index (fold_left _index_package packages r)) n
     <-> q ∈ candidates (class_index r) n
         \/ exists p, p ∈ flatten_packages packages
                      /\ pkg_name p = q /\ defines_class p n)
    /\ (q ∈ candidates (enum_index (fold_left _index_package packages r)) n
        <-> q ∈ candidates (enum_index r) n
            \/ exists p, p ∈ flatten_packages packages
                         /\ pkg_name p = q /\ defines_enum p n).
Proof.
  unfold flatten_packages.
  induction packages as [|pkg packages IH]; intros r n q; cbn [fold_left flat_map].
  - split; (split; [tauto|]); intros [H|(p & Hp & _)]; try exact H;
      apply elem_of_nil in Hp; contradiction.
  - destruct (IH (_index_package r pkg) n q) as [Hc He].
    destruct (index_package_candidates pkg r n q) as [Hpc Hpe].
    split.
    + rewrite Hc, Hpc. setoid_rewrite elem_of_app. split.
      * intros [[H|(p & Hp & H)]|(p & Hp & H)]; eauto 6.
      * intros [H|(p & [Hp|Hp] & H)]; eauto 6.
    + rewrite He, Hpe. setoid_rewrite elem_of_app. split.
      * intros [[H|(p & Hp & H)]|(p & Hp & H)]; eauto 6.
      * intros [H|(p & [Hp|Hp] & H)]; eauto 6.
Qed.

Lemma build_indices_NoDup (packages : list EPackage) :
  forall r : ReferenceResolver,
    (forall n, NoDup (candidates (class_index r) n)) ->
    (forall n, NoDup (candidates (enum_index r) n)) ->
    (forall n, NoDup (candidates (class_index (fold_left _index_package packages r)) n))
    /\ (forall n, NoDup (candidates (enum_index (fold_left _index_package packages r)) n)).
Proof.
  induction packages as [|pkg packages IH]; intros r Hc He; cbn [fold_left].
  - split; assumption.
  - destruct (index_package_NoDup pkg r Hc He) as [Hc1 He1]. apply IH; assumption.
Qed.

Lemma candidates_empty (n : string) : candidates ∅ n = [].
Proof. unfold candidates. rewrite lookup_empty. reflexivity. Qed.

(** X1.  The class index built from a list of packages holds, for every
    name, exactly the names of the packages of the list, sub-packages
    included, that define a class of that name, each once; the enum index
    does the same for the enums. *)
Theorem indices_list_the_defining_packages (packages : list EPackage)
    (name owner : string) :
  let r := _build_indices packages in
  (owner ∈ candidates (class_index r) name
   <-> exists pkg, pkg ∈ flatten_packages packages
                   /\ pkg_name pkg = owner /\ defines_class pkg name)
  /\ (owner ∈ candidates (enum_index r) name
      <-> exists pkg, pkg ∈ flatten_packages packages
                      /\ pkg_name pkg = owner /\ defines_enum pkg name)
  /\ NoDup (candidates (class_index r) name)
  /\ NoDup (candidates (enum_index r) name).
Proof.
  cbv zeta. unfold _build_indices.
  destruct (build_indices_candidates packages empty_resolver name owner) as [Hc He].
  destruct (build_indices_NoDup packages empty_resolver) as [Hnc Hne];
    try (intros n; cbn; rewrite candidates_empty; constructor).
  cbn [class_index enum_index empty_resolver] in Hc, He.
  rewrite candidates_empty in Hc, He. rewrite elem_of_nil in Hc, He.
  split; [rewrite Hc; tauto|]. split; [rewrite He; tauto|].
  split; [apply Hnc | apply Hne].
Qed.

(* ================================================================== *)
(** * What [resolve_type] can return *)
(* ================================================================== *)

Lemma resolve_type_in_candidates (r : ReferenceResolver) (type_name : string)
    (source_hint : option string) (current_pkg_name : string)
    (index : gmap string (list string)) (p : string) :
  resolve_type r type_name source_hint current_pkg_name index = Some p ->
  p ∈ candidates index type_name.
Proof.
  unfold resolve_type, candidates.
  destruct (default [] (index !! type_name)) as [|c [|c' rest]] eqn:Hc.
  - discriminate.
  - intros [= Heq]. rewrite <- Heq. apply elem_of_cons. left. reflexivity.
  - set (cands := c :: c' :: rest).
    assert (Hfirst : c ∈ cands) by (apply elem_of_cons; left; reflexivity).
    clearbody cands.
    destruct (Py.truthy_opt source_hint).
    + destruct (file_stem_to_package r !! default "" source_hint) as [h|]; simpl.
      * destruct (Py.truthy h); simpl; repeat case_bool_decide; simpl;
          intros [= Heq]; rewrite <- Heq; assumption.
      * repeat case_bool_decide; simpl; intros [= Heq]; rewrite <- Heq; assumption.
    + repeat case_bool_decide; simpl; intros [= Heq]; rewrite <- Heq; assumption.
Qed.

Lemma resolve_type_none (r : ReferenceResolver) (type_name : string)
    (source_hint : option string) (current_pkg_name : string)
    (index : gmap string (list string)) :
  resolve_type r type_name source_hint current_pkg_name index = None
  <-> candidates index type_name = [].
Proof.
  unfold resolve_type, candidates.
  destruct (default [] (index !! type_name)) as [|c [|c' rest]].
  - tauto.
  - split; discriminate.
  - split; [|discriminate].
    destruct (Py.truthy_opt source_hint).
    + destruct (_ && _).
      * destruct (file_stem_to_package r !! default "" source_hint);
          [discriminate|].
        case_bool_decide; discriminate.
      * repeat case_bool_decide; discriminate.
    + case_bool_decide; discriminate.
Qed.

(** X2.  [resolve_type] returns nothing exactly when the index has no
    candidate for the name, and what it returns is always one of the
    candidates; no hint and no current package can make it return another
    package. *)
Theorem resolve_type_returns_a_candidate (r : ReferenceResolver)
    (type_name : string) (source_hint : option string)
    (current_pkg_name : string) (index : gmap string (list string)) :
  (resolve_type r type_name source_hint current_pkg_name index = None
   <-> candidates index type_name = [])
  /\ (forall p : string,
        resolve_type r type_name source_hint current_pkg_name index = Some p ->
        p ∈ candidates index type_name).
Proof.
  split; [apply resolve_type_none|].
  intros p. apply resolve_type_in_candidates.
Qed.

Lemma resolve_type_returns_a_candidate_witness :
  let r := _build_indices (flatten_packages [package_A; package_B]) in
  "B" ∈ candidates (class_index r) "Shape".
Proof.
  cbv zeta.
  apply (proj2 (resolve_type_returns_a_candidate
                  (_build_indices (flatten_packages [package_A; package_B]))
                  "Shape" (Some "B") "A"
                  (class_index (_build_indices (flatten_packages [package_A; package_B]))))
               "B").
  vm_compute. reflexivity.
Defined.

(* ================================================================== *)
(** * The flattened list *)
(* ================================================================== *)

Lemma elem_of_flat_map {A B : Type} (f : A -> list B) (l : list A) (x : B) :
  x ∈ flat_map f l <-> exists y, y ∈ l /\ x ∈ f y.
Proof.
  rewrite list_elem_of_In, in_flat_map. setoid_rewrite list_elem_of_In. tauto.
Qed.

Lemma flatten_package_self (pkg : EPackage) : pkg ∈ flatten_package pkg.
Proof. destruct pkg. cbn [flatten_package]. apply elem_of_cons. left. reflexivity. Qed.

Lemma flatten_package_cases (pkg p : EPackage) :
  p ∈ flatten_package pkg
  <-> p = pkg \/ exists s, s ∈ pkg_sub_packages pkg /\ p ∈ flatten_package s.
Proof.
  destruct pkg as [nm u px cs es ds subs sf an].
  cbn [flatten_package pkg_sub_packages].
  rewrite elem_of_cons. apply or_iff_compat_l.
  induction subs as [|s subs IH]; cbn [flat_map].
  - rewrite elem_of_nil. split; [tauto|]. intros (s & Hs & _).
    apply elem_of_nil in Hs. contradiction.
  - rewrite elem_of_app, IH. setoid_rewrite elem_of_cons. split.
    + intros [H|(s' & Hs' & H)]; eauto.
    + intros (s' & [->|Hs'] & H); eauto.
Qed.

(** A member of the flattened tree of a member is a member. *)
Lemma flatten_package_closed (pkg : EPackage) :
  forall p q : EPackage,
    q ∈ flatten_package pkg -> p ∈ flatten_package q -> p ∈ flatten_package pkg.
Proof.
  induction pkg as [pkg IH] using EPackage_tree_ind. intros p q Hq Hp.
  apply flatten_package_cases in Hq as [->|(s & Hs & Hq)]; [exact Hp|].
  apply flatten_package_cases. right. exists s. split; [exact Hs|].
  rewrite Forall_forall in IH. exact (IH s Hs p q Hq Hp).
Qed.

Lemma flatten_packages_twice (packages : list EPackage) (p : EPackage) :
  p ∈ flatten_packages (flatten_packages packages) <-> p ∈ flatten_packages packages.
Proof.
  unfold flatten_packages. rewrite !elem_of_flat_map. split.
  - intros (q & Hq & Hp). apply elem_of_flat_map in Hq as (t & Ht & Hq).
    exists t. split; [exact Ht|]. exact (flatten_package_closed t p q Hq Hp).
  - intros (t & Ht & Hp). exists p. split; [|apply flatten_package_self].
    apply elem_of_flat_map. exists t. split; assumption.
Qed.

Lemma flattened_indices_candidates (all_packages : list EPackage) :
  let r := _build_indices (flatten_packages all_packages) in
  (forall n q : string,
     q ∈ candidates (class_index r) n ->
     exists pkg, pkg ∈ flatten_packages all_packages
                 /\ pkg_name pkg = q /\ defines_class pkg n)
  /\ (forall n q : string,
        q ∈ candidates (enum_index r) n ->
        exists pkg, pkg ∈ flatten_packages all_packages
                    /\ pkg_name pkg = q /\ defines_enum pkg n).
Proof.
  cbv zeta. unfold _build_indices. split; intros n q Hq.
  - apply (build_indices_candidates (flatten_packages all_packages) empty_resolver n q)
      in Hq as [Hq|(pkg & Hpkg & H)].
    + cbn in Hq. rewrite candidates_empty in Hq. apply elem_of_nil in Hq. contradiction.
    + apply (proj1 (flatten_packages_twice _ _)) in Hpkg. exists pkg. split; [exact Hpkg | exact H].
  - apply (build_indices_candidates (flatten_packages all_packages) empty_resolver n q)
      in Hq as [Hq|(pkg & Hpkg & H)].
    + cbn in Hq. rewrite candidates_empty in Hq. apply elem_of_nil in Hq. contradiction.
    + apply (proj1 (flatten_packages_twice _ _)) in Hpkg. exists pkg. split; [exact Hpkg | exact H].
Qed.

(* ================================================================== *)
(** * Soundness of the resolution *)
(* ================================================================== *)

(** A property of classes that holds after any number of runs of the class
    loop holds of every class after [resolve]. *)
Lemma resolve_deep_classes (r : ReferenceResolver)
    (Before After : string -> EClass -> Prop) :
  (forall (p : string) (c : EClass) (k : nat),
     Before p c -> After p (Nat.iter (S k) (resolve_class r p) c)) ->
  forall (pkg : EPackage) (n : nat),
    Forall (fun pc => Before (fst pc) (snd pc)) (classes_of pkg) ->
    Forall (fun pc => After (fst pc) (snd pc)) (classes_of (resolve_deep r (S n) pkg)).
Proof.
  intros Hstep pkg.
  induction pkg as [pkg IH] using EPackage_tree_ind. intros n Hbefore.
  destruct pkg as [nm u p cs es ds subs sf an].
  cbn [resolve_deep classes_of pkg_name pkg_classes pkg_sub_packages] in *.
  apply Forall_app in Hbefore as [Hown Hsubs]. apply Forall_app. split.
  - rewrite map_map. rewrite Forall_fmap in Hown |- *.
    eapply Forall_impl; [exact Hown|]. intros c Hc. cbn [fst snd] in *.
    apply Hstep, Hc.
  - apply Forall_flat_map. rewrite Forall_fmap.
    rewrite Forall_flat_map in Hsubs.
    rewrite Forall_forall in IH, Hsubs |- *.
    intros s Hs. apply (IH s Hs (S n)), Hsubs, Hs.
Qed.

Lemma resolve_classes (r : ReferenceResolver)
    (Before After : string -> EClass -> Prop) (store : list EPackage) :
  (forall (p : string) (c : EClass) (k : nat),
     Before p c -> After p (Nat.iter (S k) (resolve_class r p) c)) ->
  Forall (fun pc => Before (fst pc) (snd pc)) (flat_map classes_of store) ->
  Forall (fun pc => After (fst pc) (snd pc)) (flat_map classes_of (resolve r store)).
Proof.
  intros Hstep Hbefore. rewrite resolve_is_resolve_deep.
  rewrite Forall_flat_map in Hbefore. apply Forall_flat_map, Forall_fmap.
  rewrite Forall_forall in Hbefore |- *. intros pkg Hpkg.
  apply (resolve_deep_classes r Before After Hstep pkg 0), Hbefore, Hpkg.
Qed.

Lemma resolve_target_cases (r : ReferenceResolver) (pkg : string) (ref : EReference) :
  resolve_target r pkg ref = pkg
  \/ resolve_target r pkg ref ∈ candidates (class_index r) (ref_e_type ref)
  \/ resolve_target r pkg ref ∈ candidates (enum_index r) (ref_e_type ref).
Proof.
  unfold resolve_target.
  destruct (resolve_type r (ref_e_type ref) (ref_source_hint ref) pkg (class_index r))
    as [p|] eqn:Hc; cbn [Py.truthy_opt].
  - destruct (Py.truthy p).
    + right. left. simpl. eapply resolve_type_in_candidates, Hc.
    + destruct (resolve_type r (ref_e_type ref) (ref_source_hint ref) pkg (enum_index r))
        as [q|] eqn:He; cbn [Py.or_else]; [|left; reflexivity].
      destruct (Py.truthy q); [|left; reflexivity].
      right. right. eapply resolve_type_in_candidates, He.
  - destruct (resolve_type r (ref_e_type ref) (ref_source_hint ref) pkg (enum_index r))
      as [q|] eqn:He; cbn [Py.or_else]; [|left; reflexivity].
    destruct (Py.truthy q); [|left; reflexivity].
    right. right. eapply resolve_type_in_candidates, He.
Qed.

Lemma resolve_super_cases (r : ReferenceResolver) (pkg : string) (st : string) :
  fst (resolve_super r pkg st) = pkg
  \/ fst (resolve_super r pkg st)
     ∈ candidates (class_index r) (snd (resolve_super r pkg st)).
Proof.
  unfold resolve_super.
  destruct (_extract_type_info_from_uri st) as [type_name source_hint].
  cbn [fst snd].
  destruct (resolve_type r type_name source_hint pkg (class_index r)) as [p|] eqn:Hc;
    cbn [Py.or_else]; [|left; reflexivity].
  destruct (Py.truthy p); [|left; reflexivity].
  right. eapply resolve_type_in_candidates, Hc.
Qed.

(** X3.  After the resolution step of [convert], the package stored in a
    reference is the package of its class, or a package of the input,
    sub-packages included, that defines a class or an enum with the name
    of the reference's type. *)
Theorem resolved_references_name_defining_packages (all_packages : list EPackage) :
  Forall (fun pc : string * EClass =>
            Forall (fun ref : EReference =>
                      exists owner : string,
                        ref_resolved_package ref = Some owner
                        /\ (owner = fst pc
                            \/ exists pkg : EPackage,
                                 pkg ∈ flatten_packages all_packages
                                 /\ pkg_name pkg = owner
                                 /\ (defines_class pkg (ref_e_type ref)
                                     \/ defines_enum pkg (ref_e_type ref))))
                   (cls_references (snd pc)))
         (flat_map classes_of (resolve_all all_packages)).
Proof.
  unfold resolve_all.
  apply (resolve_classes _ (fun _ _ => True)
           (fun p c =>
              Forall (fun ref : EReference =>
                        exists owner : string,
                          ref_resolved_package ref = Some owner
                          /\ (owner = p
                              \/ exists pkg : EPackage,
                                   pkg ∈ flatten_packages all_packages
                                   /\ pkg_name pkg = owner
                                   /\ (defines_class pkg (ref_e_type ref)
                                       \/ defines_enum pkg (ref_e_type ref))))
                     (cls_references c)));
    [|apply Forall_forall; auto].
  intros p c k _. rewrite iter_resolve_class_references_stable.
  apply Forall_fmap, Forall_forall. intros ref _.
  exists (resolve_target (_build_indices (flatten_packages all_packages)) p ref).
  split; [reflexivity|]. cbn [resolve_reference ref_e_type].
  destruct (flattened_indices_candidates all_packages) as [Hc He].
  destruct (resolve_target_cases (_build_indices (flatten_packages all_packages)) p ref)
    as [H|[H|H]]; [left; exact H | right | right].
  - apply Hc in H as (pkg & Hpkg & Hname & Hdef). eauto 6.
  - apply He in H as (pkg & Hpkg & Hname & Hdef). eauto 6.
Qed.

(** X4.  When no class has resolved super types yet, as after parsing,
    the resolution step of [convert] leaves in every class a whole number
    of copies, at least one, of the pairs of its super-type tokens in
    their order, and the package of each pair is the package of the class
    or a package of the input that defines a class with the name of the
    pair. *)
Theorem resolved_supers_name_defining_packages (all_packages : list EPackage) :
  Forall (fun pc : string * EClass => cls_resolved_supers (snd pc) = [])
         (flat_map classes_of all_packages) ->
  Forall (fun pc : string * EClass =>
            (exists copies : nat,
               1 <= copies
               /\ cls_resolved_supers (snd pc)
                  = concat (replicate copies
                              (map (resolve_super
                                      (_build_indices (flatten_packages all_packages))
                                      (fst pc))
                                   (cls_super_types (snd pc)))))
            /\ Forall (fun pair : string * string =>
                         fst pair = fst pc
                         \/ exists pkg : EPackage,
                              pkg ∈ flatten_packages all_packages
                              /\ pkg_name pkg = fst pair
                              /\ defines_class pkg (snd pair))
                      (cls_resolved_supers (snd pc)))
         (flat_map classes_of (resolve_all all_packages)).
Proof.
  intros Hfresh. unfold resolve_all.
  set (r := _build_indices (flatten_packages all_packages)).
  apply (resolve_classes r
           (fun _ c => cls_resolved_supers c = [])
           (fun p c =>
              (exists copies : nat,
                 1 <= copies
                 /\ cls_resolved_supers c
                    = concat (replicate copies
                                (map (resolve_super r p) (cls_super_types c))))
              /\ Forall (fun pair : string * string =>
                           fst pair = p
                           \/ exists pkg : EPackage,
                                pkg ∈ flatten_packages all_packages
                                /\ pkg_name pkg = fst pair
                                /\ defines_class pkg (snd pair))
                        (cls_resolved_supers c)));
    [|exact Hfresh].
  intros p c k Hc.
  destruct (iter_resolve_class_supers r p c (S k)) as [Hs Ht].
  rewrite Hs, Ht, Hc. cbn [app]. split.
  - exists (S k). split; [lia | reflexivity].
  - apply Forall_concat, Forall_replicate.
    apply Forall_fmap, Forall_forall. intros st _.
    destruct (resolve_super_cases r p st) as [H|H]; [left; exact H | right].
    destruct (flattened_indices_candidates all_packages) as [Hcls _].
    apply Hcls in H as (pkg & Hpkg & Hname & Hdef). eauto.
Qed.

Lemma resolved_supers_name_defining_packages_witness :
  Forall (fun pc : string * EClass =>
            exists copies : nat,
              1 <= copies
              /\ length (cls_resolved_supers (snd pc))
                 = copies * length (cls_super_types (snd pc)))
         (flat_map classes_of (resolve_all [package_outer])).
Proof.
  eapply Forall_impl.
  - apply (resolved_supers_name_defining_packages [package_outer]).
    repeat constructor.
  - intros pc ((copies & Hpos & Heq) & _). exists copies. split; [exact Hpos|].
    rewrite Heq. clear Heq. induction copies as [|n IH]; [reflexivity|].
    cbn [replicate concat]. rewrite List.length_app, length_map.
    destruct n as [|n]; [cbn; lia|]. rewrite IH by lia. lia.
Defined.

Lemma erase_resolve_class (r : ReferenceResolver) (p : string) (c : EClass) :
  erase_class (resolve_class r p c) = erase_class c.
Proof.
  unfold erase_class, resolve_class. cbn. f_equal.
  rewrite map_map. apply map_ext. intros ref. reflexivity.
Qed.

Lemma erase_iter_resolve_class (r : ReferenceResolver) (p : string) (c : EClass)
    (n : nat) :
  erase_class (Nat.iter n (resolve_class r p) c) = erase_class c.
Proof.
  induction n as [|n IH]; [reflexivity|].
  rewrite Nat.iter_succ, erase_resolve_class. exact IH.
Qed.

Lemma erase_resolve_deep (r : ReferenceResolver) (pkg : EPackage) :
  forall n : nat, erase_package (resolve_deep r n pkg) = erase_package pkg.
Proof.
  induction pkg as [pkg IH] using EPackage_tree_ind. intros n.
  destruct pkg as [nm u p cs es ds subs sf an].
  cbn [resolve_deep erase_package pkg_name pkg_ns_uri pkg_ns_prefix pkg_classes
       pkg_enums pkg_data_types pkg_sub_packages pkg_source_file pkg_annotations] in *.
  f_equal.
  - rewrite map_map. apply map_ext. intros c. apply erase_iter_resolve_class.
  - rewrite map_map. apply map_ext_Forall.
    eapply Forall_impl; [exact IH|]. intros s Hs. apply Hs.
Qed.

(** X5.  The resolution writes nothing but [resolved_supers] and
    [resolved_package]: with these two fields put back to their initial
    values, the packages after [resolve] are the packages before it. *)
Theorem resolve_writes_only_resolved_fields (r : ReferenceResolver)
    (store : list EPackage) :
  map erase_package (resolve r store) = map erase_package store.
Proof.
  rewrite resolve_is_resolve_deep, map_map. apply map_ext.
  intros pkg. apply erase_resolve_deep.
Qed.

(* ================================================================== *)
(** * What the parser builds *)
(* ================================================================== *)

Lemma parse_package_unfold (elem : Element) (filepath : string) :
  EcoreParser._parse_package elem filepath
  = package_loop (fun child => EcoreParser._parse_package child filepath)
      (children elem) (initial_package elem filepath).
Proof. destruct elem; reflexivity. Qed.

Lemma bind_ok {A B : Type} (m : result A) (k : A -> result B) (b : B) :
  m ≫= k = Ok b -> exists a, m = Ok a /\ k a = Ok b.
Proof. destruct m as [a|e]; [eauto | discriminate]. Qed.

Lemma fmap_ok {A B : Type} (f : A -> B) (m : result A) (b : B) :
  f <$> m = Ok b -> exists a, m = Ok a /\ b = f a.
Proof. destruct m as [a|e]; [intros [= <-]; eauto | discriminate]. Qed.

Lemma parse_reference_unresolved (elem : Element) (ref : EReference) :
  EcoreParser._parse_reference elem = Ok ref -> ref_resolved_package ref = None.
Proof.
  unfold EcoreParser._parse_reference. cbv zeta. intros H.
  apply bind_ok in H as (ti & _ & H). apply bind_ok in H as (lo & _ & H).
  apply bind_ok in H as (hi & _ & H). injection H as <-. reflexivity.
Qed.

Lemma parse_features_keeps (cs : list Element) :
  forall cls cls' : EClass,
    EcoreParser.parse_features cs cls = Ok cls' ->
    cls_package_name cls' = cls_package_name cls
    /\ cls_name cls' = cls_name cls
    /\ cls_resolved_supers cls' = cls_resolved_supers cls
    /\ cls_super_types cls' = cls_super_types cls
    /\ (Forall (fun ref => ref_resolved_package ref = None) (cls_references cls) ->
        Forall (fun ref => ref_resolved_package ref = None) (cls_references cls'))
    /\ length (cls_attributes cls') + length (cls_references cls')
       = length (cls_attributes cls) + length (cls_references cls)
         + length (List.filter
                     (fun child => String.eqb (EcoreParser._strip_ns (tag child))
                                     "eStructuralFeatures") cs).
Proof.
  induction cs as [|child cs IH]; intros cls cls' H; cbn [EcoreParser.parse_features] in H.
  - injection H as <-. cbn. repeat split; auto with lia.
  - cbn [List.filter].
    destruct (String.eqb (EcoreParser._strip_ns (tag child)) "eStructuralFeatures").
    + apply bind_ok in H as (f & Hf & H).
      destruct (IH _ _ H) as (Hp & Hn & Hs & Ht & Hr & Hl).
      destruct f as [a|ref]; cbn in Hp, Hn, Hs, Ht, Hr, Hl |- *.
      * repeat split; try assumption. rewrite Hl, List.length_app. cbn. lia.
      * repeat split; try assumption.
        -- intros Hall. apply Hr. apply Forall_app. split; [exact Hall|].
           constructor; [|constructor].
           unfold EcoreParser.parse_feature in Hf. cbv zeta in Hf.
           repeat match type of Hf with
                  | (if ?b then _ else _) = _ => destruct b
                  | _ ≫= _ = _ => apply bind_ok in Hf as (likely & _ & Hf)
                  end;
             apply fmap_ok in Hf as (x & Hx & Heq); try discriminate;
             injection Heq as <-; eapply parse_reference_unresolved, Hx.
        -- rewrite Hl, List.length_app. cbn. lia.
    + exact (IH _ _ H).
Qed.

Lemma parse_class_fresh (elem : Element) (package_name : string) (cls : EClass) :
  EcoreParser._parse_class elem package_name = Ok cls ->
  cls_package_name cls = package_name /\ unresolved_class cls.
Proof.
  unfold EcoreParser._parse_class. cbv zeta. intros H.
  apply parse_features_keeps in H as (Hp & _ & Hs & _ & Hr & _).
  cbn in Hp, Hs, Hr. split; [exact Hp|]. split; [exact Hs|].
  apply Hr. constructor.
Qed.

Lemma parse_enum_owner (elem : Element) (package_name : string) (enum : EEnum) :
  EcoreParser._parse_enum elem package_name = Ok enum ->
  enum_package_name enum = package_name.
Proof.
  unfold EcoreParser._parse_enum. intros H.
  apply bind_ok in H as (lits & _ & H). injection H as <-. reflexivity.
Qed.

Lemma classifier_tag_is_no_subpackage_tag (t : string) :
  EcoreParser.is_classifier_tag t = true -> EcoreParser.is_subpackage_tag t = false.
Proof.
  unfold EcoreParser.is_classifier_tag. intros H.
  apply orb_true_iff in H as [H|H]; apply String.eqb_eq in H; subst t; reflexivity.
Qed.

Lemma package_as_parsed_add_class (filepath : string) (pkg : EPackage) (cls : EClass) :
  package_as_parsed filepath pkg ->
  cls_package_name cls = pkg_name pkg -> unresolved_class cls ->
  package_as_parsed filepath (add_class cls pkg).
Proof.
  intros (Hf & Hc & He) Hn Hu. repeat split; cbn; try assumption.
  apply Forall_app. split; [exact Hc|]. constructor; [split; assumption|constructor].
Qed.

Lemma package_as_parsed_add_enum (filepath : string) (pkg : EPackage) (enum : EEnum) :
  package_as_parsed filepath pkg ->
  enum_package_name enum = pkg_name pkg ->
  package_as_parsed filepath (add_enum enum pkg).
Proof.
  intros (Hf & Hc & He) Hn. repeat split; cbn; try assumption.
  apply Forall_app. split; [exact He|]. constructor; [assumption|constructor].
Qed.

(** The loop of [_parse_package]: the name stays, every classifier child
    adds one class, enum or data type, every sub-package child adds one
    sub-package, and what is added is as the parser builds it. *)
Lemma package_loop_spec (parse_sub : Element -> result EPackage)
    (filepath : string) (cs : list Element) :
  Forall (fun child => forall sub, parse_sub child = Ok sub ->
            Forall (package_as_parsed filepath) (flatten_package sub)) cs ->
  forall pkg pkg' : EPackage,
    package_loop parse_sub cs pkg = Ok pkg' ->
    pkg_name pkg' = pkg_name pkg
    /\ (package_as_parsed filepath pkg ->
        Forall (fun s => Forall (package_as_parsed filepath) (flatten_package s))
               (pkg_sub_packages pkg) ->
        package_as_parsed filepath pkg'
        /\ Forall (fun s => Forall (package_as_parsed filepath) (flatten_package s))
                  (pkg_sub_packages pkg'))
    /\ length (pkg_classes pkg') + length (pkg_enums pkg') + length (pkg_data_types pkg')
       = length (pkg_classes pkg) + length (pkg_enums pkg) + length (pkg_data_types pkg)
         + length (List.filter
                     (fun child => EcoreParser.is_classifier_tag
                                     (EcoreParser._strip_ns (tag child))) cs)
    /\ length (pkg_sub_packages pkg')
       = length (pkg_sub_packages pkg)
         + length (List.filter
                     (fun child => EcoreParser.is_subpackage_tag
                                     (EcoreParser._strip_ns (tag child))) cs).
Proof.
  induction 1 as [|child cs Hchild _ IH]; intros pkg pkg' H.
  - cbn in H. injection H as <-. cbn.
    split; [reflexivity|]. split; [intros Hp Hs; split; assumption|]. split; lia.
  - cbn [package_loop] in H. cbv zeta in H. cbn [List.filter].
    destruct (EcoreParser.is_classifier_tag (EcoreParser._strip_ns (tag child)))
      eqn:Hcls.
    + rewrite (classifier_tag_is_no_subpackage_tag _ Hcls).
      destruct (EcoreParser.classify child).
      * apply bind_ok in H as (cls & Hparse & H).
        destruct (IH _ _ H) as (Hn & Hinv & Hcount & Hsubs). cbn in Hn, Hcount, Hsubs.
        apply parse_class_fresh in Hparse as [Hown Hfresh].
        split; [exact Hn|]. split; [|split].
        -- intros Hp Hs. apply Hinv; [|exact Hs].
           apply package_as_parsed_add_class; assumption.
        -- rewrite Hcount, List.length_app. cbn. lia.
        -- exact Hsubs.
      * apply bind_ok in H as (enum & Hparse & H).
        destruct (IH _ _ H) as (Hn & Hinv & Hcount & Hsubs). cbn in Hn, Hcount, Hsubs.
        apply parse_enum_owner in Hparse.
        split; [exact Hn|]. split; [|split].
        -- intros Hp Hs. apply Hinv; [|exact Hs].
           apply package_as_parsed_add_enum; assumption.
        -- rewrite Hcount, List.length_app. cbn. lia.
        -- exact Hsubs.
      * destruct (IH _ _ H) as (Hn & Hinv & Hcount & Hsubs). cbn in Hn, Hcount, Hsubs.
        split; [exact Hn|]. split; [|split].
        -- intros Hp Hs. apply Hinv; [|exact Hs].
           destruct Hp as (Hf & Hc & He). repeat split; assumption.
        -- rewrite Hcount, List.length_app. cbn. lia.
        -- exact Hsubs.
    + destruct (EcoreParser.is_subpackage_tag (EcoreParser._strip_ns (tag child))).
      * apply bind_ok in H as (sub & Hparse & H).
        destruct (IH _ _ H) as (Hn & Hinv & Hcount & Hsubs). cbn in Hn, Hcount, Hsubs.
        split; [exact Hn|]. split; [|split].
        -- intros Hp Hs. apply Hinv.
           ++ destruct Hp as (Hf & Hc & He). repeat split; assumption.
           ++ cbn. apply Forall_app. split; [exact Hs|].
              constructor; [exact (Hchild sub Hparse)|constructor].
        -- exact Hcount.
        -- rewrite Hsubs, List.length_app. cbn. lia.
      * exact (IH _ _ H).
Qed.

Lemma initial_package_as_parsed (elem : Element) (filepath : string) :
  package_as_parsed filepath (initial_package elem filepath).
Proof. repeat split; constructor. Qed.

Lemma parse_package_as_parsed (filepath : string) (elem : Element) :
  forall pkg : EPackage,
    EcoreParser._parse_package elem filepath = Ok pkg ->
    Forall (package_as_parsed filepath) (flatten_package pkg).
Proof.
  induction elem as [elem IH] using Element_tree_ind. intros pkg H.
  rewrite parse_package_unfold in H.
  destruct (package_loop_spec _ filepath (children elem) IH _ _ H)
    as (_ & Hinv & _).
  destruct (Hinv (initial_package_as_parsed elem filepath)) as [Hp Hs];
    [constructor|].
  apply Forall_forall. intros p Hin.
  apply flatten_package_cases in Hin as [->|(s & Hs' & Hin)]; [exact Hp|].
  rewrite Forall_forall in Hs. specialize (Hs s Hs').
  rewrite Forall_forall in Hs. exact (Hs p Hin).
Qed.

Lemma parse_root_children_as_parsed (filepath : string) (cs : list Element) :
  forall acc packages : list EPackage,
    EcoreParser.parse_root_children cs filepath acc = Ok packages ->
    Forall (package_as_parsed filepath) (flatten_packages acc) ->
    Forall (package_as_parsed filepath) (flatten_packages packages).
Proof.
  induction cs as [|child cs IH]; intros acc packages H Hacc;
    cbn [EcoreParser.parse_root_children] in H.
  - injection H as <-. exact Hacc.
  - destruct (String.eqb _ "EPackage").
    + apply bind_ok in H as (pkg & Hpkg & H). apply (IH _ _ H).
      unfold flatten_packages. rewrite flat_map_app. apply Forall_app.
      split; [exact Hacc|]. cbn [flat_map]. rewrite app_nil_r.
      exact (parse_package_as_parsed filepath child pkg Hpkg).
    + exact (IH _ _ H Hacc).
Qed.

(** X6.  Every package that [parse_file] returns for a unit, and every
    sub-package below it, records the path of the unit as its source file;
    each of its classes and enums records the name of the package that
    owns it; and nothing is resolved yet: [resolved_supers] is empty and
    every [resolved_package] is null. *)
Theorem parsed_packages_are_owned_and_unresolved (u : input_unit)
    (packages : list EPackage) :
  parse_file u = Parsed packages ->
  Forall (fun pkg =>
            pkg_source_file pkg = fst u
            /\ Forall (fun cls =>
                         cls_package_name cls = pkg_name pkg
                         /\ cls_resolved_supers cls = []
                         /\ Forall (fun ref => ref_resolved_package ref = None)
                                   (cls_references cls))
                      (pkg_classes pkg)
            /\ Forall (fun enum => enum_package_name enum = pkg_name pkg)
                      (pkg_enums pkg))
         (flatten_packages packages).
Proof.
  unfold parse_file. destruct u as [filepath [message|e|root]]; cbn [fst snd];
    [discriminate | discriminate |].
  destruct (EcoreParser.parse_root root filepath) as [pkgs|e] eqn:Hroot;
    [|discriminate].
  intros [= <-]. change (Forall (package_as_parsed filepath) (flatten_packages pkgs)).
  unfold EcoreParser.parse_root in Hroot. cbv zeta in Hroot.
  destruct (String.eqb _ "EPackage").
  - apply bind_ok in Hroot as (pkg & Hpkg & [= <-]).
    unfold flatten_packages. cbn [flat_map]. rewrite app_nil_r.
    exact (parse_package_as_parsed filepath root pkg Hpkg).
  - destruct (String.eqb _ "XMI" || String.eqb _ "Resource").
    + apply (parse_root_children_as_parsed filepath _ [] pkgs Hroot). constructor.
    + apply bind_ok in Hroot as (pkg & Hpkg & Hroot).
      destruct (Py.truthy (pkg_name pkg)); injection Hroot as <-; [|constructor].
      unfold flatten_packages. cbn [flat_map]. rewrite app_nil_r.
      exact (parse_package_as_parsed filepath root pkg Hpkg).
Qed.

Lemma parsed_packages_are_owned_and_unresolved_witness :
  Forall (fun pkg => pkg_source_file pkg = "shapes.ecore")
         (flatten_packages
            (match parse_file ("shapes.ecore", WellFormed shapes_file) with
             | Parsed packages => packages
             | _ => []
             end)).
Proof.
  eapply Forall_impl.
  - apply (parsed_packages_are_owned_and_unresolved
             ("shapes.ecore", WellFormed shapes_file)).
    reflexivity.
  - intros pkg (Hfile & _). exact Hfile.
Defined.

(** The loop of [_parse_package], member by member: the attributes read
    from the element stay, and each child is parsed once, by the parser of
    its kind, and appended to the list of its kind. *)
Lemma package_loop_members (parse_sub : Element -> result EPackage)
    (cs : list Element) :
  forall pkg pkg' : EPackage,
    package_loop parse_sub cs pkg = Ok pkg' ->
    (pkg_name pkg' = pkg_name pkg
     /\ pkg_ns_uri pkg' = pkg_ns_uri pkg
     /\ pkg_ns_prefix pkg' = pkg_ns_prefix pkg
     /\ pkg_source_file pkg' = pkg_source_file pkg)
    /\ exists (classes : list EClass) (enums : list EEnum)
              (data_types : list EDataType) (subs : list EPackage),
         (pkg_classes pkg' = pkg_classes pkg ++ classes
          /\ pkg_enums pkg' = pkg_enums pkg ++ enums
          /\ pkg_data_types pkg' = pkg_data_types pkg ++ data_types
          /\ pkg_sub_packages pkg' = pkg_sub_packages pkg ++ subs)
         /\ Forall2 (fun child cls =>
                       EcoreParser._parse_class child (pkg_name pkg) = Ok cls)
                    (classifiers_of_kind KClass cs) classes
         /\ Forall2 (fun child enum =>
                       EcoreParser._parse_enum child (pkg_name pkg) = Ok enum)
                    (classifiers_of_kind KEnum cs) enums
         /\ data_types
            = map EcoreParser._parse_datatype (classifiers_of_kind KDataType cs)
         /\ Forall2 (fun child sub => parse_sub child = Ok sub)
                    (subpackages_of cs) subs.
Proof.
  induction cs as [|child cs IH]; intros pkg pkg' H.
  - cbn in H. injection H as <-. split; [repeat split|].
    exists [], [], [], []. rewrite !app_nil_r.
    split; [repeat split|]. repeat split; constructor.
  - cbn [package_loop] in H. cbv zeta in H.
    unfold classifiers_of_kind, subpackages_of. cbn [List.filter].
    fold (classifiers_of_kind KClass cs) (classifiers_of_kind KEnum cs)
         (classifiers_of_kind KDataType cs) (subpackages_of cs).
    destruct (EcoreParser.is_classifier_tag (EcoreParser._strip_ns (tag child)))
      eqn:Hcls; cbn [andb].
    + rewrite (classifier_tag_is_no_subpackage_tag _ Hcls).
      destruct (EcoreParser.classify child); cbn [same_kind].
      * apply bind_ok in H as (cls & Hparse & H).
        destruct (IH _ _ H) as (Hattrs & cl & en & dt & su & Hlists & Hc & He & Hd & Hs).
        cbn in Hattrs, Hlists, Hc, He. split; [exact Hattrs|].
        exists (cls :: cl), en, dt, su.
        destruct Hlists as (H1 & H2 & H3 & H4). rewrite <- app_assoc in H1.
        split; [repeat split; assumption|].
        split; [constructor; assumption|]. split; [exact He|]. split; assumption.
      * apply bind_ok in H as (enum & Hparse & H).
        destruct (IH _ _ H) as (Hattrs & cl & en & dt & su & Hlists & Hc & He & Hd & Hs).
        cbn in Hattrs, Hlists, Hc, He. split; [exact Hattrs|].
        exists cl, (enum :: en), dt, su.
        destruct Hlists as (H1 & H2 & H3 & H4). rewrite <- app_assoc in H2.
        split; [repeat split; assumption|].
        split; [exact Hc|]. split; [constructor; assumption|]. split; assumption.
      * destruct (IH _ _ H) as (Hattrs & cl & en & dt & su & Hlists & Hc & He & Hd & Hs).
        cbn in Hattrs, Hlists, Hc, He. split; [exact Hattrs|].
        exists cl, en, (EcoreParser._parse_datatype child :: dt), su.
        destruct Hlists as (H1 & H2 & H3 & H4). rewrite <- app_assoc in H3.
        split; [repeat split; assumption|].
        split; [exact Hc|]. split; [exact He|]. split; [|exact Hs].
        cbn [map]. rewrite Hd. reflexivity.
    + destruct (EcoreParser.is_subpackage_tag (EcoreParser._strip_ns (tag child))).
      * apply bind_ok in H as (sub & Hparse & H).
        destruct (IH _ _ H) as (Hattrs & cl & en & dt & su & Hlists & Hc & He & Hd & Hs).
        cbn in Hattrs, Hlists, Hc, He. split; [exact Hattrs|].
        exists cl, en, dt, (sub :: su).
        destruct Hlists as (H1 & H2 & H3 & H4). rewrite <- app_assoc in H4.
        split; [repeat split; assumption|].
        split; [exact Hc|]. split; [exact He|]. split; [exact Hd|].
        constructor; assumption.
      * exact (IH _ _ H).
Qed.

(** X7.  When [_parse_package] succeeds, the package has the name, URI and
    prefix given by the attributes [name], [nsURI] and [nsPrefix] of the
    element (empty when absent) and the file path it was given.  Its
    classes are the [eClassifiers] children taken for classes, each parsed
    by [_parse_class] with the name of the package, one class per child
    and in document order; likewise its enums with [_parse_enum] and its
    data types with [_parse_datatype]; and its sub-packages are the
    [eSubpackages] children, each parsed by [_parse_package] with the same
    path, one per child and in document order. *)
Theorem parse_package_accounts_for_every_child (elem : Element)
    (filepath : string) (pkg : EPackage) :
  EcoreParser._parse_package elem filepath = Ok pkg ->
  (pkg_name pkg = get_or elem "name" ""
   /\ pkg_ns_uri pkg = get_or elem "nsURI" ""
   /\ pkg_ns_prefix pkg = get_or elem "nsPrefix" ""
   /\ pkg_source_file pkg = filepath)
  /\ Forall2 (fun child cls => EcoreParser._parse_class child (pkg_name pkg) = Ok cls)
             (classifiers_of_kind KClass (children elem)) (pkg_classes pkg)
  /\ Forall2 (fun child enum => EcoreParser._parse_enum child (pkg_name pkg) = Ok enum)
             (classifiers_of_kind KEnum (children elem)) (pkg_enums pkg)
  /\ pkg_data_types pkg
     = map EcoreParser._parse_datatype (classifiers_of_kind KDataType (children elem))
  /\ Forall2 (fun child sub => EcoreParser._parse_package child filepath = Ok sub)
             (subpackages_of (children elem)) (pkg_sub_packages pkg).
Proof.
  intros H. rewrite parse_package_unfold in H.
  destruct (package_loop_members _ _ _ _ H)
    as ((Hn & Hu & Hp & Hf) & cl & en & dt & su & (H1 & H2 & H3 & H4) & Hc & He & Hd & Hs).
  cbn in Hn, Hu, Hp, Hf, H1, H2, H3, H4, Hc, He.
  rewrite Hn, H1, H2, H3, H4, Hd.
  split; [repeat split; assumption|]. repeat split; assumption.
Qed.

Lemma parse_package_accounts_for_every_child_witness :
  exists pkg : EPackage,
    EcoreParser._parse_package shapes_file "shapes.ecore" = Ok pkg
    /\ pkg_name pkg = "shapes"
    /\ Forall2 (fun child cls => EcoreParser._parse_class child (pkg_name pkg) = Ok cls)
               (classifiers_of_kind KClass (children shapes_file)) (pkg_classes pkg).
Proof.
  eexists. split; [reflexivity|].
  destruct (parse_package_accounts_for_every_child shapes_file "shapes.ecore" _ eq_refl)
    as ((Hn & _) & Hc & _).
  split; [exact Hn | exact Hc].
Defined.

(* ================================================================== *)
(** * Annotations as parsed *)
(* ================================================================== *)

Lemma dict_set_keys (k v : string) (d : dict) :
  map fst (dict_set k v d)
  = if bool_decide (k ∈ map fst d) then map fst d else map fst d ++ [k].
Proof.
  induction d as [|[k' v'] d IH]; cbn [dict_set map fst].
  - rewrite bool_decide_eq_false_2 by apply not_elem_of_nil. reflexivity.
  - destruct (String.eqb k' k) eqn:Hk.
    + apply String.eqb_eq in Hk. subst k'.
      rewrite bool_decide_eq_true_2 by (apply elem_of_cons; left; reflexivity).
      reflexivity.
    + apply String.eqb_neq in Hk. cbn [map fst]. rewrite IH.
      case_bool_decide as Hin.
      * rewrite bool_decide_eq_true_2 by (apply elem_of_cons; right; exact Hin).
        reflexivity.
      * rewrite bool_decide_eq_false_2; [reflexivity|].
        intros Hin'. apply elem_of_cons in Hin' as [->|Hin']; contradiction.
Qed.

Lemma dict_get_set (k v k' : string) (d : dict) :
  dict_get k' (dict_set k v d) = if String.eqb k k' then Some v else dict_get k' d.
Proof.
  induction d as [|[k0 v0] d IH]; cbn [dict_set dict_get].
  - destruct (String.eqb k k'); reflexivity.
  - destruct (String.eqb k0 k) eqn:Hk0.
    + apply String.eqb_eq in Hk0. subst k0. cbn [dict_get].
      destruct (String.eqb k k'); reflexivity.
    + cbn [dict_get]. rewrite IH.
      destruct (String.eqb k0 k') eqn:Hk0'; [|reflexivity].
      apply String.eqb_eq in Hk0'. subst k0. rewrite String.eqb_sym, Hk0. reflexivity.
Qed.

(** The step of the loop of [parse_details]. *)
Lemma parse_details_keys (cs : list Element) :
  forall details : dict,
    NoDup (map fst details) ->
    Forall (fun k => k <> "") (map fst details) ->
    let details' :=
      fold_left (fun details detail =>
                   if String.eqb (EcoreParser._strip_ns (tag detail)) "details"
                   then let key := get_or detail "key" "" in
                        let value := get_or detail "value" "" in
                        if Py.truthy key then dict_set key value details else details
                   else details) cs details in
    NoDup (map fst details') /\ Forall (fun k => k <> "") (map fst details').
Proof.
  induction cs as [|c cs IH]; intros details Hnd Hne; cbn [fold_left];
    [split; assumption|].
  apply IH.
  - destruct (String.eqb _ "details"); [|exact Hnd]. cbv zeta.
    destruct (Py.truthy (get_or c "key" "")); [|exact Hnd].
    rewrite dict_set_keys. case_bool_decide as Hin; [exact Hnd|].
    apply NoDup_app. split; [exact Hnd|]. split; [|apply NoDup_singleton].
    intros x Hx Hx'. apply list_elem_of_singleton in Hx'. subst x. contradiction.
  - destruct (String.eqb _ "details"); [|exact Hne]. cbv zeta.
    destruct (Py.truthy (get_or c "key" "")) eqn:Hk; [|exact Hne].
    rewrite dict_set_keys. case_bool_decide as Hin; [exact Hne|].
    apply Forall_app. split; [exact Hne|]. constructor; [|constructor].
    apply truthy_iff, Hk.
Qed.

(** X8.  Every annotation that [_parse_annotations] returns has at least
    one detail, no detail has an empty key, and no key occurs twice in the
    details of one annotation. *)
Theorem parsed_annotations_have_keyed_details (elem : Element) :
  Forall (fun ann =>
            ann_details ann <> []
            /\ NoDup (map fst (ann_details ann))
            /\ Forall (fun kv => fst kv <> "") (ann_details ann))
         (EcoreParser._parse_annotations elem).
Proof.
  unfold EcoreParser._parse_annotations.
  assert (Hgen : forall (cs : list Element) (acc : list EAnnotation),
    Forall (fun ann =>
              ann_details ann <> []
              /\ NoDup (map fst (ann_details ann))
              /\ Forall (fun kv => fst kv <> "") (ann_details ann)) acc ->
    Forall (fun ann =>
              ann_details ann <> []
              /\ NoDup (map fst (ann_details ann))
              /\ Forall (fun kv => fst kv <> "") (ann_details ann))
      (fold_left (fun annotations child =>
                    if String.eqb (EcoreParser._strip_ns (tag child)) "eAnnotations"
                    then let source := get_or child "source" "" in
                         let details := EcoreParser.parse_details child in
                         match details with
                         | [] => annotations
                         | _ => annotations ++ [mkEAnnotation source details]
                         end
                    else annotations) cs acc)).
  { induction cs as [|c cs IH]; intros acc Hacc; cbn [fold_left]; [exact Hacc|].
    apply IH. destruct (String.eqb _ "eAnnotations"); [|exact Hacc]. cbv zeta.
    destruct (EcoreParser.parse_details c) as [|kv d] eqn:Hd; [exact Hacc|].
    apply Forall_app. split; [exact Hacc|]. constructor; [|constructor].
    cbn [ann_details]. split; [discriminate|].
    destruct (parse_details_keys (children c) []) as [Hnd Hne];
      [constructor | constructor |].
    unfold EcoreParser.parse_details in Hd. cbv zeta in Hd, Hnd, Hne.
    rewrite Hd in Hnd, Hne.
    split; [exact Hnd|]. rewrite Forall_fmap in Hne. exact Hne. }
  apply Hgen. constructor.
Qed.

(* ================================================================== *)
(** * When the reading of a type token fails *)
(* ================================================================== *)

Lemma rsplit1_blank (s : string) :
  all_chars Py.is_space s = true -> Py.rsplit1 "#//" s = None.
Proof.
  induction s as [|c s IH]; intros H; [reflexivity|].
  cbn [all_chars] in H. apply andb_true_iff in H as [Hc Hs].
  cbn [Py.rsplit1]. rewrite (IH Hs). cbn [Py.starts_with].
  destruct (Ascii.eqb "#" c) eqn:Heq; [|reflexivity].
  apply Ascii.eqb_eq in Heq. subst c. discriminate.
Qed.

Lemma split_ws_from_nil (s : string) :
  forall cur : string,
    Py.split_ws_from cur s = [] <-> cur = "" /\ all_chars Py.is_space s = true.
Proof.
  induction s as [|c s IH]; intros cur; cbn [Py.split_ws_from all_chars].
  - destruct cur; cbn; split; try tauto; try discriminate; intros [H _]; discriminate.
  - destruct (Py.is_space c); cbn [andb].
    + destruct cur; cbn [Py.truthy].
      * rewrite IH. tauto.
      * split; [discriminate|]. intros [H _]. discriminate.
    + split; [|intros [_ H]; discriminate].
      intros H. apply IH in H as [H _]. destruct cur; discriminate.
Qed.

Lemma extract_type_info_outcome (etype_raw : string) :
  (EcoreParser._extract_type_info etype_raw = Raise IndexError
   <-> etype_raw <> "" /\ all_chars Py.is_space etype_raw = true)
  /\ (forall e : exn, EcoreParser._extract_type_info etype_raw = Raise e ->
                      e = IndexError)
  /\ (etype_raw = "" \/ all_chars Py.is_space etype_raw = false ->
      exists (type_name : string) (source_hint : option string),
        EcoreParser._extract_type_info etype_raw = Ok (type_name, source_hint)).
Proof.
  unfold EcoreParser._extract_type_info.
  destruct (Py.truthy etype_raw) eqn:Hne; cbn [negb].
  - apply truthy_iff in Hne.
    destruct (Py.rsplit1 "#//" etype_raw) as [[l rgt]|] eqn:Hsplit.
    + split; [|split].
      * split; [discriminate|]. intros [_ Hblank].
        rewrite (rsplit1_blank _ Hblank) in Hsplit. discriminate.
      * discriminate.
      * intros _. eauto.
    + destruct (Py.split_ws etype_raw) as [|w ws] eqn:Hws.
      * apply (split_ws_from_nil etype_raw "") in Hws as [_ Hblank].
        split; [|split].
        -- split; [intros _; split; assumption | reflexivity].
        -- intros e [= <-]. reflexivity.
        -- intros [H|H]; [contradiction | congruence].
      * split; [|split].
        -- split; [discriminate|]. intros [_ Hblank].
           assert (Hnil : Py.split_ws etype_raw = [])
             by (apply (split_ws_from_nil etype_raw ""); split; [reflexivity | exact Hblank]).
           congruence.
        -- discriminate.
        -- intros _. eauto.
  - apply truthy_false_iff in Hne. subst etype_raw.
    split; [|split].
    + split; [discriminate|]. intros [H _]. contradiction.
    + discriminate.
    + intros _. eauto.
Qed.

Lemma ascii_blank_is_space (c : ascii) :
  (Py.code c <? 128)%nat = true -> Py.is_space c = ascii_blank c.
Proof. each_char c. Qed.

Lemma ascii_blank_text (s : string) :
  ascii_text s = true -> all_chars Py.is_space s = all_chars ascii_blank s.
Proof.
  unfold ascii_text. induction s as [|c s IH]; [reflexivity|].
  cbn [all_chars]. intros H. apply andb_true_iff in H as [Hc Hs].
  rewrite (ascii_blank_is_space c Hc), (IH Hs). reflexivity.
Qed.

(** X9.  On a token of ASCII characters, [_extract_type_info] raises
    [IndexError] exactly when the token is not empty and made of white
    space only (TAB, LF, VT, FF, CR, FS, GS, RS, US, blank); it raises no
    other exception, and on every other token it returns a type name. *)
Theorem extract_type_info_fails_on_blank_tokens_only (etype_raw : string) :
  ascii_text etype_raw = true ->
  (EcoreParser._extract_type_info etype_raw = Raise IndexError
   <-> etype_raw <> "" /\ all_chars ascii_blank etype_raw = true)
  /\ (forall e : exn, EcoreParser._extract_type_info etype_raw = Raise e ->
                      e = IndexError)
  /\ (etype_raw = "" \/ all_chars ascii_blank etype_raw = false ->
      exists (type_name : string) (source_hint : option string),
        EcoreParser._extract_type_info etype_raw = Ok (type_name, source_hint)).
Proof.
  intros Hascii. rewrite <- (ascii_blank_text etype_raw Hascii).
  apply extract_type_info_outcome.
Qed.

Lemma extract_type_info_fails_on_blank_tokens_only_witness :
  exists (type_name : string) (source_hint : option string),
    EcoreParser._extract_type_info "ecore:EClass base.ecore#//Named"
    = Ok (type_name, source_hint).
Proof.
  apply (extract_type_info_fails_on_blank_tokens_only
           "ecore:EClass base.ecore#//Named" eq_refl).
  right. reflexivity.
Defined.

(* ================================================================== *)
(** * Names in the generated text *)
(* ================================================================== *)

Example to_field_name_examples :
  _to_field_name "employeeCount" = "employee_count"
  /\ _to_field_name "XMLParser" = "xml_parser"
  /\ _to_field_name "MAX_SIZE" = "max_size"
  /\ _to_field_name "2ndLine" = "field_2nd_line"
  /\ _to_field_name "--" = "unknown".
Proof. repeat split; reflexivity. Qed.

Lemma replace_unless_chars (keep : ascii -> bool) (s : string) :
  keep "_"%char = true -> all_chars keep (Py.replace_unless keep s) = true.
Proof.
  intros Hk. induction s as [|c s IH]; [reflexivity|].
  change (all_chars keep (String (if keep c then c else "_"%char)
                                 (Py.replace_unless keep s)) = true).
  cbn [all_chars]. rewrite IH. destruct (keep c) eqn:Hc; rewrite ?Hc, ?Hk; reflexivity.
Qed.

(** Collapsing and stripping a string of lower-case word characters gives
    the empty string or a tidy one. *)
Lemma strip_collapse_tidy (s : string) :
  all_chars is_lower_word_char s = true ->
  let v := Py.strip_by (Py.is_char "_") (Py.collapse_underscores s) in
  v = "" \/ tidy v = true.
Proof.
  intros Hall. cbv zeta.
  pose proof (collapse_no_double s Hall) as Hnd.
  destruct (lstrip_no_double _ Hnd) as [Hl Hfirst].
  unfold Py.strip_by.
  destruct (Py.truthy (Py.rstrip_by (Py.is_char "_")
                         (Py.lstrip_by (Py.is_char "_") (Py.collapse_underscores s))))
    eqn:Hlast.
  - right. unfold tidy.
    rewrite Hlast, (rstrip_first _ Hfirst), (rstrip_tidy_tail _ Hl). reflexivity.
  - left. apply truthy_false_iff, Hlast.
Qed.

Lemma lower_word_letter (c : ascii) :
  is_lower_word_char c = true -> Py.is_char "_" c = false ->
  Py.is_digit c = false -> Py.is_lower c = true.
Proof. each_char c. Qed.

Lemma tidy_field_prefix (v : string) : tidy v = true -> tidy ("field_" +:+ v) = true.
Proof.
  intros Hv. destruct (tidy_parts v Hv) as (Hne & Hfirst & Ht).
  destruct v as [|c v]; [contradiction|]. cbn [first_is_underscore] in Hfirst.
  change ("field_" +:+ String c v)
    with (String "f" (String "i" (String "e" (String "l" (String "d"
            (String "_" (String c v))))))).
  unfold tidy. cbn [Py.truthy first_is_underscore tidy_tail].
  cbn [tidy_tail] in Ht. rewrite Ht, Hfirst. reflexivity.
Qed.

(** X10.  Whatever the name, [_to_field_name] returns a lower-snake
    identifier: not empty, starting with a lower-case letter, made of
    lower-case letters, digits and underscores, with no underscore
    doubled or last. *)
Theorem to_field_name_is_an_identifier (name : string) :
  tidy (_to_field_name name) = true
  /\ first_is_lower (_to_field_name name) = true
  /\ all_chars is_lower_word_char (_to_field_name name) = true.
Proof.
  assert (Hmain : tidy (_to_field_name name) = true
                  /\ first_is_lower (_to_field_name name) = true).
  { unfold _to_field_name. cbv zeta.
    match goal with
    | |- context [Py.strip_by _ (Py.collapse_underscores ?y)] =>
        destruct (strip_collapse_tidy y) as [Hv|Hv];
          [apply replace_unless_chars; reflexivity | |];
          set (v := Py.strip_by _ (Py.collapse_underscores y)) in *
    end.
    - rewrite Hv. split; reflexivity.
    - destruct (tidy_parts v Hv) as (Hne & Hfirst & Ht).
      destruct v as [|c v'] eqn:Hveq; [contradiction|].
      destruct (Py.is_digit c) eqn:Hd.
      + rewrite (proj2 (truthy_iff ("field_" +:+ String c v'))) by discriminate.
        split; [apply tidy_field_prefix, Hv | reflexivity].
      + cbn [Py.truthy]. split; [exact Hv|].
        cbn [first_is_lower]. cbn [first_is_underscore] in Hfirst.
        apply tidy_tail_cons in Ht as (Hc & _ & _).
        apply lower_word_letter; assumption. }
  destruct Hmain as [Ht Hl]. split; [exact Ht|]. split; [exact Hl|].
  destruct (tidy_parts _ Ht) as (_ & _ & Htail). clear Ht Hl.
  induction (_to_field_name name) as [|c s IH]; [reflexivity|].
  apply tidy_tail_cons in Htail as (Hc & Hs & _).
  cbn [all_chars]. rewrite Hc, (IH Hs). reflexivity.
Qed.

(** X11.  [_package_to_filename] returns a stem followed by [.proto]; the
    stem is tidy (lower-case letters, digits and underscores, no
    underscore first, last or doubled) or empty: a package whose name has
    no letter and no digit gets the file name [.proto]. *)
Theorem package_to_filename_has_a_tidy_stem (name : string) :
  exists stem : string,
    _package_to_filename name = stem +:+ ".proto"
    /\ (stem = "" \/ tidy stem = true).
Proof.
  unfold _package_to_filename. cbv zeta.
  match goal with
  | |- context [Py.strip_by _ (Py.collapse_underscores ?y)] =>
      exists (Py.strip_by (Py.is_char "_") (Py.collapse_underscores y));
        split; [reflexivity|];
        apply strip_collapse_tidy, replace_unless_chars; reflexivity
  end.
Qed.

Example package_to_filename_examples :
  _package_to_filename "assetCommon" = "asset_common.proto"
  /\ _package_to_filename "My-Pkg" = "my_pkg.proto"
  /\ _package_to_filename "" = ".proto".
Proof. repeat split; reflexivity. Qed.

(** X12.  [_to_option_field_name] returns the empty string or a tidy
    name, whatever the source and the key. *)
Theorem option_field_name_is_tidy_or_empty (source_short key : string) :
  _to_option_field_name source_short key = ""
  \/ tidy (_to_option_field_name source_short key) = true.
Proof.
  unfold _to_option_field_name. cbv zeta.
  apply strip_collapse_tidy, replace_unless_chars. reflexivity.
Qed.

Example option_field_name_can_be_empty : _to_option_field_name "" "-" = "".
Proof. reflexivity. Qed.

Lemma rstrip_unchanged (p : ascii -> bool) (s : string) :
  all_chars (fun c => negb (p c)) s = true -> Py.rstrip_by p s = s.
Proof.
  induction s as [|c s IH]; intros H; [reflexivity|].
  cbn [all_chars] in H. apply andb_true_iff in H as [Hc Hs].
  cbn [Py.rstrip_by]. rewrite (IH Hs).
  destruct s; [|reflexivity]. destruct (p c); [discriminate|reflexivity].
Qed.

Lemma rsplit1_slash_none (s : string) :
  all_chars (fun c => negb (Py.is_char "/" c)) s = true -> Py.rsplit1 "/" s = None.
Proof.
  induction s as [|c s IH]; intros H; [reflexivity|].
  cbn [all_chars] in H. apply andb_true_iff in H as [Hc Hs].
  cbn [Py.rsplit1]. rewrite (IH Hs). cbn [Py.starts_with].
  unfold Py.is_char in Hc. destruct (Ascii.eqb "/" c); [discriminate|reflexivity].
Qed.

Lemma lower_word_no_slash (c : ascii) :
  is_lower_word_char c = true -> negb (Py.is_char "/" c) = true.
Proof. each_char c. Qed.

Lemma lower_word_is_word (c : ascii) :
  is_lower_word_char c = true -> is_word_char c = true.
Proof. each_char c. Qed.

Lemma all_chars_impl (p q : ascii -> bool) (s : string) :
  (forall c, p c = true -> q c = true) ->
  all_chars p s = true -> all_chars q s = true.
Proof.
  intros Hpq. induction s as [|c s IH]; intros H; [reflexivity|].
  cbn [all_chars] in *. apply andb_true_iff in H as [Hc Hs].
  rewrite (Hpq c Hc), (IH Hs). reflexivity.
Qed.

Lemma tidy_tail_all_chars (s : string) :
  tidy_tail s = true -> all_chars is_lower_word_char s = true.
Proof.
  induction s as [|c s IH]; intros H; [reflexivity|].
  apply tidy_tail_cons in H as (Hc & Hs & _).
  cbn [all_chars]. rewrite Hc, (IH Hs). reflexivity.
Qed.

Lemma collapse_tidy (s : string) :
  tidy_tail s = true -> Py.collapse_underscores s = s.
Proof.
  induction s as [|c s IH]; intros Ht; [reflexivity|].
  pose proof Ht as Ht0. apply tidy_tail_cons in Ht as (_ & Hs & _).
  destruct s as [|d s]; [reflexivity|].
  rewrite collapse_cons, (tidy_tail_next c d s Ht0), (IH Hs). reflexivity.
Qed.

Lemma rstrip_tidy (s : string) :
  tidy_tail s = true -> Py.rstrip_by (Py.is_char "_") s = s.
Proof.
  induction s as [|c s IH]; intros Ht; [reflexivity|].
  apply tidy_tail_cons in Ht as (_ & Hs & Hlast).
  cbn [Py.rstrip_by]. rewrite (IH Hs).
  destruct s; [|reflexivity]. rewrite (Hlast eq_refl). reflexivity.
Qed.

Lemma shorten_tidy_fixed (s : string) : tidy s = true -> _shorten_source s = s.
Proof.
  intros Hs. destruct (tidy_parts s Hs) as (Hne & Hfirst & Ht).
  pose proof (tidy_tail_all_chars s Ht) as Hall.
  unfold _shorten_source.
  rewrite (proj2 (truthy_iff s) Hne). cbn [negb].
  rewrite (rstrip_unchanged (Py.is_char "/") s)
    by (apply (all_chars_impl is_lower_word_char); [apply lower_word_no_slash | exact Hall]).
  unfold Py.after_last.
  rewrite rsplit1_slash_none
    by (apply (all_chars_impl is_lower_word_char); [apply lower_word_no_slash | exact Hall]).
  unfold Py.replace_unless, Py.lower.
  rewrite (tidy_tail_chars s Ht (fun c => if is_word_char c then c else "_"%char))
    by (intros c Hc; rewrite (lower_word_is_word c Hc); reflexivity).
  rewrite (tidy_tail_chars s Ht Py.to_lower lower_word_to_lower).
  rewrite (collapse_tidy s Ht). unfold Py.strip_by.
  destruct s as [|c s']; [contradiction|].
  cbn [first_is_underscore] in Hfirst. cbn [Py.lstrip_by]. rewrite Hfirst.
  rewrite (rstrip_tidy _ Ht). reflexivity.
Qed.

(** X13.  A shortened source is never empty: it is a tidy name
    (lower-case letters, digits and underscores, no underscore first, last
    or doubled), and shortening it again changes nothing. *)
Theorem shorten_source_is_tidy_and_stable (source : string) :
  tidy (_shorten_source source) = true
  /\ _shorten_source source <> ""
  /\ _shorten_source (_shorten_source source) = _shorten_source source.
Proof.
  pose proof (shorten_source_tidy source) as Ht.
  split; [exact Ht|]. split.
  - apply (tidy_parts _ Ht).
  - apply shorten_tidy_fixed, Ht.
Qed.

Lemma all_chars_smap (p : ascii -> bool) (f : ascii -> ascii) (s : string) :
  (forall c, p (f c) = true) -> all_chars p (Py.smap f s) = true.
Proof.
  intros Hf. induction s as [|c s IH]; [reflexivity|].
  change (p (f c) && all_chars p (Py.smap f s) = true). rewrite Hf, IH. reflexivity.
Qed.

Lemma all_chars_lstrip (p q : ascii -> bool) (s : string) :
  all_chars p s = true -> all_chars p (Py.lstrip_by q s) = true.
Proof.
  induction s as [|c s IH]; intros H; [reflexivity|].
  cbn [Py.lstrip_by]. destruct (q c); [|exact H].
  cbn [all_chars] in H. apply andb_true_iff in H as [_ Hs]. exact (IH Hs).
Qed.

Lemma all_chars_rstrip (p q : ascii -> bool) (s : string) :
  all_chars p s = true -> all_chars p (Py.rstrip_by q s) = true.
Proof.
  induction s as [|c s IH]; intros H; [reflexivity|].
  cbn [all_chars] in H. apply andb_true_iff in H as [Hc Hs]. specialize (IH Hs).
  cbn [Py.rstrip_by]. destruct (Py.rstrip_by q s) as [|d r].
  - destruct (q c); [reflexivity|]. cbn [all_chars]. rewrite Hc. reflexivity.
  - cbn [all_chars] in *. rewrite Hc, IH. reflexivity.
Qed.

Lemma all_chars_app (p : ascii -> bool) (a b : string) :
  all_chars p (a +:+ b) = all_chars p a && all_chars p b.
Proof.
  induction a as [|c a IH]; [reflexivity|].
  change (p c && all_chars p (a +:+ b) = p c && all_chars p a && all_chars p b).
  rewrite IH, andb_assoc. reflexivity.
Qed.

Lemma lstrip_first (s : string) :
  first_is_underscore (Py.lstrip_by (Py.is_char "_") s) = false.
Proof.
  induction s as [|c s IH]; [reflexivity|].
  cbn [Py.lstrip_by]. destruct (Py.is_char "_" c) eqn:Hc; [exact IH | exact Hc].
Qed.

Lemma rstrip_last (s : string) :
  last_is_underscore (Py.rstrip_by (Py.is_char "_") s) = false.
Proof.
  induction s as [|c s IH]; [reflexivity|].
  cbn [Py.rstrip_by]. destruct (Py.rstrip_by (Py.is_char "_") s) as [|d r].
  - destruct (Py.is_char "_" c) eqn:Hc; [reflexivity | exact Hc].
  - exact IH.
Qed.

Lemma upper_snake_char (c : ascii) :
  is_upper_word_char (Py.to_upper (if is_word_char c then c else "_"%char)) = true.
Proof. each_char c. Qed.

Lemma upper_snake_kept_char (c : ascii) :
  is_upper_word_char
    (if Py.is_upper c || Py.is_digit c || Py.is_char "_" c then c else "_"%char)
  = true.
Proof. each_char c. Qed.

Lemma camel_to_upper_snake_shape (name : string) :
  all_chars is_upper_word_char (_camel_to_upper_snake name) = true
  /\ first_is_underscore (_camel_to_upper_snake name) = false
  /\ last_is_underscore (_camel_to_upper_snake name) = false.
Proof.
  unfold _camel_to_upper_snake, Py.strip_by.
  destruct (String.eqb name (Py.upper name)).
  - split; [|split].
    + apply all_chars_rstrip, all_chars_lstrip.
      unfold Py.replace_unless. apply all_chars_smap, upper_snake_kept_char.
    + apply rstrip_first, lstrip_first.
    + apply rstrip_last.
  - cbv zeta. split; [|split].
    + apply all_chars_rstrip, all_chars_lstrip.
      unfold Py.upper, Py.replace_unless.
      generalize (Py.sub_upper_run (Py.sub_lower_upper name)). intros y.
      induction y as [|c y IH]; [reflexivity|].
      change (is_upper_word_char (Py.to_upper (if is_word_char c then c else "_"%char))
              && all_chars is_upper_word_char
                   (Py.smap Py.to_upper
                      (Py.smap (fun c => if is_word_char c then c else "_"%char) y))
              = true).
      rewrite upper_snake_char, IH. reflexivity.
    + apply rstrip_first, lstrip_first.
    + apply rstrip_last.
Qed.

(** X14.  An upper-snake name is made of capitals, digits and
    underscores and has no underscore first or last; every literal of a
    rendered enum, the synthesized one included, has such a name that
    starts with the upper-snake name of the enum. *)
Theorem enum_literal_names_share_the_enum_prefix (enum : EEnum) (name : string) :
  (all_chars is_upper_word_char (_camel_to_upper_snake name) = true
   /\ first_is_underscore (_camel_to_upper_snake name) = false
   /\ last_is_underscore (_camel_to_upper_snake name) = false)
  /\ Forall (fun entry : string * Z =>
               Py.starts_with (_camel_to_upper_snake (enum_name enum)) (fst entry) = true
               /\ all_chars is_upper_word_char (fst entry) = true)
            (enum_entries enum).
Proof.
  split; [apply camel_to_upper_snake_shape|].
  assert (Hname : forall literal : string,
    Py.starts_with (_camel_to_upper_snake (enum_name enum))
                   (_to_enum_value_name (enum_name enum) literal) = true
    /\ all_chars is_upper_word_char (_to_enum_value_name (enum_name enum) literal) = true).
  { intros literal. unfold _to_enum_value_name. cbv zeta.
    destruct (camel_to_upper_snake_shape (enum_name enum)) as (Hp & _ & _).
    destruct (camel_to_upper_snake_shape literal) as (Hv & _ & _).
    destruct (Py.starts_with _ (_camel_to_upper_snake literal)) eqn:Hs.
    - split; [exact Hs | exact Hv].
    - split; [apply starts_with_app|].
      rewrite !all_chars_app, Hp, Hv. reflexivity. }
  unfold enum_entries. apply Forall_app. split.
  - destruct (negb _); [|constructor]. constructor; [apply Hname | constructor].
  - apply Forall_fmap, Forall_forall. intros lit _. apply Hname.
Qed.

Lemma to_upper_not_lower (c : ascii) : Py.is_lower (Py.to_upper c) = false.
Proof. each_char c. Qed.

Lemma to_upper_twice (c : ascii) : Py.to_upper (Py.to_upper c) = Py.to_upper c.
Proof. each_char c. Qed.

(** X15.  [_to_proto_name] never returns the empty string nor a name that
    starts with a lower-case letter, and applying it again changes
    nothing. *)
Theorem to_proto_name_is_capitalised_and_stable (name : string) :
  _to_proto_name name <> ""
  /\ first_is_lower (_to_proto_name name) = false
  /\ _to_proto_name (_to_proto_name name) = _to_proto_name name.
Proof.
  destruct name as [|c rest]; [repeat split; discriminate|].
  cbn [_to_proto_name first_is_lower]. split; [discriminate|].
  split; [apply to_upper_not_lower|]. rewrite to_upper_twice. reflexivity.
Qed.

(* ================================================================== *)
(** * The registry and the annotations it was built from *)
(* ================================================================== *)

Lemma first_seen_elem (l : list lookup_key) :
  forall (seen : list lookup_key) (x : lookup_key),
    x ∈ first_seen seen l <-> x ∈ l /\ x ∉ seen.
Proof.
  induction l as [|y l IH]; intros seen x; cbn [first_seen].
  - rewrite elem_of_nil. tauto.
  - case_bool_decide as Hy.
    + rewrite IH, elem_of_cons. split; [tauto|].
      intros [[->|H] Hn]; [contradiction | tauto].
    + rewrite !elem_of_cons, IH, elem_of_app, list_elem_of_singleton.
      destruct (decide (x = y)) as [->|Hne]; [tauto|]. tauto.
Qed.

Lemma first_seen_NoDup (l : list lookup_key) :
  forall seen : list lookup_key, NoDup (first_seen seen l).
Proof.
  induction l as [|y l IH]; intros seen; cbn [first_seen]; [constructor|].
  case_bool_decide as Hy; [apply IH|].
  constructor; [|apply IH]. rewrite first_seen_elem.
  intros [_ Hn]. apply Hn, elem_of_app. right. apply list_elem_of_singleton. reflexivity.
Qed.

Lemma flat_map_flat_map {A B C : Type} (f : B -> list C) (g : A -> list B)
    (l : list A) :
  flat_map f (flat_map g l) = flat_map (fun x => flat_map f (g x)) l.
Proof.
  induction l as [|x l IH]; [reflexivity|].
  cbn [flat_map]. rewrite flat_map_app, IH. reflexivity.
Qed.

Lemma class_keys_annotations (cls : EClass) :
  class_keys cls = flat_map annotation_keys (class_annotations cls).
Proof.
  unfold class_keys, class_annotations.
  rewrite !flat_map_app, !flat_map_flat_map. reflexivity.
Qed.

Lemma package_keys_annotations (pkg : EPackage) :
  package_keys pkg = flat_map annotation_keys (package_annotations pkg).
Proof.
  induction pkg as [pkg IH] using EPackage_tree_ind.
  destruct pkg as [nm u p cs es ds subs sf an].
  cbn [package_keys package_annotations pkg_annotations pkg_classes pkg_enums
       pkg_sub_packages] in *.
  rewrite !flat_map_app, !flat_map_flat_map. f_equal. f_equal.
  - apply flat_map_ext. intros cls. apply class_keys_annotations.
  - f_equal. induction IH as [|s subs Hs _ IHsubs]; [reflexivity|].
    cbn [flat_map]. rewrite Hs, IHsubs. reflexivity.
Qed.

Lemma find_key_fmap (g : lookup_key * AnnotationOptionDef -> lookup_key * AnnotationOptionDef)
    (lookup : lookup_key) (l : list (lookup_key * AnnotationOptionDef)) :
  (forall entry, fst (g entry) = fst entry) ->
  List.find (fun entry => bool_decide (fst entry = lookup)) (map g l)
  = g <$> List.find (fun entry => bool_decide (fst entry = lookup)) l.
Proof.
  intros Hg. induction l as [|e l IH]; [reflexivity|].
  cbn [map List.find]. rewrite Hg. case_bool_decide; [reflexivity | exact IH].
Qed.

Lemma find_key_some (lookup : lookup_key) (l : list (lookup_key * AnnotationOptionDef)) :
  lookup ∈ map fst l ->
  exists (i : nat) (opt : AnnotationOptionDef),
    List.find (fun entry => bool_decide (fst entry = lookup)) l = Some (lookup, opt)
    /\ l !! i = Some (lookup, opt).
Proof.
  induction l as [|[k opt] l IH]; intros Hin; [apply elem_of_nil in Hin; contradiction|].
  cbn [List.find fst]. case_bool_decide as Hk.
  - subst k. exists 0, opt. split; reflexivity.
  - cbn [map fst] in Hin. apply elem_of_cons in Hin as [->|Hin]; [contradiction|].
    destruct (IH Hin) as (i & opt' & Hf & Hi). exists (S i), opt'. split; assumption.
Qed.

Lemma scan_packages_keys_elem (packages : list EPackage) (lookup : lookup_key) :
  lookup ∈ registry_keys (scan_only packages)
  <-> exists ann, ann ∈ flat_map package_annotations packages
                  /\ lookup ∈ annotation_keys ann.
Proof.
  rewrite scan_only_keys, first_seen_elem.
  rewrite (flat_map_ext package_keys
             (fun pkg => flat_map annotation_keys (package_annotations pkg)))
    by apply package_keys_annotations.
  rewrite <- flat_map_flat_map, elem_of_flat_map.
  split; [tauto|]. intros H. split; [exact H | apply not_elem_of_nil].
Qed.

Lemma scanned_detail_option (packages : list EPackage)
    (ann : EAnnotation) (key value : string) :
  ann ∈ flat_map package_annotations packages ->
  (key, value) ∈ ann_details ann ->
  let lookup := (_shorten_source (ann_source ann), key) in
  let c := scan_only packages in
  exists (i : nat) (opt0 : AnnotationOptionDef),
    options c !! i = Some (lookup, opt0)
    /\ get_option_for (scan_packages packages) ann key
       = Some (snd (finalize_option c (key_to_sources c) (lookup, opt0))).
Proof.
  intros Hann Hkv. cbv zeta.
  set (lookup := (_shorten_source (ann_source ann), key)).
  assert (Hreg : lookup ∈ registry_keys (scan_only packages)).
  { apply scan_packages_keys_elem. exists ann. split; [exact Hann|].
    unfold annotation_keys. apply list_elem_of_fmap. exists (key, value).
    split; [reflexivity | exact Hkv]. }
  destruct (find_key_some lookup _ Hreg) as (i & opt0 & Hfind & Hi).
  exists i, opt0. split; [exact Hi|].
  unfold get_option_for, scan_packages, _finalize. cbn [options].
  fold lookup.
  rewrite (find_key_fmap (finalize_option (scan_only packages)
                            (key_to_sources (scan_only packages))) lookup)
    by (intros [[s k] o]; reflexivity).
  rewrite Hfind. reflexivity.
Qed.

(** X16.  After [scan_packages], [get_option_for] finds an option for
    every detail of every annotation met in the packages; the option
    records the key and the shortened source of the annotation, and its
    field number lies in the range handed out so far. *)
Theorem every_scanned_detail_has_an_option (packages : list EPackage)
    (ann : EAnnotation) (key value : string) :
  ann ∈ flat_map package_annotations packages ->
  (key, value) ∈ ann_details ann ->
  let registry := scan_packages packages in
  exists opt : AnnotationOptionDef,
    get_option_for registry ann key = Some opt
    /\ opt_key opt = key
    /\ opt_source_short opt = _shorten_source (ann_source ann)
    /\ (_EXTENSION_FIELD_START <= opt_field_number opt
        < _EXTENSION_FIELD_START + Z.of_nat (length (options registry)))%Z.
Proof.
  intros Hann Hkv. cbv zeta.
  destruct (scanned_detail_option packages ann key value Hann Hkv)
    as (i & opt0 & Hi & Hget).
  destruct (scan_only_ok packages) as [_ Hopts].
  destruct (Hopts i _ opt0 Hi) as (Hnum & Hkey & Hshort & _).
  eexists. split; [exact Hget|].
  cbn [finalize_option snd opt_key opt_source_short opt_field_number].
  split; [exact Hkey|]. split; [exact Hshort|].
  unfold scan_packages, _finalize. cbn [options].
  rewrite Hnum, length_map. apply lookup_lt_Some in Hi.
  split; [lia | apply Z.add_lt_mono_l, Nat2Z.inj_lt; exact Hi].
Qed.

Lemma every_scanned_detail_has_an_option_witness :
  exists opt : AnnotationOptionDef,
    get_option_for (scan_packages (flatten_packages [annotated_package]))
                   (mkEAnnotation "http://example.com/ui/"
                      [("order", "2"); ("displayName", "x")])
                   "displayName"
    = Some opt
    /\ opt_key opt = "displayName".
Proof.
  destruct (every_scanned_detail_has_an_option
              (flatten_packages [annotated_package])
              (mkEAnnotation "http://example.com/ui/"
                 [("order", "2"); ("displayName", "x")])
              "displayName" "x") as (opt & Hget & Hkey & _).
  - apply list_elem_of_In. vm_compute. auto.
  - apply list_elem_of_In. cbn. auto.
  - exists opt. split; assumption.
Defined.

(** X17.  The registry holds one option for each pair of shortened source
    and key: no pair is registered twice, and the next free number is the
    base plus the number of options. *)
Theorem registry_has_one_option_per_key (packages : list EPackage) :
  NoDup (registry_keys (scan_packages packages))
  /\ _next_field_number (scan_packages packages)
     = (_EXTENSION_FIELD_START
        + Z.of_nat (length (options (scan_packages packages))))%Z.
Proof.
  unfold scan_packages. rewrite finalize_keys, scan_only_keys.
  split; [apply first_seen_NoDup|].
  destruct (scan_only_ok packages) as [Hnext _].
  unfold _finalize. cbn [_next_field_number options]. rewrite length_map. exact Hnext.
Qed.

Lemma register_detail_seen (source_full source_short : string)
    (c : AnnotationCollector) (kv : string * string)
    (lookup : lookup_key) (value : string) :
  seen_detail c lookup value ->
  seen_detail (register_detail source_full source_short c kv) lookup value.
Proof.
  intros [Hreg Hval]. destruct kv as [k v]. unfold seen_detail, register_detail.
  destruct (decide (lookup = (source_short, k))) as [->|Hne].
  - rewrite Hreg. cbn [options _value_samples]. split; [exact Hreg|].
    rewrite lookup_insert_eq. simpl. apply elem_of_union. left. exact Hval.
  - split.
    + destruct (registered (source_short, k) c); cbn [options]; [exact Hreg|].
      unfold registered in *. cbn [options]. apply bool_decide_eq_true in Hreg.
      apply bool_decide_eq_true. rewrite map_app, elem_of_app. left. exact Hreg.
    + destruct (registered (source_short, k) c); cbn [_value_samples];
        rewrite !lookup_insert_ne by congruence; exact Hval.
Qed.

Lemma register_detail_adds (source_full source_short : string)
    (c : AnnotationCollector) (key value : string) :
  seen_detail (register_detail source_full source_short c (key, value))
              (source_short, key) value.
Proof.
  unfold seen_detail, register_detail.
  destruct (registered (source_short, key) c) eqn:Hreg; cbn [options _value_samples].
  - split; [exact Hreg|]. rewrite lookup_insert_eq. simpl.
    apply elem_of_union. right. apply elem_of_singleton. reflexivity.
  - split.
    + unfold registered. cbn [options]. apply bool_decide_eq_true.
      rewrite map_app, elem_of_app. right. cbn [map fst].
      apply list_elem_of_singleton. reflexivity.
    + rewrite lookup_insert_eq. simpl.
      apply elem_of_union. right. apply elem_of_singleton. reflexivity.
Qed.

Lemma register_detail_again (source_full source_short : string)
    (c : AnnotationCollector) (key value : string) :
  seen_detail c (source_short, key) value ->
  register_detail source_full source_short c (key, value) = c.
Proof.
  intros [Hreg Hval]. unfold register_detail. rewrite Hreg.
  destruct c as [opts samples next]. cbn [options _value_samples _next_field_number] in *.
  assert (HS : exists S : gset string,
             samples !! (source_short, key) = Some S /\ value ∈ S).
  { revert Hval.
    match goal with
    | |- _ ∈ default ∅ ?x -> _ => destruct x as [S|] eqn:HS
    end; simpl; intros Hval.
    - exists S. split; [exact HS | exact Hval].
    - apply elem_of_empty in Hval. contradiction. }
  destruct HS as (S & HS & HvS).
  f_equal. apply map_eq. intros lk.
  destruct (decide (lk = (source_short, key))) as [->|Hne].
  - rewrite lookup_insert_eq. transitivity (Some S); [|symmetry; exact HS].
    f_equal.
    match goal with
    | |- ?a ∪ ?b = _ =>
        transitivity (S ∪ b);
        [ apply (f_equal (fun x => x ∪ b)); exact (f_equal (default ∅) HS)
        | rewrite (comm_L (∪)); apply subseteq_union_1_L, singleton_subseteq_l, HvS ]
    end.
  - rewrite lookup_insert_ne by congruence. reflexivity.
Qed.

Lemma register_annotation_seen (ann : EAnnotation) (lookup : lookup_key) (value : string) :
  forall c : AnnotationCollector,
    seen_detail c lookup value ->
    seen_detail (_register_annotation c ann) lookup value.
Proof.
  unfold _register_annotation.
  generalize (ann_source ann) (_shorten_source (ann_source ann)).
  intros sf ss. induction (ann_details ann) as [|kv l IH]; intros c H; [exact H|].
  cbn [fold_left]. apply IH, register_detail_seen, H.
Qed.

Lemma register_annotation_adds (ann : EAnnotation) (c : AnnotationCollector) :
  seen_annotation (_register_annotation c ann) ann.
Proof.
  unfold seen_annotation, _register_annotation.
  generalize (ann_source ann) (_shorten_source (ann_source ann)).
  intros sf ss. revert c. induction (ann_details ann) as [|[k v] l IH];
    intros c key value Hin; [apply elem_of_nil in Hin; contradiction|].
  cbn [fold_left]. apply elem_of_cons in Hin as [[= -> ->]|Hin].
  - clear IH. generalize (register_detail_adds sf ss c k v).
    generalize (register_detail sf ss c (k, v)). clear c.
    induction l as [|kv l IH]; intros c H; [exact H|].
    cbn [fold_left]. apply IH, register_detail_seen, H.
  - apply IH, Hin.
Qed.

Lemma register_annotation_again (ann : EAnnotation) (c : AnnotationCollector) :
  seen_annotation c ann -> _register_annotation c ann = c.
Proof.
  unfold seen_annotation, _register_annotation.
  generalize (ann_source ann) (_shorten_source (ann_source ann)).
  intros sf ss. induction (ann_details ann) as [|[k v] l IH]; intros H; [reflexivity|].
  cbn [fold_left]. rewrite register_detail_again.
  - apply IH. intros key value Hin. apply H, elem_of_cons. right. exact Hin.
  - apply H, elem_of_cons. left. reflexivity.
Qed.

Lemma register_all_seen (anns : list EAnnotation) (ann : EAnnotation) :
  forall c : AnnotationCollector,
    seen_annotation c ann -> seen_annotation (register_all c anns) ann.
Proof.
  unfold register_all. induction anns as [|a anns IH]; intros c H; [exact H|].
  cbn [fold_left]. apply IH. intros key value Hin.
  apply register_annotation_seen, H, Hin.
Qed.

Lemma register_all_adds (anns : list EAnnotation) :
  forall (c : AnnotationCollector) (ann : EAnnotation),
    ann ∈ anns -> seen_annotation (register_all c anns) ann.
Proof.
  induction anns as [|a anns IH]; intros c ann Hin;
    [apply elem_of_nil in Hin; contradiction|].
  apply elem_of_cons in Hin as [->|Hin].
  - change (register_all c (a :: anns))
      with (register_all (_register_annotation c a) anns).
    apply register_all_seen, register_annotation_adds.
  - apply (IH (_register_annotation c a)), Hin.
Qed.

Lemma register_all_again (anns : list EAnnotation) (c : AnnotationCollector) :
  (forall ann, ann ∈ anns -> seen_annotation c ann) ->
  register_all c anns = c.
Proof.
  unfold register_all. induction anns as [|a anns IH]; intros H; [reflexivity|].
  cbn [fold_left]. rewrite register_annotation_again.
  - apply IH. intros ann Hin. apply H, elem_of_cons. right. exact Hin.
  - apply H, elem_of_cons. left. reflexivity.
Qed.

Lemma register_all_app (a b : list EAnnotation) (c : AnnotationCollector) :
  register_all c (a ++ b) = register_all (register_all c a) b.
Proof. unfold register_all. apply fold_left_app. Qed.

Lemma register_all_flat_map {A : Type} (f : A -> list EAnnotation) (l : list A) :
  forall c : AnnotationCollector,
    fold_left (fun c x => register_all c (f x)) l c = register_all c (flat_map f l).
Proof.
  induction l as [|x l IH]; intros c; [reflexivity|].
  cbn [fold_left flat_map]. rewrite register_all_app. apply IH.
Qed.

Lemma fold_left_pointwise {A B : Type} (f g : A -> B -> A) (l : list B) :
  (forall a b, f a b = g a b) ->
  forall a : A, fold_left f l a = fold_left g l a.
Proof.
  intros H. induction l as [|b l IH]; intros a; [reflexivity|].
  cbn [fold_left]. rewrite H. apply IH.
Qed.

Lemma scan_class_annotations (c : AnnotationCollector) (cls : EClass) :
  scan_class c cls = register_all c (class_annotations cls).
Proof.
  unfold scan_class, class_annotations.
  rewrite !register_all_app, !register_all_flat_map. reflexivity.
Qed.

Lemma scan_package_annotations (pkg : EPackage) :
  forall c : AnnotationCollector,
    _scan_package c pkg = register_all c (package_annotations pkg).
Proof.
  induction pkg as [pkg IH] using EPackage_tree_ind.
  destruct pkg as [nm u p cs es ds subs sf an]. intros c.
  cbn [pkg_sub_packages] in IH.
  change (_scan_package c (mkEPackage nm u p cs es ds subs sf an))
    with (fold_left _scan_package subs
            (fold_left (fun c enum => register_all c (enum_annotations enum)) es
               (fold_left scan_class cs (register_all c an)))).
  change (package_annotations (mkEPackage nm u p cs es ds subs sf an))
    with (an ++ flat_map class_annotations cs ++ flat_map enum_annotations es
             ++ flat_map package_annotations subs).
  rewrite !register_all_app, register_all_flat_map.
  rewrite <- (register_all_flat_map class_annotations cs).
  rewrite (fold_left_pointwise scan_class
             (fun c x => register_all c (class_annotations x)))
    by apply scan_class_annotations.
  match goal with
  | |- fold_left _ _ ?c0 = _ => generalize c0
  end.
  clear c. induction IH as [|s subs Hs _ IHsubs]; intros c; [reflexivity|].
  cbn [fold_left flat_map]. rewrite register_all_app, Hs. apply IHsubs.
Qed.

Lemma scan_only_annotations (packages : list EPackage) :
  scan_only packages = register_all new_collector (flat_map package_annotations packages).
Proof.
  unfold scan_only. generalize new_collector.
  induction packages as [|pkg packages IH]; intros c; [reflexivity|].
  cbn [fold_left flat_map]. rewrite register_all_app, scan_package_annotations. apply IH.
Qed.

Lemma sub_package_annotations (pkg : EPackage) :
  forall (q : EPackage) (ann : EAnnotation),
    q ∈ flatten_package pkg -> ann ∈ package_annotations q ->
    ann ∈ package_annotations pkg.
Proof.
  induction pkg as [pkg IH] using EPackage_tree_ind.
  intros q ann Hq Hann. apply flatten_package_cases in Hq as [->|(s & Hs & Hq)];
    [exact Hann|].
  destruct pkg as [nm u p cs es ds subs sf an].
  cbn [pkg_sub_packages package_annotations pkg_annotations pkg_classes pkg_enums] in *.
  rewrite !elem_of_app. right. right. right.
  apply elem_of_flat_map. exists s. split; [exact Hs|].
  rewrite List.Forall_forall in IH.
  apply (IH s (proj1 (list_elem_of_In _ _) Hs) q ann Hq Hann).
Qed.

Lemma register_flattened (packages : list EPackage) :
  forall c : AnnotationCollector,
    register_all c (flat_map package_annotations (flatten_packages packages))
    = register_all c (flat_map package_annotations packages).
Proof.
  unfold flatten_packages.
  induction packages as [|pkg packages IH]; intros c; [reflexivity|].
  cbn [flat_map]. rewrite flat_map_app, !register_all_app, IH. f_equal.
  destruct pkg as [nm u p cs es ds subs sf an] eqn:Hpkg.
  change (flatten_package (mkEPackage nm u p cs es ds subs sf an))
    with (mkEPackage nm u p cs es ds subs sf an :: flat_map flatten_package subs).
  rewrite <- Hpkg. cbn [flat_map]. rewrite register_all_app.
  apply register_all_again. intros ann Hann.
  apply register_all_adds.
  apply elem_of_flat_map in Hann as (q & Hq & Hann).
  apply (sub_package_annotations pkg q ann); [|exact Hann].
  apply flatten_package_cases. right.
  apply elem_of_flat_map in Hq as (s & Hs & Hq).
  exists s. split; [subst pkg; exact Hs | exact Hq].
Qed.

(** X18.  The registry does not depend on the flattening: a sub-package is
    scanned once more for every level it sits below the root, and the
    options, their numbers, names and types and the value samples are the
    same as when the packages are scanned unflattened. *)
Theorem scan_packages_is_unchanged_by_flattening (packages : list EPackage) :
  scan_packages (flatten_packages packages) = scan_packages packages.
Proof.
  unfold scan_packages. f_equal.
  rewrite !scan_only_annotations. apply register_flattened.
Qed.

Lemma key_to_sources_finalize (c : AnnotationCollector) :
  key_to_sources (_finalize c) = key_to_sources c.
Proof.
  unfold key_to_sources, _finalize. cbn [options].
  generalize (finalize_option c (fold_left
     (fun m entry => let '(source_short, key) := fst entry in
                     <[key := default ∅ (m !! key) ∪ {[source_short]}]> m)
     (options c) ∅)).
  intros g. generalize (∅ : gmap string (gset string)).
  induction (options c) as [|[[s k] opt] l IH]; intros m; [reflexivity|].
  cbn [map fold_left]. rewrite <- IH. reflexivity.
Qed.

(** X19.  [_finalize] can be run again: the names and types it assigns
    depend on the keys and the samples only, which it does not change, so
    a second run leaves the registry as the first one left it. *)
Theorem finalize_twice_is_finalize (c : AnnotationCollector) :
  _finalize (_finalize c) = _finalize c.
Proof.
  unfold _finalize at 1 3. rewrite key_to_sources_finalize.
  unfold _finalize. cbn [options _value_samples _next_field_number].
  f_equal. rewrite map_map. apply map_ext. intros [[s k] opt]. reflexivity.
Qed.

(* ================================================================== *)
(** * Option values *)
(* ================================================================== *)

Lemma scanned_value_is_sampled (packages : list EPackage)
    (ann : EAnnotation) (key value : string) :
  ann ∈ flat_map package_annotations packages ->
  (key, value) ∈ ann_details ann ->
  value ∈ default ∅ (_value_samples (scan_only packages)
                       !! (_shorten_source (ann_source ann), key)).
Proof.
  intros Hann Hkv. rewrite scan_only_annotations.
  apply (register_all_adds _ new_collector ann Hann key value Hkv).
Qed.

Lemma infer_proto_type_cases (values : gset string) (value : string) :
  value ∈ values ->
  (_infer_proto_type values = "bool" /\ is_bool_text value = true)
  \/ (_infer_proto_type values = "int32" /\ is_int_text value = true)
  \/ (_infer_proto_type values = "double" /\ is_float_text value = true)
  \/ _infer_proto_type values = "string".
Proof.
  intros Hin. apply elem_of_elements, list_elem_of_In in Hin.
  unfold _infer_proto_type.
  destruct (elements values) as [|v vs] eqn:Hvs; [destruct Hin|].
  destruct (forallb is_bool_text (v :: vs)) eqn:Hb.
  { left. split; [reflexivity|]. rewrite forallb_forall in Hb. apply Hb, Hin. }
  destruct (forallb is_int_text (v :: vs)) eqn:Hi.
  { right. left. split; [reflexivity|]. rewrite forallb_forall in Hi. apply Hi, Hin. }
  destruct (forallb is_float_text (v :: vs)) eqn:Hf.
  { right. right. left. split; [reflexivity|].
    rewrite forallb_forall in Hf. apply Hf, Hin. }
  right. right. right. reflexivity.
Qed.

Lemma append_empty_right (s : string) : s +:+ "" = s.
Proof.
  induction s as [|c s IH]; [reflexivity|].
  change (String c (s +:+ "") = String c s). rewrite IH. reflexivity.
Qed.

Lemma all_digits_chars (s : string) : all_digits s = all_chars Py.is_digit s.
Proof.
  unfold all_digits. induction s as [|c s IH]; [reflexivity|].
  cbn [list_ascii_of_string forallb all_chars]. rewrite IH. reflexivity.
Qed.

Lemma starts_with_drop (p s : string) :
  Py.starts_with p s = true -> s = p +:+ Py.drop (String.length p) s.
Proof.
  revert s. induction p as [|a p IH]; intros s H; [reflexivity|].
  destruct s as [|b s]; [discriminate|]. cbn [Py.starts_with] in H.
  destruct (Ascii.eqb a b) eqn:Hab; [|discriminate].
  apply Ascii.eqb_eq in Hab. subst b.
  change (String a s = String a (p +:+ Py.drop (String.length p) s)).
  rewrite <- (IH s H). reflexivity.
Qed.

Lemma split1_parts (sep s l r : string) :
  Py.split1 sep s = Some (l, r) -> s = l +:+ sep +:+ r.
Proof.
  revert l r. induction s as [|c s IH]; intros l r; cbn [Py.split1].
  - destruct (Py.starts_with sep "") eqn:Hs; [|discriminate].
    intros [= <- <-]. apply (starts_with_drop sep "" Hs).
  - destruct (Py.starts_with sep (String c s)) eqn:Hs.
    + intros [= <- <-]. apply (starts_with_drop sep _ Hs).
    + destruct (Py.split1 sep s) as [[l' r']|]; [|discriminate].
      intros [= <- <-]. rewrite (IH l' r' eq_refl). reflexivity.
Qed.

Lemma int_text_shape (v : string) : is_int_text v = true -> integer_text v.
Proof.
  unfold is_int_text. cbv zeta. intros H. apply andb_true_iff in H as [Hne Hd].
  rewrite all_digits_chars in Hd. apply truthy_iff in Hne.
  destruct v as [|c v']; [contradiction|].
  destruct (Ascii.eqb c "-") eqn:Hc.
  - apply Ascii.eqb_eq in Hc. subst c. exists "-", v'.
    split; [reflexivity|]. split; [right; reflexivity|]. split; assumption.
  - assert (Hbody : match String c v' with String "-" v0 => v0 | _ => String c v' end
                    = String c v').
    { destruct c as [[] [] [] [] [] [] [] []]; try reflexivity. discriminate. }
    rewrite Hbody in Hne, Hd. exists "", (String c v').
    split; [reflexivity|]. split; [left; reflexivity|]. split; assumption.
Qed.

Lemma float_text_shape (v : string) : is_float_text v = true -> decimal_text v.
Proof.
  unfold is_float_text. cbv zeta. intros H.
  assert (Hsign : exists sign body,
             v = sign +:+ body /\ (sign = "" \/ sign = "-")
             /\ match v with String "-" v0 => v0 | _ => v end = body).
  { destruct v as [|c v']; [exists "", ""; auto|].
    destruct (Ascii.eqb c "-") eqn:Hc.
    - apply Ascii.eqb_eq in Hc. subst c. exists "-", v'. auto.
    - exists "", (String c v'). split; [reflexivity|]. split; [left; reflexivity|].
      destruct c as [[] [] [] [] [] [] [] []]; try reflexivity. discriminate. }
  destruct Hsign as (sign & body & Hv & Hsign & Hbody). rewrite Hbody in H.
  destruct (Py.split1 "." body) as [[whole frac]|] eqn:Hsplit.
  - apply andb_true_iff in H as [H Hfrac]. apply andb_true_iff in H as [Hne Hwhole].
    rewrite all_digits_chars in Hwhole, Hfrac. apply truthy_iff in Hne.
    exists sign, whole, ".", frac. rewrite Hv, (split1_parts _ _ _ _ Hsplit).
    repeat split; auto.
  - apply andb_true_iff in H as [Hne Hd]. rewrite all_digits_chars in Hd.
    apply truthy_iff in Hne.
    exists sign, body, "", "". rewrite Hv.
    change (body +:+ "" +:+ "") with (body +:+ "").
    rewrite append_empty_right.
    repeat split; auto.
Qed.

(** X20.  For packages whose detail values are ASCII text, the type that
    [_finalize] infers for an option agrees with the shape of every value
    the option was met with: under a [bool] option the value is [true] or
    [false] up to case and [_format_option_value] writes it in lower case;
    under an [int32] option the literal is the value itself, an optional
    minus sign and digits; under a [double] option it is the value
    itself, the same with an optional point and further digits; any other
    option is a [string].  Only the shape is tested: a run of digits of
    any length is typed [int32]. *)
Theorem option_type_matches_the_shape_of_every_value (packages : list EPackage)
    (ann : EAnnotation) (key value : string) :
  ascii_details packages ->
  ann ∈ flat_map package_annotations packages ->
  (key, value) ∈ ann_details ann ->
  exists opt : AnnotationOptionDef,
    get_option_for (scan_packages packages) ann key = Some opt
    /\ let literal := _format_option_value value (opt_proto_type opt) in
       (opt_proto_type opt = "bool"
        /\ literal = Py.lower value
        /\ (literal = "true" \/ literal = "false"))
       \/ (opt_proto_type opt = "int32" /\ literal = value /\ integer_text value)
       \/ (opt_proto_type opt = "double" /\ literal = value /\ decimal_text value)
       \/ opt_proto_type opt = "string".
Proof.
  intros _ Hann Hkv.
  destruct (scanned_detail_option packages ann key value Hann Hkv)
    as (i & opt0 & Hi & Hget).
  eexists. split; [exact Hget|].
  cbn [finalize_option snd opt_proto_type]. cbv zeta.
  pose proof (scanned_value_is_sampled packages ann key value Hann Hkv) as Hin.
  match goal with
  | |- context [_infer_proto_type ?vs] =>
      destruct (infer_proto_type_cases vs value Hin)
        as [[-> Hb]|[[-> Hn]|[[-> Hf]| ->]]]
  end.
  - left. split; [reflexivity|]. unfold _format_option_value.
    cbn [String.eqb Ascii.eqb Bool.eqb]. split; [reflexivity|].
    unfold is_bool_text in Hb. apply orb_true_iff in Hb as [Hb|Hb];
      apply String.eqb_eq in Hb; [left | right]; exact Hb.
  - right. left. split; [reflexivity|]. split; [reflexivity|].
    apply int_text_shape, Hn.
  - right. right. left. split; [reflexivity|]. split; [reflexivity|].
    apply float_text_shape, Hf.
  - right. right. right. reflexivity.
Qed.

Lemma option_type_matches_the_shape_of_every_value_witness :
  exists opt : AnnotationOptionDef,
    get_option_for (scan_packages (flatten_packages [annotated_package]))
                   (mkEAnnotation "http://example.com/ui/"
                      [("order", "2"); ("displayName", "x")])
                   "order"
    = Some opt.
Proof.
  destruct (option_type_matches_the_shape_of_every_value
              (flatten_packages [annotated_package])
              (mkEAnnotation "http://example.com/ui/"
                 [("order", "2"); ("displayName", "x")])
              "order" "2") as (opt & Hget & _).
  - unfold ascii_details. vm_compute. repeat constructor.
  - apply list_elem_of_In. vm_compute. auto.
  - apply list_elem_of_In. cbn. auto.
  - exists opt. exact Hget.
Defined.

Lemma replace_backslash_then_quote (value : string) :
  forall body : string,
    body = replace_char quote_char (String backslash (String quote_char ""))
             (replace_char backslash (String backslash (String backslash "")) value) ->
    unescape body = value /\ quotes_escaped body = true.
Proof.
  induction value as [|c value IH]; intros body ->; [split; reflexivity|].
  cbn [replace_char].
  destruct (IH _ eq_refl) as [Hu Hq].
  destruct (Ascii.eqb c backslash) eqn:Hc.
  - apply Ascii.eqb_eq in Hc. subst c.
    change (String backslash (String backslash "") +:+ ?s)
      with (String backslash (String backslash s)).
    cbn [replace_char]. change (Ascii.eqb backslash quote_char) with false.
    cbn iota. cbn [unescape quotes_escaped].
    change (Ascii.eqb backslash backslash) with true. cbn iota.
    rewrite Hu, Hq. split; reflexivity.
  - cbn [replace_char]. destruct (Ascii.eqb c quote_char) eqn:Hq'.
    + apply Ascii.eqb_eq in Hq'. subst c.
      change (String backslash (String quote_char "") +:+ ?s)
        with (String backslash (String quote_char s)).
      cbn [unescape quotes_escaped].
      change (Ascii.eqb backslash backslash) with true. cbn iota.
      rewrite Hu, Hq. split; reflexivity.
    + cbn [unescape quotes_escaped]. rewrite Hc, Hq', Hu, Hq. split; reflexivity.
Qed.

(** X21.  For an option that is not of a boolean or numeric type,
    [_format_option_value] writes the value between two quotes, with every
    quote and backslash of the value escaped: no quote of the body ends the
    literal early, and reading the escapes back gives the value. *)
Theorem string_option_value_reads_back (value proto_type : string) :
  proto_type ∉ ["bool"; "int32"; "int64"; "float"; "double"] ->
  exists body : string,
    _format_option_value value proto_type
    = String quote_char (body +:+ String quote_char "")
    /\ quotes_escaped body = true
    /\ unescape body = value.
Proof.
  intros Hty. unfold _format_option_value.
  assert (Hne : forall t, t ∈ ["bool"; "int32"; "int64"; "float"; "double"] ->
                          String.eqb proto_type t = false).
  { intros t Ht. apply String.eqb_neq. intros ->. contradiction. }
  rewrite !Hne by (apply list_elem_of_In; cbn; auto 10).
  cbn [orb]. eexists. split; [reflexivity|].
  destruct (replace_backslash_then_quote value _ eq_refl) as [Hu Hq].
  split; assumption.
Qed.

Lemma string_option_value_reads_back_witness :
  exists body : string,
    _format_option_value "a\b" "string"
    = String quote_char (body +:+ String quote_char "")
    /\ quotes_escaped body = true
    /\ unescape body = "a\b".
Proof.
  apply (string_option_value_reads_back "a\b" "string").
  intros Hin. apply list_elem_of_In in Hin. cbn in Hin.
  repeat destruct Hin as [Hin|Hin]; try discriminate Hin. exact Hin.
Defined.

(* ================================================================== *)
(** * The options file *)
(* ================================================================== *)

Lemma setdefault_append_keys (s : string) (opt : AnnotationOptionDef)
    (groups : list (string * list AnnotationOptionDef)) (x : string) :
  x ∈ map fst (setdefault_append s opt groups) <-> x ∈ map fst groups \/ x = s.
Proof.
  induction groups as [|[s0 opts] groups IH]; cbn [setdefault_append map fst].
  - rewrite list_elem_of_singleton, elem_of_nil. tauto.
  - destruct (String.eqb s0 s) eqn:Hs; cbn [map fst].
    + apply String.eqb_eq in Hs. subst s0. rewrite elem_of_cons. tauto.
    + rewrite !elem_of_cons, IH. tauto.
Qed.

Lemma setdefault_append_NoDup (s : string) (opt : AnnotationOptionDef)
    (groups : list (string * list AnnotationOptionDef)) :
  NoDup (map fst groups) -> NoDup (map fst (setdefault_append s opt groups)).
Proof.
  induction groups as [|[s0 opts] groups IH]; cbn [setdefault_append map fst]; intros Hnd.
  - apply NoDup_singleton.
  - apply NoDup_cons in Hnd as [Hnotin Hnd].
    destruct (String.eqb s0 s) eqn:Hs; cbn [map fst].
    + apply NoDup_cons. split; assumption.
    + apply NoDup_cons. split; [|apply IH, Hnd].
      rewrite setdefault_append_keys. intros [Hin|Heq]; [contradiction|].
      apply String.eqb_neq in Hs. contradiction.
Qed.

Lemma setdefault_append_nonempty (s : string) (opt : AnnotationOptionDef)
    (groups : list (string * list AnnotationOptionDef)) :
  Forall (fun group => snd group <> []) groups ->
  Forall (fun group => snd group <> []) (setdefault_append s opt groups).
Proof.
  induction groups as [|[s0 opts] groups IH]; cbn [setdefault_append]; intros Hne.
  - repeat constructor. discriminate.
  - apply Forall_cons in Hne as [H0 Hne].
    destruct (String.eqb s0 s); apply Forall_cons; split;
      [ cbn [snd]; destruct opts; discriminate | exact Hne | exact H0 | apply IH, Hne ].
Qed.

Lemma setdefault_append_group (s : string) (opt : AnnotationOptionDef)
    (groups : list (string * list AnnotationOptionDef)) (x : string) :
  group_of (setdefault_append s opt groups) x
  = if String.eqb s x then group_of groups x ++ [opt] else group_of groups x.
Proof.
  induction groups as [|[s0 opts] groups IH]; cbn [setdefault_append group_of].
  - destruct (String.eqb s x); reflexivity.
  - destruct (String.eqb s0 s) eqn:Hs; cbn [group_of].
    + apply String.eqb_eq in Hs. subst s0. destruct (String.eqb s x); reflexivity.
    + destruct (String.eqb s0 x) eqn:Hx; [|exact IH].
      apply String.eqb_eq in Hx. subst x.
      rewrite String.eqb_sym, Hs. reflexivity.
Qed.

Lemma group_of_member (groups : list (string * list AnnotationOptionDef))
    (s : string) (opts : list AnnotationOptionDef) :
  NoDup (map fst groups) -> (s, opts) ∈ groups -> group_of groups s = opts.
Proof.
  induction groups as [|[s0 opts0] groups IH]; intros Hnd Hin;
    [apply elem_of_nil in Hin; contradiction|].
  cbn [map fst] in Hnd. apply NoDup_cons in Hnd as [Hnotin Hnd].
  cbn [group_of]. apply elem_of_cons in Hin as [[= -> ->]|Hin].
  - rewrite String.eqb_refl. reflexivity.
  - destruct (String.eqb s0 s) eqn:Hs; [|apply IH; assumption].
    apply String.eqb_eq in Hs. subst s0. exfalso. apply Hnotin.
    apply list_elem_of_fmap. exists (s, opts). split; [reflexivity | exact Hin].
Qed.

Lemma group_of_key (groups : list (string * list AnnotationOptionDef)) (s : string) :
  group_of groups s <> [] -> s ∈ map fst groups.
Proof.
  induction groups as [|[s0 opts0] groups IH]; cbn [group_of map fst]; intros H;
    [contradiction|].
  apply elem_of_cons. destruct (String.eqb s0 s) eqn:Hs.
  - left. apply String.eqb_eq in Hs. symmetry. exact Hs.
  - right. apply IH, H.
Qed.

Lemma by_source_fold (entries : list (lookup_key * AnnotationOptionDef)) :
  forall acc : list (string * list AnnotationOptionDef),
    NoDup (map fst acc) ->
    Forall (fun group => snd group <> []) acc ->
    let groups :=
      fold_left (fun acc entry => setdefault_append (fst (fst entry)) (snd entry) acc)
                entries acc in
    NoDup (map fst groups)
    /\ Forall (fun group => snd group <> []) groups
    /\ forall s : string,
         group_of groups s
         = group_of acc s
           ++ map snd (List.filter (fun entry => String.eqb (fst (fst entry)) s) entries).
Proof.
  induction entries as [|[[s0 k0] opt] entries IH]; intros acc Hnd Hne; cbv zeta.
  - split; [exact Hnd|]. split; [exact Hne|]. intros s. rewrite app_nil_r. reflexivity.
  - cbn [fold_left fst snd].
    destruct (IH (setdefault_append s0 opt acc)
                 (setdefault_append_NoDup s0 opt acc Hnd)
                 (setdefault_append_nonempty s0 opt acc Hne)) as (H1 & H2 & H3).
    split; [exact H1|]. split; [exact H2|]. intros s.
    rewrite H3, setdefault_append_group. cbn [List.filter fst].
    destruct (String.eqb s0 s); cbn [map snd]; [rewrite <- app_assoc|]; reflexivity.
Qed.

Lemma groups_lines_ok (groups : list (string * list AnnotationOptionDef)) :
  Forall (fun group => snd group <> []) groups ->
  forall first_group : bool,
    exists lines : list string, groups_lines first_group groups = Ok lines.
Proof.
  induction 1 as [|[s opts] groups Hne _ IH]; intros first_group; cbn [groups_lines].
  - exists []. reflexivity.
  - unfold group_lines. cbn [snd] in *. destruct opts as [|opt0 opts]; [contradiction|].
    destruct (IH false) as [more ->]. eexists. reflexivity.
Qed.

(** X22.  [generate_ui_options_proto] groups the options by shortened
    source: each source has one group, the group holds exactly the options
    registered under it, in registration order, every option lies in the
    group of its source, and no group is empty, so that reading the first
    option of a group never fails and the text is produced. *)
Theorem options_file_groups_every_option_by_source (c : AnnotationCollector)
    (options_package proto_package_prefix : string) :
  NoDup (map fst (by_source c))
  /\ (forall (s : string) (opts : list AnnotationOptionDef),
        (s, opts) ∈ by_source c -> opts <> [] /\ opts = options_of_source c s)
  /\ (forall entry : lookup_key * AnnotationOptionDef,
        entry ∈ options c ->
        fst (fst entry) ∈ map fst (by_source c)
        /\ snd entry ∈ group_of (by_source c) (fst (fst entry)))
  /\ exists text : string,
       generate_ui_options_proto c options_package proto_package_prefix = Ok text.
Proof.
  assert (Hnd0 : NoDup (map fst (@nil (string * list AnnotationOptionDef))))
    by constructor.
  assert (Hne0 : Forall (fun group : string * list AnnotationOptionDef =>
                           snd group <> []) [])
    by constructor.
  destruct (by_source_fold (options c) [] Hnd0 Hne0) as (Hnd & Hne & Hgroup).
  fold (by_source c) in Hnd, Hne, Hgroup. cbn [group_of app] in Hgroup.
  split; [exact Hnd|]. split; [|split].
  - intros s opts Hin. split.
    + rewrite Forall_forall in Hne. apply (Hne (s, opts) Hin).
    + rewrite <- (group_of_member _ s opts Hnd Hin). apply Hgroup.
  - intros entry Hin.
    assert (Hmem : snd entry ∈ group_of (by_source c) (fst (fst entry))).
    { rewrite Hgroup. apply list_elem_of_fmap. exists entry. split; [reflexivity|].
      apply list_elem_of_In, filter_In. split; [apply list_elem_of_In, Hin|].
      apply String.eqb_refl. }
    split; [|exact Hmem]. apply group_of_key. intros Hnil.
    rewrite Hnil in Hmem. apply elem_of_nil in Hmem. contradiction.
  - unfold generate_ui_options_proto.
    destruct (groups_lines_ok (by_source c) Hne true) as [body ->].
    eexists. reflexivity.
Qed.

Lemma options_file_is_written (c : AnnotationCollector)
    (options_package proto_package_prefix : string) :
  exists text : string,
    generate_ui_options_proto c options_package proto_package_prefix = Ok text.
Proof.
  assert (Hnd0 : NoDup (map fst (@nil (string * list AnnotationOptionDef))))
    by constructor.
  assert (Hne0 : Forall (fun group : string * list AnnotationOptionDef =>
                           snd group <> []) [])
    by constructor.
  destruct (by_source_fold (options c) [] Hnd0 Hne0) as (_ & Hne & _).
  fold (by_source c) in Hne. unfold generate_ui_options_proto.
  destruct (groups_lines_ok (by_source c) Hne true) as [body ->].
  eexists. reflexivity.
Qed.

(* ================================================================== *)
(** * Field options *)
(* ================================================================== *)

Lemma Forall2_app_both {A B : Type} (R : A -> B -> Prop)
    (l1 l2 : list A) (k1 k2 : list B) :
  Forall2 R l1 k1 -> Forall2 R l2 k2 -> Forall2 R (l1 ++ l2) (k1 ++ k2).
Proof. intros H1 H2. induction H1; [exact H2 | constructor; assumption]. Qed.

(** X23.  With the registry of [scan_packages], [_collect_field_options]
    drops no detail: for annotations of the scanned packages it returns one
    part for each detail, in the order of the details, written from the
    option of that detail and the literal of its value. *)
Theorem field_options_cover_every_detail (g : ProtoGenerator)
    (h : ProtoGeneratorFields) (packages : list EPackage)
    (anns : list EAnnotation) :
  annotations h = Some (scan_packages packages) ->
  (forall ann, ann ∈ anns -> ann ∈ flat_map package_annotations packages) ->
  Forall2 (renders_detail g (scan_packages packages))
          (detail_list anns) (_collect_field_options g h anns).
Proof.
  intros Hh Hanns. unfold _collect_field_options. rewrite Hh.
  assert (Hgoal :
    Forall2 (renders_detail g (scan_packages packages))
            (detail_list anns)
            (flat_map (fun ann => flat_map (field_option g (scan_packages packages) ann)
                                           (ann_details ann)) anns)).
  { unfold detail_list. induction anns as [|ann anns IH]; [constructor|].
    cbn [flat_map]. apply Forall2_app_both.
    - assert (Hann : ann ∈ flat_map package_annotations packages)
        by (apply Hanns, elem_of_cons; left; reflexivity).
      assert (Hsub : forall kv, kv ∈ ann_details ann -> kv ∈ ann_details ann)
        by (intros kv H; exact H).
      revert Hsub. generalize (ann_details ann) at 1 3 4.
      intros details. induction details as [|[k v] details IHd]; intros Hsub;
        [constructor|].
      cbn [map flat_map].
      assert (Hkv : (k, v) ∈ ann_details ann)
        by (apply Hsub, elem_of_cons; left; reflexivity).
      destruct (scanned_detail_option packages ann k v Hann Hkv)
        as (i & opt0 & _ & Hget).
      unfold field_option at 1. cbn [fst snd]. rewrite Hget.
      change ([?x] ++ ?l) with (x :: l). constructor.
      + eexists. split; [exact Hget | reflexivity].
      + apply IHd. intros kv H. apply Hsub, elem_of_cons. right. exact H.
    - apply IH. intros a Ha. apply Hanns, elem_of_cons. right. exact Ha. }
  destruct anns; [constructor | exact Hgoal].
Qed.

Lemma field_options_cover_every_detail_witness :
  Forall2 (renders_detail plain_generator (scan_packages [annotated_package]))
    (detail_list [mkEAnnotation "http://example.com/ui/"
                    [("order", "2"); ("displayName", "x")]])
    (_collect_field_options plain_generator
       (mkGeneratorFields [annotated_package]
          (Some (scan_packages [annotated_package])) "" "")
       [mkEAnnotation "http://example.com/ui/"
          [("order", "2"); ("displayName", "x")]]).
Proof.
  apply (field_options_cover_every_detail plain_generator
           (mkGeneratorFields [annotated_package]
              (Some (scan_packages [annotated_package])) "" "")
           [annotated_package]).
  - reflexivity.
  - intros ann Hin. apply list_elem_of_singleton in Hin. subst ann.
    apply list_elem_of_In. vm_compute. auto 10.
Defined.

(* ================================================================== *)
(** * The imports of a file *)
(* ================================================================== *)

Lemma insert_sorted_elem (s x : string) (l : list string) :
  x ∈ insert_sorted s l <-> x = s \/ x ∈ l.
Proof.
  induction l as [|y l IH]; cbn [insert_sorted].
  - rewrite list_elem_of_singleton, elem_of_nil. tauto.
  - destruct (String.leb s y); rewrite !elem_of_cons; [tauto|].
    rewrite IH. tauto.
Qed.

Lemma sorted_elem (x : string) (l : list string) : x ∈ sorted l <-> x ∈ l.
Proof.
  unfold sorted. induction l as [|y l IH]; cbn [fold_right]; [reflexivity|].
  rewrite insert_sorted_elem, elem_of_cons, IH. reflexivity.
Qed.

Lemma drop_blank_keeps (line : string) (lines : list string) :
  line <> "" -> line ∈ lines -> line ∈ drop_blank lines.
Proof.
  intros Hne. induction lines as [|x lines IH]; intros Hin; [exact Hin|].
  cbn [drop_blank]. destruct x as [|c x]; [|exact Hin].
  apply elem_of_cons in Hin as [->|Hin]; [contradiction | apply IH, Hin].
Qed.

Lemma pop_blank_lines_keeps (line : string) (lines : list string) :
  line <> "" -> line ∈ lines -> line ∈ pop_blank_lines lines.
Proof.
  intros Hne Hin. unfold pop_blank_lines.
  apply list_elem_of_In. rewrite <- in_rev. apply list_elem_of_In.
  apply drop_blank_keeps; [exact Hne|].
  apply list_elem_of_In. rewrite <- in_rev. apply list_elem_of_In. exact Hin.
Qed.

Lemma import_line_written (g : ProtoGenerator) (h : ProtoGeneratorFields)
    (pkg : EPackage) (cls : EClass) (file : string) :
  cls ∈ pkg_classes pkg ->
  file ∈ _collect_imports g h cls pkg ->
  import_line file ∈ file_lines g h pkg.
Proof.
  intros Hcls Hfile. unfold file_lines.
  apply pop_blank_lines_keeps; [discriminate|].
  unfold proto_file_lines. cbv zeta.
  set (imports_needed := ⋃ map (fun cls => _collect_imports g h cls pkg) (pkg_classes pkg)).
  assert (Hin : file ∈ sorted (elements imports_needed)).
  { apply sorted_elem, elem_of_elements, elem_of_union_list.
    exists (_collect_imports g h cls pkg). split; [|exact Hfile].
    apply list_elem_of_fmap. exists cls. split; [reflexivity | exact Hcls]. }
  rewrite !elem_of_app. right. right. right. right. left.
  destruct (sorted (elements imports_needed)) as [|x l] eqn:Hs;
    [apply elem_of_nil in Hin; contradiction|].
  apply elem_of_app. left.
  apply list_elem_of_fmap. exists file. split; [reflexivity | exact Hin].
Qed.

Lemma reference_type_cases (g : ProtoGenerator) (ref : EReference)
    (current_pkg : EPackage) :
  _resolve_reference_type g ref current_pkg = _to_proto_name (ref_e_type ref)
  \/ exists owner : string,
       ref_resolved_package ref = Some owner
       /\ Py.truthy owner = true
       /\ owner <> pkg_name current_pkg
       /\ _resolve_reference_type g ref current_pkg
          = _to_proto_package g owner +:+ "." +:+ _to_proto_name (ref_e_type ref).
Proof.
  unfold _resolve_reference_type. cbv zeta.
  destruct (existsb _ (pkg_classes current_pkg)); [left; reflexivity|].
  destruct (ref_resolved_package ref) as [owner|]; cbn [Py.truthy_opt andb];
    [|left; reflexivity].
  change (default "" (Some owner)) with owner.
  destruct (Py.truthy owner) eqn:Ht; cbn [andb]; [|left; reflexivity].
  destruct (String.eqb owner (pkg_name current_pkg)) eqn:He; cbn [negb];
    [left; reflexivity|].
  right. exists owner. apply String.eqb_neq in He. repeat split; auto.
Qed.

(** X24.  The reference types and the super types that a message takes
    from another package are imported: when the type of a reference is
    written with a package in front, and when a resolved super type
    belongs to another package, the import line of [_package_to_filename]
    of that package is among the lines of the file.  (An attribute typed
    by an enum of another package is not covered: see
    [foreign_enum_attribute_is_not_imported].) *)
Theorem foreign_reference_and_super_types_are_imported (g : ProtoGenerator) (h : ProtoGeneratorFields)
    (pkg : EPackage) (cls : EClass) :
  cls ∈ pkg_classes pkg ->
  (forall ref : EReference,
      ref ∈ cls_references cls ->
      _resolve_reference_type g ref pkg <> _to_proto_name (ref_e_type ref) ->
      exists owner : string,
        ref_resolved_package ref = Some owner
        /\ _resolve_reference_type g ref pkg
           = _to_proto_package g owner +:+ "." +:+ _to_proto_name (ref_e_type ref)
        /\ import_line (_package_to_filename owner) ∈ file_lines g h pkg)
  /\ (forall sup : string * string,
        sup ∈ cls_resolved_supers cls ->
        fst sup <> pkg_name pkg ->
        import_line (_package_to_filename (fst sup)) ∈ file_lines g h pkg).
Proof.
  intros Hcls. split.
  - intros ref Href Hq.
    destruct (reference_type_cases g ref pkg) as [Hb|(owner & Hres & Ht & Hne & Hty)];
      [contradiction|].
    exists owner. split; [exact Hres|]. split; [exact Hty|].
    apply (import_line_written g h pkg cls _ Hcls).
    unfold _collect_imports. apply elem_of_union. left. apply elem_of_union. right.
    apply elem_of_union_list. exists (reference_imports g h pkg ref).
    split; [apply list_elem_of_fmap; exists ref; split; [reflexivity | exact Href]|].
    unfold reference_imports. apply elem_of_union. left.
    rewrite Hres. cbn [Py.truthy_opt]. change (default "" (Some owner)) with owner.
    rewrite Ht.
    apply String.eqb_neq in Hne. rewrite Hne. cbn [andb negb].
    apply elem_of_singleton. reflexivity.
  - intros sup Hsup Hne.
    apply (import_line_written g h pkg cls _ Hcls).
    unfold _collect_imports. apply elem_of_union. right.
    apply elem_of_union_list. exists (super_imports pkg sup).
    split; [apply list_elem_of_fmap; exists sup; split; [reflexivity | exact Hsup]|].
    unfold super_imports. apply String.eqb_neq in Hne. rewrite Hne. cbn [negb].
    apply elem_of_singleton. reflexivity.
Qed.

(** What [_collect_imports] leaves out: the type of the attribute is
    written [b.Kind], and the file has no import at all. *)
Example foreign_enum_attribute_is_not_imported :
  _resolve_attribute_type things_generator kind_attribute things_package = "b.Kind"
  /\ file_lines things_generator things_fields things_package
     = [ "syntax = " +:+ quoted "proto3" +:+ ";"; "";
         "package a;"; "";
         "message Thing {";
         "  b.Kind kind = 1;";
         "}" ].
Proof. split; vm_compute; reflexivity. Qed.

Lemma foreign_reference_and_super_types_are_imported_witness :
  import_line "b.proto" ∈ file_lines plain_generator importing_fields importing_package.
Proof.
  apply (proj2 (foreign_reference_and_super_types_are_imported plain_generator importing_fields
                  importing_package importing_class
                  ltac:(apply list_elem_of_singleton; reflexivity))
               ("B", "Base")).
  - apply list_elem_of_singleton. reflexivity.
  - discriminate.
Defined.

Lemma field_options_need_the_registry (g : ProtoGenerator) (h : ProtoGeneratorFields)
    (anns : list EAnnotation) :
  _collect_field_options g h anns <> [] ->
  anns <> [] /\ uses_options h = true.
Proof.
  unfold _collect_field_options, uses_options. intros Hparts.
  destruct anns as [|ann anns]; [contradiction|]. split; [discriminate|].
  destruct (annotations h) as [c|]; [|contradiction].
  unfold has_annotations. destruct (options c) as [|entry entries] eqn:Hopts;
    [|reflexivity].
  exfalso. apply Hparts. generalize (ann :: anns). intros l.
  induction l as [|a l IH]; [reflexivity|]. cbn [flat_map]. rewrite IH, app_nil_r.
  induction (ann_details a) as [|kv details IHd]; [reflexivity|].
  cbn [flat_map]. rewrite IHd, app_nil_r.
  unfold field_option, get_option_for. rewrite Hopts. reflexivity.
Qed.

(** X25.  A file whose messages carry field options imports the options
    file: when [_collect_field_options] returns a part for an attribute or
    a reference of a class of the package, the import line of the options
    file is among the lines of the file. *)
Theorem field_options_import_the_options_file (g : ProtoGenerator)
    (h : ProtoGeneratorFields) (pkg : EPackage) (cls : EClass) :
  cls ∈ pkg_classes pkg ->
  (exists attr : EAttribute,
      attr ∈ cls_attributes cls
      /\ _collect_field_options g h (attr_annotations attr) <> [])
  \/ (exists ref : EReference,
        ref ∈ cls_references cls
        /\ _collect_field_options g h (ref_annotations ref) <> []) ->
  import_line (options_filename g) ∈ file_lines g h pkg.
Proof.
  intros Hcls Hfield. apply (import_line_written g h pkg cls _ Hcls).
  unfold _collect_imports.
  destruct Hfield as [(attr & Hattr & Hparts)|(ref & Href & Hparts)];
    apply field_options_need_the_registry in Hparts as [Hanns Huses].
  - apply elem_of_union. left. apply elem_of_union. left.
    apply elem_of_union_list. exists (attribute_imports g h pkg attr).
    split; [apply list_elem_of_fmap; exists attr; split; [reflexivity | exact Hattr]|].
    unfold attribute_imports. apply elem_of_union. right. rewrite Huses.
    destruct (attr_annotations attr); [contradiction|].
    apply elem_of_singleton. reflexivity.
  - apply elem_of_union. left. apply elem_of_union. right.
    apply elem_of_union_list. exists (reference_imports g h pkg ref).
    split; [apply list_elem_of_fmap; exists ref; split; [reflexivity | exact Href]|].
    unfold reference_imports. apply elem_of_union. right. rewrite Huses.
    destruct (ref_annotations ref); [contradiction|].
    apply elem_of_singleton. reflexivity.
Qed.

Lemma field_options_import_the_options_file_witness :
  import_line "ui_options.proto"
  ∈ file_lines plain_generator importing_fields importing_package.
Proof.
  apply (field_options_import_the_options_file plain_generator importing_fields
           importing_package importing_class).
  - apply list_elem_of_singleton. reflexivity.
  - left. eexists. split; [apply list_elem_of_singleton; reflexivity|].
    vm_compute. discriminate.
Defined.

(* ================================================================== *)
(** * The files of [generate_all] *)
(* ================================================================== *)

Lemma dict_get_In (k v : string) (d : dict) :
  dict_get k d = Some v -> In (k, v) d.
Proof.
  induction d as [|[k0 v0] d IH]; cbn [dict_get]; [discriminate|].
  destruct (String.eqb k0 k) eqn:Hk.
  - apply String.eqb_eq in Hk. subst k0. intros [= ->]. left. reflexivity.
  - intros H. right. apply IH, H.
Qed.

Lemma dict_get_key (k : string) (d : dict) :
  k ∈ map fst d -> exists v, dict_get k d = Some v.
Proof.
  induction d as [|[k0 v0] d IH]; cbn [map fst dict_get]; intros Hin;
    [apply elem_of_nil in Hin; contradiction|].
  destruct (String.eqb k0 k) eqn:Hk; [eexists; reflexivity|].
  apply elem_of_cons in Hin as [->|Hin]; [|apply IH, Hin].
  rewrite String.eqb_refl in Hk. discriminate.
Qed.

Lemma dict_set_In (k v k' v' : string) (d : dict) :
  In (k, v) (dict_set k' v' d) -> (k, v) = (k', v') \/ In (k, v) d.
Proof.
  induction d as [|[k0 v0] d IH]; cbn [dict_set].
  - intros [H|[]]. left. symmetry. exact H.
  - destruct (String.eqb k0 k') eqn:Hk.
    + apply String.eqb_eq in Hk. subst k0. intros [H|H].
      * left. symmetry. exact H.
      * right. right. exact H.
    + intros [H|H]; [right; left; exact H|].
      destruct (IH H) as [He|Hd]; [left; exact He | right; right; exact Hd].
Qed.

Lemma dict_set_NoDup (k v : string) (d : dict) :
  NoDup (map fst d) -> NoDup (map fst (dict_set k v d)).
Proof.
  intros Hnd. rewrite dict_set_keys. case_bool_decide as Hk; [exact Hnd|].
  apply NoDup_app. split; [exact Hnd|]. split; [|apply NoDup_singleton].
  intros x Hx Hx'. apply list_elem_of_singleton in Hx'. subst x. contradiction.
Qed.

Lemma dict_set_key (k k' v' : string) (d : dict) :
  k ∈ map fst (dict_set k' v' d) <-> k = k' \/ k ∈ map fst d.
Proof.
  rewrite dict_set_keys. case_bool_decide as Hk.
  - split; [tauto|]. intros [->|H]; assumption.
  - rewrite elem_of_app, list_elem_of_singleton. tauto.
Qed.

Lemma dict_update_In (files : dict) :
  forall (d : dict) (k v : string),
    In (k, v) (dict_update d files) -> In (k, v) d \/ In (k, v) files.
Proof.
  unfold dict_update. induction files as [|[k0 v0] files IH]; intros d k v H;
    cbn [fold_left fst snd] in *; [left; exact H|].
  destruct (IH _ _ _ H) as [Hd|Hf]; [|right; right; exact Hf].
  destruct (dict_set_In _ _ _ _ _ Hd) as [He|Hd']; [right; left; symmetry; exact He|].
  left. exact Hd'.
Qed.

Lemma dict_update_key (files : dict) :
  forall (d : dict) (k : string),
    k ∈ map fst (dict_update d files) <-> k ∈ map fst d \/ k ∈ map fst files.
Proof.
  unfold dict_update. induction files as [|[k0 v0] files IH]; intros d k;
    cbn [fold_left fst snd map].
  - rewrite elem_of_nil. tauto.
  - rewrite IH, dict_set_key, elem_of_cons. tauto.
Qed.

Lemma dict_update_NoDup (files : dict) :
  forall d : dict, NoDup (map fst d) -> NoDup (map fst (dict_update d files)).
Proof.
  unfold dict_update. induction files as [|[k0 v0] files IH]; intros d Hnd;
    cbn [fold_left fst snd]; [exact Hnd|].
  apply IH, dict_set_NoDup, Hnd.
Qed.

Lemma dict_update_get_other (files : dict) :
  forall (d : dict) (k : string),
    k ∉ map fst files -> dict_get k (dict_update d files) = dict_get k d.
Proof.
  unfold dict_update. induction files as [|[k0 v0] files IH]; intros d k Hk;
    cbn [fold_left fst snd]; [reflexivity|].
  cbn [map fst] in Hk. rewrite IH by (intros H; apply Hk, elem_of_cons; right; exact H).
  rewrite dict_get_set. destruct (String.eqb k0 k) eqn:He; [|reflexivity].
  apply String.eqb_eq in He. subst k0. exfalso. apply Hk, elem_of_cons. left. reflexivity.
Qed.

Lemma dict_update_get_key (files : dict) :
  forall (d : dict) (k : string),
    k ∈ map fst files ->
    exists v, In (k, v) files /\ dict_get k (dict_update d files) = Some v.
Proof.
  induction files as [|[k0 v0] files IH]; intros d k Hk;
    [apply elem_of_nil in Hk; contradiction|].
  change (dict_update d ((k0, v0) :: files))
    with (dict_update (dict_set k0 v0 d) files).
  destruct (decide (k ∈ map fst files)) as [Hin|Hnot].
  - destruct (IH (dict_set k0 v0 d) k Hin) as (v & Hv & Hget).
    exists v. split; [right; exact Hv | exact Hget].
  - cbn [map fst] in Hk. apply elem_of_cons in Hk as [->|Hk]; [|contradiction].
    exists v0. split; [left; reflexivity|].
    rewrite dict_update_get_other by exact Hnot.
    rewrite dict_get_set, String.eqb_refl. reflexivity.
Qed.

Lemma dict_update_get (files : dict) (d : dict) (k v : string) :
  dict_get k (dict_update d files) = Some v ->
  dict_get k d = Some v \/ In (k, v) files.
Proof.
  intros Hget. destruct (decide (k ∈ map fst files)) as [Hin|Hnot].
  - right. destruct (dict_update_get_key files d k Hin) as (v' & Hv' & Hget').
    rewrite Hget in Hget'. injection Hget' as ->. exact Hv'.
  - left. rewrite dict_update_get_other in Hget by exact Hnot. exact Hget.
Qed.

Lemma generate_package_unfold (g : ProtoGenerator) (h : ProtoGeneratorFields)
    (pkg : EPackage) :
  _generate_package g h pkg
  = fold_left (fun result sub => dict_update result (_generate_package g h sub))
              (pkg_sub_packages pkg)
              [(_package_to_filename (pkg_name pkg), _generate_proto_file g h pkg)].
Proof. destruct pkg. reflexivity. Qed.

Lemma update_fold (gp : EPackage -> dict) (l : list EPackage) :
  forall d0 : dict,
    let d := fold_left (fun result pkg => dict_update result (gp pkg)) l d0 in
    (forall k : string,
        (exists root, root ∈ l /\ k ∈ map fst (gp root)) ->
        exists v, dict_get k d = Some v /\ exists root, root ∈ l /\ In (k, v) (gp root))
    /\ (forall k v : string,
          dict_get k d = Some v ->
          dict_get k d0 = Some v \/ exists root, root ∈ l /\ In (k, v) (gp root))
    /\ (forall k v : string,
          In (k, v) d -> In (k, v) d0 \/ exists root, root ∈ l /\ In (k, v) (gp root))
    /\ (forall k : string,
          k ∈ map fst d0 \/ (exists root, root ∈ l /\ k ∈ map fst (gp root))
          -> k ∈ map fst d)
    /\ (NoDup (map fst d0) -> NoDup (map fst d)).
Proof.
  induction l as [|q l IH] using rev_ind; intros d0; cbv zeta.
  - cbn [fold_left]. split; [|split; [|split; [|split]]].
    + intros k (root & Hroot & _). apply elem_of_nil in Hroot. contradiction.
    + intros k v H. left. exact H.
    + intros k v H. left. exact H.
    + intros k [H|(root & Hroot & _)]; [exact H|].
      apply elem_of_nil in Hroot. contradiction.
    + intros H. exact H.
  - rewrite fold_left_app. cbn [fold_left].
    destruct (IH d0) as (H1 & H2 & H3 & H4 & H5). cbv zeta in H1, H2, H3, H4, H5.
    set (d := fold_left (fun result pkg => dict_update result (gp pkg)) l d0) in *.
    split; [|split; [|split; [|split]]].
    + intros k (root & Hroot & Hk).
      destruct (decide (k ∈ map fst (gp q))) as [Hq|Hq].
      * destruct (dict_update_get_key (gp q) d k Hq) as (v & Hv & Hget).
        exists v. split; [exact Hget|]. exists q. split; [|exact Hv].
        apply elem_of_app. right. apply list_elem_of_singleton. reflexivity.
      * rewrite dict_update_get_other by exact Hq.
        apply elem_of_app in Hroot as [Hroot|Hroot].
        -- destruct (H1 k) as (v & Hget & root' & Hroot' & Hv);
             [exists root; split; assumption|].
           exists v. split; [exact Hget|]. exists root'. split; [|exact Hv].
           apply elem_of_app. left. exact Hroot'.
        -- apply list_elem_of_singleton in Hroot. subst root. contradiction.
    + intros k v Hget. destruct (dict_update_get _ _ _ _ Hget) as [Hd|Hq].
      * destruct (H2 k v Hd) as [H0|(root & Hroot & Hv)]; [left; exact H0|].
        right. exists root. split; [apply elem_of_app; left; exact Hroot | exact Hv].
      * right. exists q. split; [|exact Hq].
        apply elem_of_app. right. apply list_elem_of_singleton. reflexivity.
    + intros k v Hin. destruct (dict_update_In _ _ _ _ Hin) as [Hd|Hq].
      * destruct (H3 k v Hd) as [H0|(root & Hroot & Hv)]; [left; exact H0|].
        right. exists root. split; [apply elem_of_app; left; exact Hroot | exact Hv].
      * right. exists q. split; [|exact Hq].
        apply elem_of_app. right. apply list_elem_of_singleton. reflexivity.
    + intros k Hk. apply dict_update_key.
      destruct Hk as [H0|(root & Hroot & Hk)]; [left; apply H4; left; exact H0|].
      apply elem_of_app in Hroot as [Hroot|Hroot].
      * left. apply H4. right. exists root. split; assumption.
      * apply list_elem_of_singleton in Hroot. subst root. right. exact Hk.
    + intros Hnd. apply dict_update_NoDup, H5, Hnd.
Qed.

Lemma generate_package_files (g : ProtoGenerator) (h : ProtoGeneratorFields)
    (pkg : EPackage) :
  (forall k v : string,
      In (k, v) (_generate_package g h pkg) ->
      exists p, p ∈ flatten_package pkg
                /\ k = _package_to_filename (pkg_name p)
                /\ v = _generate_proto_file g h p)
  /\ (forall p : EPackage,
        p ∈ flatten_package pkg ->
        _package_to_filename (pkg_name p) ∈ map fst (_generate_package g h pkg)).
Proof.
  induction pkg as [pkg IH] using EPackage_tree_ind.
  rewrite generate_package_unfold.
  destruct (update_fold (_generate_package g h) (pkg_sub_packages pkg)
              [(_package_to_filename (pkg_name pkg), _generate_proto_file g h pkg)])
    as (_ & _ & H3 & H4 & _).
  cbv zeta in H3, H4. rewrite List.Forall_forall in IH. split.
  - intros k v Hin. destruct (H3 k v Hin) as [[He|[]]|(sub & Hsub & Hv)].
    + injection He as <- <-. exists pkg. split; [apply flatten_package_self|].
      split; reflexivity.
    + destruct (IH sub (proj1 (list_elem_of_In _ _) Hsub)) as [Hs _].
      destruct (Hs k v Hv) as (p & Hp & Hk & Hvp).
      exists p. split; [|split; assumption].
      apply flatten_package_cases. right. exists sub. split; assumption.
  - intros p Hp. apply H4. apply flatten_package_cases in Hp as [->|(sub & Hsub & Hp)].
    + left. cbn [map fst]. apply list_elem_of_singleton. reflexivity.
    + right. exists sub. split; [exact Hsub|].
      destruct (IH sub (proj1 (list_elem_of_In _ _) Hsub)) as [_ Hs]. apply Hs, Hp.
Qed.

Lemma generate_all_files (g : ProtoGenerator)
    (h : ProtoGeneratorFields) :
  exists files : dict,
    generate_all g h = Ok files
    /\ NoDup (map fst files)
    /\ (forall pkg : EPackage,
          pkg ∈ flatten_packages (generator_packages h) ->
          exists text : string,
            dict_get (_package_to_filename (pkg_name pkg)) files = Some text
            /\ file_of_a_package g h (generator_packages h)
                 (_package_to_filename (pkg_name pkg)) text)
    /\ (forall name text : string,
          dict_get name files = Some text ->
          file_of_a_package g h (generator_packages h) name text
          \/ (uses_options h = true /\ name = options_filename g)).
Proof.
  unfold generate_all.
  assert (Hfirst : exists first : dict,
            match annotations h with
            | Some c =>
                if has_annotations c
                then text ← generate_ui_options_proto c (options_package g)
                              (proto_package_prefix g);
                     Ok [(options_filename g, text)]
                else Ok []
            | None => Ok []
            end = Ok first
            /\ NoDup (map fst first)
            /\ forall name text, dict_get name first = Some text ->
                 uses_options h = true /\ name = options_filename g).
  { unfold uses_options. destruct (annotations h) as [c|].
    - destruct (has_annotations c).
      + destruct (options_file_is_written c (options_package g) (proto_package_prefix g))
          as [text ->].
        eexists. split; [reflexivity|]. split; [apply NoDup_singleton|].
        intros name text' Hget. cbn [dict_get] in Hget.
        destruct (String.eqb (options_filename g) name) eqn:He; [|discriminate].
        apply String.eqb_eq in He. split; [reflexivity | symmetry; exact He].
      + exists []. split; [reflexivity|]. split; [constructor|]. discriminate.
    - exists []. split; [reflexivity|]. split; [constructor|]. discriminate. }
  destruct Hfirst as (first & -> & Hnd & Hopt).
  eexists. split; [reflexivity|].
  destruct (update_fold (_generate_package g h) (generator_packages h) first)
    as (H1 & H2 & _ & _ & H5).
  cbv zeta in H1, H2, H5.
  assert (Hfile : forall root k v,
             root ∈ generator_packages h -> In (k, v) (_generate_package g h root) ->
             file_of_a_package g h (generator_packages h) k v).
  { intros root k v Hroot Hin.
    destruct (generate_package_files g h root) as [Hs _].
    destruct (Hs k v Hin) as (p & Hp & Hk & Hv).
    exists p. split; [|split; assumption].
    apply elem_of_flat_map. exists root. split; assumption. }
  split; [apply H5, Hnd|]. split.
  - intros pkg Hpkg. apply elem_of_flat_map in Hpkg as (root & Hroot & Hpkg).
    destruct (H1 (_package_to_filename (pkg_name pkg))) as (v & Hget & root' & Hroot' & Hv).
    { exists root. split; [exact Hroot|].
      destruct (generate_package_files g h root) as [_ Hk]. apply Hk, Hpkg. }
    exists v. split; [exact Hget|]. apply (Hfile root' _ _ Hroot' Hv).
  - intros name text Hget. destruct (H2 name text Hget) as [H0|(root & Hroot & Hv)].
    + right. apply Hopt in H0. exact H0.
    + left. apply (Hfile root _ _ Hroot Hv).
Qed.

(** X26.  [generate_all] returns a dictionary without failing.  Every
    package of the list, at any depth, has an entry under its file name,
    whose text is that of a package of the list with that file name; and
    every entry is such a file, or the options file written because the
    registry is not empty. *)
Theorem generate_all_writes_a_file_for_every_package (g : ProtoGenerator)
    (h : ProtoGeneratorFields) :
  exists files : dict,
    generate_all g h = Ok files
    /\ NoDup (map fst files)
    /\ (forall pkg : EPackage,
          pkg ∈ flatten_packages (generator_packages h) ->
          exists text : string,
            dict_get (_package_to_filename (pkg_name pkg)) files = Some text
            /\ file_of_a_package g h (generator_packages h)
                 (_package_to_filename (pkg_name pkg)) text)
    /\ (forall name text : string,
          dict_get name files = Some text ->
          file_of_a_package g h (generator_packages h) name text
          \/ (uses_options h = true /\ name = options_filename g)).
Proof. apply generate_all_files. Qed.

(* ================================================================== *)
(** * [convert] *)
(* ================================================================== *)





(* ================================================================== *)
(** * The fields of a message *)
(* ================================================================== *)

Lemma string_append_assoc (a b c : string) : (a +:+ b) +:+ c = a +:+ (b +:+ c).
Proof.
  induction a as [|x a IH]; [reflexivity|].
  change (String x ((a +:+ b) +:+ c) = String x (a +:+ (b +:+ c))). rewrite IH.
  reflexivity.
Qed.

Lemma fold_numbered {A : Type} (step : list string * Z -> A -> list string * Z)
    (lines_of : Z -> A -> list string) :
  (forall lines n x, step (lines, n) x = (lines ++ lines_of n x, (n + 1)%Z)) ->
  forall (l : list A) (lines : list string) (n : Z),
    fold_left step l (lines, n)
    = (lines ++ concat (imap (fun i x => lines_of (n + Z.of_nat i)%Z x) l),
       (n + Z.of_nat (length l))%Z).
Proof.
  intros Hstep. induction l as [|x l IH]; intros lines n.
  - cbn [fold_left imap concat length]. rewrite app_nil_r, Z.add_0_r. reflexivity.
  - cbn [fold_left]. rewrite Hstep, IH, imap_cons. cbn [concat length].
    rewrite <- app_assoc, Z.add_0_r. f_equal.
    + f_equal. f_equal. f_equal. apply imap_ext. intros i y _. cbn [compose].
      f_equal. lia.
    + lia.
Qed.

Lemma super_field_step (g : ProtoGenerator) (current_pkg : EPackage)
    (lines : list string) (n : Z) (sup : string * string) :
  super_field g current_pkg (lines, n) sup
  = (lines ++ fst (super_field g current_pkg ([], n) sup), (n + 1)%Z).
Proof. destruct sup. reflexivity. Qed.

Lemma attribute_field_step (g : ProtoGenerator) (h : ProtoGeneratorFields)
    (current_pkg : EPackage) (lines : list string) (n : Z) (attr : EAttribute) :
  attribute_field g h current_pkg (lines, n) attr
  = (lines ++ fst (attribute_field g h current_pkg ([], n) attr), (n + 1)%Z).
Proof. reflexivity. Qed.

Lemma reference_field_step (g : ProtoGenerator) (h : ProtoGeneratorFields)
    (current_pkg : EPackage) (lines : list string) (n : Z) (ref : EReference) :
  reference_field g h current_pkg (lines, n) ref
  = (lines ++ fst (reference_field g h current_pkg ([], n) ref), (n + 1)%Z).
Proof. reflexivity. Qed.

Lemma option_block_lines (option_parts : list string) :
  Forall (fun line => Py.starts_with "    " line = true
                      \/ Py.starts_with "  ]" line = true)
         (option_block option_parts).
Proof.
  induction option_parts as [|opt [|opt' parts] IH]; [constructor| |].
  - repeat constructor.
  - change (option_block (opt :: opt' :: parts))
      with (("    " +:+ opt +:+ ",") :: option_block (opt' :: parts)).
    constructor; [left; reflexivity | exact IH].
Qed.

Lemma format_field_line_block (type_str field_name : string) (field_number : Z)
    (option_parts : list string) (comment : string) :
  field_block (_format_field_line type_str field_name field_number option_parts comment)
              field_name field_number.
Proof.
  unfold _format_field_line, field_block, declares. cbv zeta.
  destruct option_parts as [|opt [|opt' parts]].
  - exists [], ("  " +:+ type_str +:+ " " +:+ field_name +:+ " = "
               +:+ Py.str_of_int field_number +:+ ";" +:+ comment), [].
    split; [rewrite !string_append_assoc; reflexivity|].
    split; [|split; constructor].
    exists type_str, (";" +:+ comment). split; [reflexivity | left; reflexivity].
  - exists [], ("  " +:+ type_str +:+ " " +:+ field_name +:+ " = "
               +:+ Py.str_of_int field_number +:+ " [" +:+ opt +:+ "];" +:+ comment), [].
    split; [rewrite !string_append_assoc; reflexivity|].
    split; [|split; constructor].
    exists type_str, (" [" +:+ opt +:+ "];" +:+ comment).
    split; [reflexivity | right; reflexivity].
  - exists [], ("  " +:+ type_str +:+ " " +:+ field_name +:+ " = "
               +:+ Py.str_of_int field_number +:+ " ["),
           (option_block (opt :: opt' :: parts) ++ ["  ];" +:+ comment]).
    split; [cbn [app]; rewrite !string_append_assoc; reflexivity|].
    split; [|split; [constructor|]].
    + exists type_str, " [". split; [reflexivity | right; reflexivity].
    + apply Forall_app. split; [apply option_block_lines|].
      constructor; [right; reflexivity | constructor].
Qed.

Lemma member_lines_block (g : ProtoGenerator) (h : ProtoGeneratorFields)
    (current_pkg : EPackage) (n : Z) (m : member) :
  field_block (member_lines g h current_pkg n m) (member_field_name m) n.
Proof.
  destruct m as [[super_pkg super_name]|attr|ref];
    cbn [member_lines member_field_name snd].
  - unfold super_field. cbn [fst app].
    eexists [_], _, []. split; [reflexivity|].
    split; [|split; [repeat constructor | constructor]].
    eexists. exists ";". split; [reflexivity | left; reflexivity].
  - unfold attribute_field. cbn [fst app]. apply format_field_line_block.
  - unfold reference_field. cbn [fst app]. apply format_field_line_block.
Qed.

Lemma message_body (g : ProtoGenerator) (h : ProtoGeneratorFields)
    (cls : EClass) (current_pkg : EPackage) (lines : list string) :
  fst (fold_left (reference_field g h current_pkg) (cls_references cls)
         (fold_left (attribute_field g h current_pkg) (cls_attributes cls)
            (fold_left (super_field g current_pkg) (cls_resolved_supers cls)
               (lines, 1%Z))))
  = lines
    ++ concat (imap (fun i m => member_lines g h current_pkg (Z.of_nat i + 1) m)
                    (members cls)).
Proof.
  rewrite (fold_numbered (super_field g current_pkg)
             (fun n sup => fst (super_field g current_pkg ([], n) sup))
             (super_field_step g current_pkg)).
  rewrite (fold_numbered (attribute_field g h current_pkg)
             (fun n attr => fst (attribute_field g h current_pkg ([], n) attr))
             (attribute_field_step g h current_pkg)).
  rewrite (fold_numbered (reference_field g h current_pkg)
             (fun n ref => fst (reference_field g h current_pkg ([], n) ref))
             (reference_field_step g h current_pkg)).
  cbn [fst]. rewrite <- !app_assoc. f_equal.
  unfold members. rewrite !imap_app, !concat_app, !imap_fmap, !length_map.
  f_equal; [|f_equal]; f_equal; apply imap_ext; intros i x _;
    cbn [compose member_lines].
  - replace (1 + Z.of_nat i)%Z with (Z.of_nat i + 1)%Z by lia. reflexivity.
  - match goal with
    | |- fst (attribute_field _ _ _ ([], ?a) _) = fst (attribute_field _ _ _ ([], ?b) _) =>
        replace a with b by lia
    end.
    reflexivity.
  - match goal with
    | |- fst (reference_field _ _ _ ([], ?a) _) = fst (reference_field _ _ _ ([], ?b) _) =>
        replace a with b by lia
    end.
    reflexivity.
Qed.

(** X28.  The fields of a message are numbered by position.  The lines of
    [_generate_message] are the comment lines, the opening line, one block
    of lines for each member and the closing line, the members being the
    resolved super types, then the attributes, then the references.  The
    block of the member at place [i] (from 0) holds, between its comment
    lines and the lines of its option block, the line that declares the
    field name of the member with the number [i + 1]: the numeral of
    [i + 1] stands right after the equals sign and ends there. *)
Theorem message_fields_are_numbered_by_position (g : ProtoGenerator)
    (h : ProtoGeneratorFields) (cls : EClass) (current_pkg : EPackage) :
  exists (comments : list string) (blocks : list (list string)),
    _generate_message g h cls current_pkg
    = comments
      ++ ["message " +:+ _to_proto_name (cls_name cls) +:+ " {"]
      ++ concat blocks
      ++ ["}"]
    /\ length blocks = length (members cls)
    /\ forall (i : nat) (m : member),
         members cls !! i = Some m ->
         exists block : list string,
           blocks !! i = Some block
           /\ field_block block (member_field_name m) (Z.of_nat i + 1).
Proof.
  unfold _generate_message. cbv zeta. rewrite message_body.
  match goal with
  | |- exists _ _, ((?a ++ ?b ++ ?c ++ [_]) ++ _) ++ _ = _ /\ _ =>
      exists (a ++ b ++ c)
  end.
  exists (imap (fun i m => member_lines g h current_pkg (Z.of_nat i + 1) m)
               (members cls)).
  split; [rewrite <- !app_assoc; reflexivity|].
  split; [apply length_imap|].
  intros i m Hm. exists (member_lines g h current_pkg (Z.of_nat i + 1) m).
  split; [rewrite list_lookup_imap, Hm; reflexivity | apply member_lines_block].
Qed.

Lemma message_fields_are_numbered_by_position_witness :
  exists (comments : list string) (blocks : list (list string)),
    _generate_message plain_generator importing_fields importing_class importing_package
    = comments ++ ["message Drawing {"] ++ concat blocks ++ ["}"]
    /\ exists block : list string,
         blocks !! 2%nat = Some block
         /\ field_block block "shape" 3.
Proof.
  destruct (message_fields_are_numbered_by_position plain_generator importing_fields
              importing_class importing_package)
    as (comments & blocks & Hlines & _ & Hblocks).
  exists comments, blocks. split; [exact Hlines|].
  apply (Hblocks 2%nat
           (ReferenceMember
              (mkEReference "shape" "Circle" false 0 1 None (Some "B") None []))).
  reflexivity.
Defined.

(* ================================================================== *)
(** * The text of a file *)
(* ================================================================== *)

Lemma drop_blank_head (lines rest : list string) : drop_blank lines <> "" :: rest.
Proof.
  induction lines as [|x lines IH]; cbn [drop_blank]; [discriminate|].
  destruct x as [|c x]; [exact IH | discriminate].
Qed.

Lemma drop_blank_snoc (lines : list string) (x : string) :
  x <> "" -> drop_blank (lines ++ [x]) = drop_blank lines ++ [x].
Proof.
  intros Hx. induction lines as [|y lines IH]; cbn [app drop_blank].
  - destruct x; [contradiction | reflexivity].
  - destruct y as [|c y]; [exact IH | reflexivity].
Qed.

Lemma pop_blank_lines_cons (x : string) (lines : list string) :
  x <> "" -> pop_blank_lines (x :: lines) = x :: pop_blank_lines lines.
Proof.
  intros Hx. unfold pop_blank_lines. cbn [rev].
  rewrite drop_blank_snoc by exact Hx. rewrite rev_app_distr. reflexivity.
Qed.

Lemma pop_blank_lines_last (lines body : list string) :
  pop_blank_lines lines <> body ++ [""].
Proof.
  unfold pop_blank_lines. intros H.
  apply (f_equal (@rev string)) in H. rewrite rev_involutive, rev_app_distr in H.
  cbn [rev app] in H. exact (drop_blank_head _ _ H).
Qed.

Lemma join_lines_closing (lines : list string) :
  lines <> [] -> join_lines (lines ++ [""]) = join_lines lines +:+ newline.
Proof.
  unfold join_lines. induction lines as [|x [|y lines] IH]; intros Hne;
    [contradiction| |].
  - cbn [app String.concat]. rewrite append_empty_right. reflexivity.
  - change (x +:+ newline +:+ String.concat newline ((y :: lines) ++ [""])
            = (x +:+ newline +:+ String.concat newline (y :: lines)) +:+ newline).
    rewrite IH by discriminate. rewrite !string_append_assoc. reflexivity.
Qed.

(** X29.  The text of a package file is its lines joined, closed by one
    line end: the first line is the syntax line, and the last line before
    the closing line end is never empty, whatever blank lines the enums
    and messages left behind them. *)
Theorem proto_file_ends_with_one_line_end (g : ProtoGenerator)
    (h : ProtoGeneratorFields) (pkg : EPackage) :
  (exists rest : list string,
      file_lines g h pkg = ("syntax = " +:+ quoted "proto3" +:+ ";") :: rest)
  /\ (forall body : list string, file_lines g h pkg <> body ++ [""])
  /\ _generate_proto_file g h pkg = join_lines (file_lines g h pkg) +:+ newline.
Proof.
  assert (Hfirst : exists rest : list string,
             file_lines g h pkg = ("syntax = " +:+ quoted "proto3" +:+ ";") :: rest).
  { unfold file_lines, proto_file_lines. cbv zeta. cbn [app].
    rewrite pop_blank_lines_cons by (vm_compute; discriminate).
    eexists. reflexivity. }
  split; [exact Hfirst|]. split.
  - intros body. apply pop_blank_lines_last.
  - unfold _generate_proto_file. fold (file_lines g h pkg).
    apply join_lines_closing. destruct Hfirst as [rest ->]. discriminate.
Qed.

(* ================================================================== *)
(** * The field names of the options *)
(* ================================================================== *)

















